(** * rn-dashboard: the data layer of the app-ideas dashboard

    A shallow embedding of [utils/data_processor.py] (class [DataProcessor])
    and [components/filters.py] (class [FilterManager]), and the
    properties of the loader, the filters and the aggregation queries.

    Python values are modelled as follows.
    - A [str] is the list of its Unicode code points ([pystr]).
    - A pandas [DataFrame] is its list of column labels and its rows in
      order; a row maps a column label to a cell.  Row labels (the index)
      are not modelled: no function below reads them.  Columns carry no
      dtype: every column is an object column, the dtype of the text
      columns that [read_csv] produces and of the derived list columns.
    - A raised exception is the [Raise] outcome of the [result] monad.
    - What Python delegates to the Unicode database ([str.lower], the
      case folding of [re.IGNORECASE]) is an interface, [Unicode]; the
      theorems hold for every implementation of it, and [latin1] is the
      implementation used to run the definitions on Latin-1 text. *)

From Stdlib Require Import Ascii String NArith ZArith.
From stdpp Require Import base decidable option list gmap strings fin_maps sorting.

Open Scope string_scope.
Open Scope N_scope.
Open Scope list_scope.

(** ** Strings *)

Module Py.

(** A Python [str]: its code points. *)
Definition pystr : Type := list N.

Definition byte (a : ascii) : N := Ascii.N_of_ascii a.

(** Reads a string literal of this file (UTF-8 bytes) as the Python
    string it denotes. *)
Fixpoint py (s : string) : pystr :=
  match s with
  | EmptyString => []
  | String a s1 =>
      if byte a <? 128 then byte a :: py s1
      else match s1 with
      | EmptyString => []
      | String a1 s2 =>
          if byte a <? 224
          then ((byte a - 192) * 64 + (byte a1 - 128)) :: py s2
          else match s2 with
          | EmptyString => []
          | String a2 s3 =>
              if byte a <? 240
              then ((byte a - 224) * 4096 + (byte a1 - 128) * 64
                    + (byte a2 - 128)) :: py s3
              else match s3 with
              | EmptyString => []
              | String a3 s4 =>
                  ((byte a - 240) * 262144 + (byte a1 - 128) * 4096
                   + (byte a2 - 128) * 64 + (byte a3 - 128)) :: py s4
              end
          end
      end
  end.

(** [w in s] on strings: [w] occurs in [s] as a contiguous run. *)
Fixpoint startswith (s w : pystr) {struct w} : bool :=
  match w, s with
  | [], _ => true
  | _ :: _, [] => false
  | a :: w', b :: s' => (a =? b) && startswith s' w'
  end.

Fixpoint str_in (w s : pystr) : bool :=
  startswith s w ||
  match s with
  | [] => false
  | _ :: s' => str_in w s'
  end.

(** [str.isspace] of one code point: the white space of the Unicode
    database (bidirectional types WS, B, S and category Zs). *)
Definition isspace (c : N) : bool :=
  ((9 <=? c) && (c <=? 13)) || ((28 <=? c) && (c <=? 32))
  || (c =? 133) || (c =? 160) || (c =? 5760)
  || ((8192 <=? c) && (c <=? 8202)) || (c =? 8232) || (c =? 8233)
  || (c =? 8239) || (c =? 8287) || (c =? 12288).

Fixpoint lstrip (s : pystr) : pystr :=
  match s with
  | [] => []
  | c :: s' => if isspace c then lstrip s' else s
  end.

(** [s.strip()] *)
Definition strip (s : pystr) : pystr :=
  reverse (lstrip (reverse (lstrip s))).

(** [s.split(sep)] for a separator of one code point: the pieces between
    the occurrences of [sep]; always at least one piece. *)
Fixpoint split (sep : N) (s : pystr) : list pystr :=
  match s with
  | [] => [[]]
  | c :: s' =>
      if c =? sep then [] :: split sep s'
      else match split sep s' with
      | [] => [[c]]
      | p :: ps => (c :: p) :: ps
      end
  end.

(** The part of Python that consults the Unicode database. *)
Class Unicode := {
  (** [s.lower()] *)
  str_lower : pystr → pystr;
  (** two code points match under [re.IGNORECASE] *)
  char_ieq : N → N → bool
}.

(** Lower case of a code point below U+0100: A-Z and the Latin-1 capitals
    U+00C0-U+00DE (the multiplication sign U+00D7 apart) move up by 32. *)
Definition lower_latin1 (c : N) : N :=
  if ((65 <=? c) && (c <=? 90))
     || ((192 <=? c) && (c <=? 222) && negb (c =? 215))
  then c + 32 else c.

(** The Unicode interface on Latin-1 text (code points below U+0100,
    which covers Portuguese); other code points are left as they are. *)
Definition latin1 : Unicode := {|
  str_lower := map lower_latin1;
  char_ieq := λ a b, lower_latin1 a =? lower_latin1 b
|}.

End Py.
Export Py.

(** ** Exceptions *)

Inductive exn : Type :=
  | KeyError
  | AttributeError
  | TypeError
  | FileNotFoundError
  | OtherError
  | ReError        (* re.error *)
  | NotModelled.   (* no Python exception: see [Re] *)

Inductive result (A : Type) : Type :=
  | Ok (a : A)
  | Raise (e : exn).
Arguments Ok {A} a.
Arguments Raise {A} e.

#[global] Instance result_ret : MRet result := @Ok.
#[global] Instance result_bind : MBind result := λ A B f m,
  match m with
  | Ok a => f a
  | Raise e => Raise e
  end.
#[global] Instance result_fmap : FMap result := λ A B f m,
  match m with
  | Ok a => Ok (f a)
  | Raise e => Raise e
  end.

(** A [for] loop whose body may raise, threading the loop's state. *)
Fixpoint foldM {A S : Type} (body : S → A → result S) (l : list A) (s : S)
    : result S :=
  match l with
  | [] => Ok s
  | x :: l' => s' ← body s x; foldM body l' s'
  end.

#[global] Instance exn_eq_dec : EqDecision exn.
Proof. solve_decision. Defined.

(** ** Data frames *)

Inductive cell : Type :=
  | NaN                       (* a missing value *)
  | Str (s : pystr)
  | Int (n : Z)
  | Lst (l : list pystr).     (* a Python list of strings *)

#[global] Instance cell_eq_dec : EqDecision cell.
Proof. solve_decision. Defined.

Abbreviation row := (gmap string cell).

Record DataFrame : Type := {
  columns : list string;
  rows : list row
}.

(** [pd.DataFrame()] *)
Definition empty_frame : DataFrame := {| columns := []; rows := [] |}.

(** [df.empty]: an axis has length 0. *)
Definition df_empty (df : DataFrame) : bool :=
  match columns df, rows df with
  | [], _ | _, [] => true
  | _, _ => false
  end.

(** The cell of a row under a label of the frame. *)
Definition cell_at (r : row) (c : string) : cell := default NaN (r !! c).

(** [df[c]]: the column as a Series, [KeyError] for an unknown label. *)
Definition df_col (df : DataFrame) (c : string) : result (list cell) :=
  if decide (c ∈ columns df) then Ok (map (λ r, cell_at r c) (rows df))
  else Raise KeyError.

(** [row[c]] for a row that [iterrows] yields. *)
Definition row_get (r : row) (c : string) : result cell :=
  match r !! c with
  | Some v => Ok v
  | None => Raise KeyError
  end.

(** [df[mask]] where the mask is a test of each row. *)
Definition df_where (P : row → Prop) `{!∀ r, Decision (P r)}
    (df : DataFrame) : DataFrame :=
  {| columns := columns df; rows := filter P (rows df) |}.

(** [x == v] against a string [v]: only that same string is equal. *)
Definition cell_is (v : pystr) (x : cell) : Prop := x = Str v.

#[global] Instance cell_is_dec v x : Decision (cell_is v x).
Proof. unfold cell_is. apply _. Defined.

(** [df[df[c] == v]] *)
Definition df_where_eq (c : string) (v : pystr) (df : DataFrame)
    : result DataFrame :=
  _ ← df_col df c;
  Ok (df_where (λ r, cell_is v (cell_at r c)) df).


(** ** Python dictionaries that hold lists

    A [dict] in insertion order, as a list of items with distinct keys. *)

(** [d[k].append(v)] *)
Fixpoint dict_append {K V : Type} `{EqDecision K}
    (d : list (K * list V)) (k : K) (v : V) : result (list (K * list V)) :=
  match d with
  | [] => Raise KeyError
  | (k', l) :: d' =>
      if decide (k' = k) then Ok ((k', l ++ [v]) :: d')
      else d'' ← dict_append d' k v; Ok ((k', l) :: d'')
  end.

(** [d[k] = v] *)
Fixpoint dict_set {K V : Type} `{EqDecision K}
    (d : list (K * V)) (k : K) (v : V) : list (K * V) :=
  match d with
  | [] => [(k, v)]
  | (k', v') :: d' =>
      if decide (k' = k) then (k', v) :: d' else (k', v') :: dict_set d' k v
  end.

(** The string methods of a value: [AttributeError] unless it is a [str]. *)
Definition as_str (x : cell) : result pystr :=
  match x with
  | Str s => Ok s
  | _ => Raise AttributeError
  end.

(** ** Regular expressions: the part of [re] that the code reaches

    [Series.str.contains(pat)] compiles [pat] with [re.compile] and keeps
    the strings in which [re.search] finds a match.  The model reads the
    syntax made of ordinary characters, [.], [|], groups [( )], the greedy
    repeats [*] [+] [?] and a backslash before a special character.  A
    pattern with any other construct compiles to [NotModelled]. *)

Module Re.

Inductive regex : Type :=
  | Void                       (* matches nothing *)
  | Eps                        (* matches the empty string *)
  | Lit (c : N)                (* an ordinary character *)
  | Dot                        (* [.]: any character but the newline *)
  | Cat (r1 r2 : regex)
  | Alt (r1 r2 : regex)
  | Star (r : regex).

(** The special characters, [. ^ $ * + ? { } [ ] \ | ( )]. *)
Definition special (c : N) : bool :=
  bool_decide (c ∈ py ".^$*+?{}[]\|()").

Definition is_repeat (c : N) : bool := bool_decide (c ∈ py "*+?").

(** The items of a branch, latest first, in sequence. *)
Definition seq_of (items : list regex) : regex :=
  fold_left (λ acc x, Cat x acc) items Eps.

(** The branches of a group, latest first, as alternatives. *)
Definition alt_of (branches : list regex) : regex :=
  match branches with
  | [] => Void
  | b :: bs => fold_left (λ acc x, Alt x acc) bs b
  end.

(** The group being read: its finished branches and the items of the
    branch being read, both latest first. *)
Definition frame : Type := list regex * list regex.

Definition close (f : frame) : regex := alt_of (seq_of f.2 :: f.1).

Definition push (x : regex) (f : frame) : frame := (f.1, x :: f.2).

Definition repeat_item (c : N) (x : regex) : regex :=
  if c =? 42 then Star x                (* [*] *)
  else if c =? 43 then Cat x (Star x)   (* [+] *)
  else Alt x Eps.                       (* [?] *)

(** The role of a pattern character. *)
Inductive token : Type :=
  | TOpen | TClose | TBar | TRepeat | TEscape | TDot | TSpecial | TLit.

Definition classify (c : N) : token :=
  if c =? 40 then TOpen              (* ( *)
  else if c =? 41 then TClose        (* ) *)
  else if c =? 124 then TBar         (* | *)
  else if is_repeat c then TRepeat   (* * + ? *)
  else if c =? 92 then TEscape       (* \ *)
  else if c =? 46 then TDot          (* . *)
  else if special c then TSpecial    (* ^ $ [ ] { } *)
  else TLit.

(** The next character of the pattern passes the test [f]. *)
Definition next_is (f : N → bool) (p : pystr) : bool :=
  match p with
  | [] => false
  | q :: _ => f q
  end.

(** Reads the pattern from left to right; [cur] is the innermost open
    group and [stack] the groups around it.  [ReError] is [re.error]. *)
Fixpoint parse (p : pystr) (cur : frame) (stack : list frame)
    : result regex :=
  match p with
  | [] =>
      match stack with
      | [] => Ok (close cur)
      | _ :: _ => Raise ReError   (* missing ), unterminated subpattern *)
      end
  | c :: p' =>
      match classify c with
      | TOpen =>
          if next_is (N.eqb 63) p' then Raise NotModelled   (* (?...) *)
          else parse p' ([], []) (cur :: stack)
      | TClose =>
          match stack with
          | [] => Raise ReError             (* unbalanced parenthesis *)
          | outer :: stack' => parse p' (push (close cur) outer) stack'
          end
      | TBar => parse p' (seq_of cur.2 :: cur.1, []) stack
      | TRepeat =>
          match cur.2 with
          | [] => Raise ReError             (* nothing to repeat *)
          | x :: items =>
              if next_is is_repeat p' then Raise NotModelled
              else parse p' (cur.1, repeat_item c x :: items) stack
          end
      | TEscape =>
          match p' with
          | [] => Raise ReError             (* bad escape (end of pattern) *)
          | q :: p'' =>
              if special q then parse p'' (push (Lit q) cur) stack
              else Raise NotModelled
          end
      | TDot => parse p' (push Dot cur) stack
      | TSpecial => Raise NotModelled
      | TLit => parse p' (push (Lit c) cur) stack
      end
  end.

(** The pattern that reads the characters of [w] one after the other. *)
Definition lits (w : pystr) : regex := foldr (λ c acc, Cat (Lit c) acc) Eps w.

(** [re.compile(pat)] *)
Definition compile (pat : pystr) : result regex := parse pat ([], []) [].

Fixpoint nullable (r : regex) : bool :=
  match r with
  | Void | Lit _ | Dot => false
  | Eps | Star _ => true
  | Cat r1 r2 => nullable r1 && nullable r2
  | Alt r1 r2 => nullable r1 || nullable r2
  end.

Section WithUnicode.
Context `{Unicode}.

(** The pattern character [c] matches [x]; [ic] is [re.IGNORECASE]. *)
Definition char_match (ic : bool) (c x : N) : bool :=
  if ic then char_ieq c x else c =? x.

(** What is left of [r] to match after it has read [x]. *)
Fixpoint deriv (ic : bool) (x : N) (r : regex) : regex :=
  match r with
  | Void | Eps => Void
  | Lit c => if char_match ic c x then Eps else Void
  | Dot => if x =? 10 then Void else Eps
  | Cat r1 r2 =>
      if nullable r1
      then Alt (Cat (deriv ic x r1) r2) (deriv ic x r2)
      else Cat (deriv ic x r1) r2
  | Alt r1 r2 => Alt (deriv ic x r1) (deriv ic x r2)
  | Star r1 => Cat (deriv ic x r1) (Star r1)
  end.

(** A match of [r] starts at the beginning of [s]. *)
Fixpoint match_here (ic : bool) (r : regex) (s : pystr) : bool :=
  nullable r ||
  match s with
  | [] => false
  | x :: s' => match_here ic (deriv ic x r) s'
  end.

(** [r.search(s) is not None]: a match starts somewhere in [s]. *)
Fixpoint search (ic : bool) (r : regex) (s : pystr) : bool :=
  match_here ic r s ||
  match s with
  | [] => false
  | _ :: s' => search ic r s'
  end.

(** The strings that a pattern matches in full. *)
Inductive Matches (ic : bool) : regex → pystr → Prop :=
  | Matches_Eps : Matches ic Eps []
  | Matches_Lit c x : char_match ic c x = true → Matches ic (Lit c) [x]
  | Matches_Dot x : x ≠ 10 → Matches ic Dot [x]
  | Matches_Cat r1 r2 s1 s2 :
      Matches ic r1 s1 → Matches ic r2 s2 → Matches ic (Cat r1 r2) (s1 ++ s2)
  | Matches_Alt_l r1 r2 s : Matches ic r1 s → Matches ic (Alt r1 r2) s
  | Matches_Alt_r r1 r2 s : Matches ic r2 s → Matches ic (Alt r1 r2) s
  | Matches_Star_nil r : Matches ic (Star r) []
  | Matches_Star_app r s1 s2 :
      Matches ic r s1 → Matches ic (Star r) s2 →
      Matches ic (Star r) (s1 ++ s2).

(** [Series.str.contains(pat, case=not ic, na=False)], as the test of one
    element; the pattern is compiled before any element is looked at.  An
    element that is not a string gives the [na] value. *)
Definition str_contains (ic : bool) (pat : pystr) : result (cell → bool) :=
  r ← compile pat;
  Ok (λ x, match x with
           | Str s => search ic r s
           | _ => false
           end).

End WithUnicode.
End Re.

(** ** DataProcessor.get_categories_analysis *)

Module Categories.

Definition categories : list (pystr * list pystr) := [
  (py "Redes Sociais", []);
  (py "Educação", []);
  (py "Jogos", []);
  (py "E-commerce", []);
  (py "Saúde/Bem-estar", []);
  (py "Entretenimento", []);
  (py "Produtividade", []);
  (py "Transporte/Localização", []);
  (py "Finanças", []);
  (py "Utilitários", [])
].

Definition category_keywords : list (pystr * list pystr) := [
  (py "Redes Sociais",
   map py ["rede social"; "relacionamento"; "social"; "comunidade";
           "encontros"; "tinder"; "cassino social"]);
  (py "Educação",
   map py ["aprendizado"; "educação"; "edu"; "conhecimento"; "curso";
           "estudo"; "ensinar"; "tutorial"; "aula"; "roadmap"]);
  (py "Jogos",
   map py ["jogo"; "game"; "diversão"; "competitivo"; "ritmo"; "fases";
           "prêmios"; "desafios"]);
  (py "E-commerce",
   map py ["mercadoria"; "busca"; "lojista"; "marketplace"; "cupons";
           "preços"; "fornecedores"]);
  (py "Saúde/Bem-estar",
   map py ["saúde"; "mental"; "humor"; "estresse"; "rotina"; "água";
           "medicamentos"; "consultas"; "treino"; "dieta"; "meditação";
           "bem-estar"; "cuidado"; "respiração"]);
  (py "Entretenimento",
   map py ["youtube"; "evento"; "leitura"; "séries"; "mangás"; "música";
           "wallpapers"]);
  (py "Produtividade",
   map py ["agenda"; "controle"; "gestão"; "tempo"; "tarefas";
           "organização"; "produtividade"; "hábitos"; "rotina diária"]);
  (py "Transporte/Localização",
   map py ["caronas"; "transporte"; "ônibus"; "uber"; "viagens";
           "entregas"; "localização"; "eventos da cidade"]);
  (py "Finanças",
   map py ["tributário"; "estoque"; "lucros"; "dados de bancos"; "fundos";
           "educação financeira"; "doações"; "pix"])
].

Section WithUnicode.
Context `{Unicode}.

(** The inner loop [for category, keywords in category_keywords.items()]
    over the items still to visit; the flag is [categorized]. *)
Fixpoint scan_categories (items : list (pystr * list pystr))
    (ideia resumo : pystr) (cats : list (pystr * list pystr))
    : result (list (pystr * list pystr) * bool) :=
  match items with
  | [] => Ok (cats, false)
  | (category, keywords) :: items' =>
      if existsb (λ word, str_in word ideia) keywords
      then cats' ← dict_append cats category resumo; Ok (cats', true)
      else scan_categories items' ideia resumo cats
  end.

(** The body of [for _, row in self.df.iterrows()]. *)
Definition categorize_row (cats : list (pystr * list pystr)) (r : row)
    : result (list (pystr * list pystr)) :=
  x ← row_get r "ideia_resumo";
  resumo ← as_str x;
  let ideia := str_lower resumo in
  '(cats', categorized) ← scan_categories category_keywords ideia resumo cats;
  if categorized : bool then Ok cats'
  else dict_append cats' (py "Utilitários") resumo.

Definition get_categories_analysis (df : DataFrame)
    : result (list (pystr * list pystr)) :=
  foldM categorize_row (rows df) categories.

End WithUnicode.
End Categories.

(** ** Column labels

    Labels are ASCII identifiers; [replace] and [title] are given on them. *)

Module Label.

(** [s.replace(old, new)] for a non-empty [old]; [skip] counts the
    characters of a replaced occurrence still to pass over. *)
Fixpoint replace_from (old new : string) (skip : nat) (s : string) : string :=
  match s with
  | EmptyString => EmptyString
  | String a s' =>
      match skip with
      | S k => replace_from old new k s'
      | O =>
          if String.prefix old s
          then new +:+ replace_from old new (String.length old - 1) s'
          else String a (replace_from old new 0 s')
      end
  end.

Definition replace (old new s : string) : string := replace_from old new 0 s.

Definition is_upper (a : ascii) : bool := (65 <=? byte a) && (byte a <=? 90).
Definition is_lower (a : ascii) : bool := (97 <=? byte a) && (byte a <=? 122).
Definition to_upper (a : ascii) : ascii :=
  if is_lower a then Ascii.ascii_of_N (byte a - 32) else a.
Definition to_lower (a : ascii) : ascii :=
  if is_upper a then Ascii.ascii_of_N (byte a + 32) else a.

(** [s.title()]: a letter after a letter is lower-cased, a letter after
    anything else is upper-cased. *)
Fixpoint title_from (previous_is_cased : bool) (s : string) : string :=
  match s with
  | EmptyString => EmptyString
  | String a s' =>
      if is_lower a
      then String (if previous_is_cased then a else to_upper a)
                  (title_from true s')
      else if is_upper a
      then String (if previous_is_cased then to_lower a else a)
                  (title_from true s')
      else String a (title_from false s')
  end.

Definition title (s : string) : string := title_from false s.

End Label.

(** ** pandas Series *)

(** Counts the occurrences of each value, in order of first occurrence. *)
Fixpoint bump {A : Type} `{EqDecision A} (x : A) (t : list (A * nat))
    : list (A * nat) :=
  match t with
  | [] => [(x, 1%nat)]
  | (y, n) :: t' =>
      if decide (y = x) then (y, S n) :: t' else (y, n) :: bump x t'
  end.

Definition tally {A : Type} `{EqDecision A} (l : list A) : list (A * nat) :=
  fold_left (λ t x, bump x t) l [].

(** [pd.Series(l).value_counts()] for hashable values without missing
    ones: the counts, largest first.  pandas leaves the order among equal
    counts to its sort; here it is the order that merge sort gives. *)
Definition more_often {A : Type} (a b : A * nat) : Prop := (b.2 ≤ a.2)%nat.

#[global] Instance more_often_dec {A : Type} (a b : A * nat)
  : Decision (more_often a b).
Proof. unfold more_often. apply _. Defined.

Definition counts_desc {A : Type} `{EqDecision A} (l : list A)
    : list (A * nat) :=
  merge_sort more_often (tally l).

Definition is_list (x : cell) : bool :=
  match x with
  | Lst _ => true
  | _ => false
  end.

(** [col.value_counts()]: missing values are left out; a list cannot be
    hashed. *)
Definition value_counts (col : list cell) : result (list (cell * nat)) :=
  if existsb is_list col then Raise TypeError
  else Ok (counts_desc (filter (λ x, x ≠ NaN) col)).

(** [(col == v).sum()] *)
Definition count_is (v : pystr) (col : list cell) : nat :=
  length (filter (cell_is v) col).

(** [bool(x)] *)
Definition truthy (x : cell) : bool :=
  match x with
  | NaN => true
  | Str s => negb (bool_decide (s = []))
  | Int n => negb (bool_decide (n = 0%Z))
  | Lst l => negb (bool_decide (l = []))
  end.

(** [len(x)] *)
Definition py_len (x : cell) : result nat :=
  match x with
  | Str s => Ok (length s)
  | Lst l => Ok (length l)
  | _ => Raise TypeError
  end.

(** [col.str.len()] of one element: [None] is NaN, the value for an
    element that has no length. *)
Definition str_len (x : cell) : option nat :=
  match x with
  | Str s => Some (length s)
  | Lst l => Some (length l)
  | _ => None
  end.

(** [df.dropna(subset=[c])] *)
Definition dropna (c : string) (df : DataFrame) : result DataFrame :=
  _ ← df_col df c;
  Ok (df_where (λ r, cell_at r c ≠ NaN) df).

(** [df.fillna('')] *)
Definition fillna (df : DataFrame) : DataFrame :=
  {| columns := columns df;
     rows := map (fmap (λ x, match x with NaN => Str [] | _ => x end))
                 (rows df) |}.

(** [df[c] = df[src].apply(f)]: [f] is applied to the elements in row
    order; the column [c] is added last when the frame has no such label. *)
Fixpoint apply_rows (src c : string) (f : cell → result cell) (l : list row)
    : result (list row) :=
  match l with
  | [] => Ok []
  | r :: l' =>
      v ← f (cell_at r src);
      l'' ← apply_rows src c f l';
      Ok (<[c := v]> r :: l'')
  end.

Definition add_label (c : string) (cols : list string) : list string :=
  if decide (c ∈ cols) then cols else cols ++ [c].

Definition assign_apply (c src : string) (f : cell → result cell)
    (df : DataFrame) : result DataFrame :=
  _ ← df_col df src;
  l ← apply_rows src c f (rows df);
  Ok {| columns := add_label c (columns df); rows := l |}.

(** [df.drop(c, axis=1)] *)
Definition df_drop (c : string) (df : DataFrame) : result DataFrame :=
  if decide (c ∈ columns df)
  then Ok {| columns := filter (λ c', c' ≠ c) (columns df);
             rows := map (delete c) (rows df) |}
  else Raise KeyError.

(** ** DataProcessor *)

Module DataProcessor.

Definition features : list string :=
  ["RN_camera"; "RN_maps"; "RN_notificacoes"; "RN_autenticacao";
   "RN_pagamentos"].

(** [lambda x: [p.strip() for p in x.split(';')] if x else []] *)
Definition split_items (x : cell) : result cell :=
  if truthy x then s ← as_str x; Ok (Lst (map strip (split 59 s)))
  else Ok (Lst []).

Section WithUnicode.
Context `{Unicode}.

(** [_clean_data], from the frame in [self.df] to the frame it leaves
    there, or the exception that escapes it. *)
Definition _clean_data (df : DataFrame) : result DataFrame :=
  if df_empty df then Ok df
  else
    df ← dropna "ideia_resumo" df;
    _ ← df_col df "ideia_resumo";
    undefined ← Re.str_contains false (py "Sem ideia|indefinido");
    let df := df_where (λ r, undefined (cell_at r "ideia_resumo") = false) df in
    let df := fillna df in
    df ← assign_apply "apps_semelhantes_lista" "apps_semelhantes"
           split_items df;
    assign_apply "alertas_lista" "Alertas_etico_legais" split_items df.

(** [_load_data]: the frame left in [self.df].  [read_csv] stands for
    [pd.read_csv] on the files of the machine.  The messages shown with
    [st.error] are not modelled. *)
Definition _load_data (read_csv : string → result DataFrame)
    (csv_path : string) : DataFrame :=
  if decide (csv_path = "") then empty_frame
  else match df ← read_csv csv_path; _clean_data df with
       | Ok df => df
       | Raise _ => empty_frame
       end.

End WithUnicode.

Definition get_complexity_distribution (df : DataFrame)
    : result (list (cell * nat)) :=
  col ← df_col df "Complexidade";
  value_counts col.

Definition get_rn_features_usage (df : DataFrame)
    : result (list (string * nat)) :=
  foldM (λ usage feature,
           let feature_name := Label.title (Label.replace "RN_" "" feature) in
           col ← df_col df feature;
           Ok (dict_set usage feature_name (count_is (py "Sim") col)))
        features [].

(** [all.extend(x)] *)
Definition extend (all : list pystr) (x : cell) : result (list pystr) :=
  match x with
  | Lst l => Ok (all ++ l)
  | Str s => Ok (all ++ map (λ c, [c]) s)
  | _ => Raise TypeError
  end.

Definition get_apps_semelhantes_count (df : DataFrame)
    : result (list (pystr * nat)) :=
  col ← df_col df "apps_semelhantes_lista";
  all_apps ← foldM extend col [];
  Ok (take 10 (counts_desc all_apps)).

Definition get_ethical_alerts_count (df : DataFrame)
    : result (list (pystr * nat)) :=
  col ← df_col df "alertas_lista";
  all_alerts ← foldM extend col [];
  if bool_decide (all_alerts = []) then Ok []
  else Ok (counts_desc all_alerts).

(** A row of the frame that [get_complexity_vs_features] builds. *)
Record point : Type := {
  ideia : cell;
  complexidade : cell;
  recursos_necessarios : nat;
  tem_alertas : bool
}.

(** [sum(1 for feature in features if row[feature] == 'Sim')] *)
Definition feature_count (r : row) : result nat :=
  foldM (λ n feature,
           x ← row_get r feature;
           Ok (if decide (cell_is (py "Sim") x) then S n else n))
        features 0%nat.

(** [x[:50] + '...' if len(x) > 50 else x] *)
Definition shorten (x : cell) : result cell :=
  n ← py_len x;
  if decide (50 < n)%nat then
    match x with
    | Str s => Ok (Str (take 50 s ++ py "..."))
    | _ => Raise TypeError
    end
  else Ok x.

(** The body of [for _, row in self.df.iterrows()]: one more dictionary
    in the list [result], here [points]. *)
Definition add_point (points : list point) (r : row) : result (list point) :=
  n ← feature_count r;
  x ← row_get r "ideia_resumo";
  i ← shorten x;
  c ← row_get r "Complexidade";
  a ← row_get r "alertas_lista";
  k ← py_len a;
  Ok (points ++ [{| ideia := i; complexidade := c;
                    recursos_necessarios := n;
                    tem_alertas := bool_decide (0 < k)%nat |}]).

(** The frame is given as the list of its rows; [pd.DataFrame([])] is
    the empty list. *)
Definition get_complexity_vs_features (df : DataFrame) : result (list point) :=
  foldM add_point (rows df) [].

(** [get_dataframe]: a copy. *)
Definition get_dataframe (df : DataFrame) : DataFrame := df.

End DataProcessor.

(** ** FilterManager *)

Module FilterManager.

(** The dictionary that [create_sidebar_filters] returns. *)
Record Filters : Type := {
  complexidade : pystr;
  recursos : list string;
  com_alertas : pystr;
  busca_texto : pystr
}.

(** The dictionary that [get_advanced_filters] returns. *)
Record AdvancedFilters : Type := {
  min_features : Z;
  max_features : Z;
  has_similar_apps : pystr
}.

Definition rn_features : list string :=
  ["RN_camera"; "RN_maps"; "RN_notificacoes"; "RN_autenticacao";
   "RN_pagamentos"].

(** [df[df[c].str.len() > 0]] and [df[df[c].str.len() == 0]] *)
Definition has_len (positive : bool) (x : cell) : Prop :=
  match str_len x with
  | Some n => if positive then (0 < n)%nat else n = 0%nat
  | None => False
  end.

#[global] Instance has_len_dec positive x : Decision (has_len positive x).
Proof. unfold has_len. destruct (str_len x), positive; apply _. Defined.

Definition df_where_len (c : string) (positive : bool) (df : DataFrame)
    : result DataFrame :=
  _ ← df_col df c;
  Ok (df_where (λ r, has_len positive (cell_at r c)) df).

Section WithUnicode.
Context `{Unicode}.

(** [apply_filters], on the frame held in [self.df]. *)
Definition apply_filters (df : DataFrame) (filters : Filters)
    : result DataFrame :=
  let df_filtered := df in
  df_filtered ←
    (if decide (complexidade filters ≠ py "Todos")
     then df_where_eq "Complexidade" (complexidade filters) df_filtered
     else Ok df_filtered);
  df_filtered ←
    (if decide (recursos filters ≠ [])
     then foldM (λ d recurso, df_where_eq recurso (py "Sim") d)
                (recursos filters) df_filtered
     else Ok df_filtered);
  df_filtered ←
    (if decide (com_alertas filters = py "Apenas com alertas")
     then df_where_len "Alertas_etico_legais" true df_filtered
     else if decide (com_alertas filters = py "Apenas sem alertas")
     then df_where_len "Alertas_etico_legais" false df_filtered
     else Ok df_filtered);
  if decide (busca_texto filters ≠ [])
  then
    _ ← df_col df_filtered "ideia_resumo";
    found ← Re.str_contains true (busca_texto filters);
    Ok (df_where (λ r, found (cell_at r "ideia_resumo") = true) df_filtered)
  else Ok df_filtered.

End WithUnicode.

(** [lambda row: sum(1 for x in row if x == 'Sim')] on the columns
    [rn_features] of a row. *)
Definition num_features (r : row) : Z :=
  Z.of_nat (length (filter (λ c, cell_is (py "Sim") (cell_at r c))
                           rn_features)).

(** [min <= x] and [x <= max] on the computed column. *)
Definition in_range (lo hi : Z) (x : cell) : Prop :=
  match x with
  | Int n => (lo ≤ n)%Z ∧ (n ≤ hi)%Z
  | _ => False
  end.

#[global] Instance in_range_dec lo hi x : Decision (in_range lo hi x).
Proof. unfold in_range. destruct x; apply _. Defined.

Definition apply_advanced_filters (df : DataFrame)
    (advanced_filters : AdvancedFilters) : result DataFrame :=
  let df_filtered := df in
  _ ← foldM (λ _ c, _ ← df_col df_filtered c; Ok ()) rn_features ();
  let df_filtered :=
    {| columns := add_label "num_features" (columns df_filtered);
       rows := map (λ r, <["num_features" := Int (num_features r)]> r)
                   (rows df_filtered) |} in
  let df_filtered :=
    df_where (λ r, in_range (min_features advanced_filters)
                            (max_features advanced_filters)
                            (cell_at r "num_features")) df_filtered in
  df_filtered ←
    (if decide (has_similar_apps advanced_filters = py "Com apps semelhantes")
     then df_where_len "apps_semelhantes" true df_filtered
     else if decide (has_similar_apps advanced_filters
                     = py "Sem apps semelhantes")
     then df_where_len "apps_semelhantes" false df_filtered
     else Ok df_filtered);
  df_drop "num_features" df_filtered.

(** *** The filters as one test of a row *)

(** The labels that [apply_filters] looks up. *)
Definition columns_ok (f : Filters) (cols : list string) : Prop :=
  (complexidade f ≠ py "Todos" → "Complexidade" ∈ cols)
  ∧ Forall (λ c, c ∈ cols) (recursos f)
  ∧ (com_alertas f = py "Apenas com alertas"
     ∨ com_alertas f = py "Apenas sem alertas" →
     "Alertas_etico_legais" ∈ cols)
  ∧ (busca_texto f ≠ [] → "ideia_resumo" ∈ cols).

#[global] Instance columns_ok_dec f cols : Decision (columns_ok f cols).
Proof. unfold columns_ok. apply _. Defined.

(** The rows that the four steps of [apply_filters] keep; [found] is the
    test of the text search. *)
Definition keeps (f : Filters) (found : cell → bool) (r : row) : Prop :=
  (complexidade f ≠ py "Todos" →
   cell_is (complexidade f) (cell_at r "Complexidade"))
  ∧ Forall (λ c, cell_is (py "Sim") (cell_at r c)) (recursos f)
  ∧ (com_alertas f = py "Apenas com alertas" →
     has_len true (cell_at r "Alertas_etico_legais"))
  ∧ (com_alertas f ≠ py "Apenas com alertas" →
     com_alertas f = py "Apenas sem alertas" →
     has_len false (cell_at r "Alertas_etico_legais"))
  ∧ (busca_texto f ≠ [] → found (cell_at r "ideia_resumo") = true).

#[global] Instance keeps_dec f found r : Decision (keeps f found r).
Proof. unfold keeps. apply _. Defined.

Section SearchTest.
Context `{Unicode}.

(** The test of the text search, compiled when there is a text. *)
Definition search_test (f : Filters) : result (cell → bool) :=
  if decide (busca_texto f ≠ []) then Re.str_contains true (busca_texto f)
  else Ok (λ _, true).

End SearchTest.

End FilterManager.

(** ** What the claims say, in their own words *)

Module Spec.

(** The element is a text. *)
Definition is_text (o : option cell) : Prop :=
  match o with
  | Some (Str _) => True
  | _ => False
  end.

#[global] Instance is_text_dec o : Decision (is_text o).
Proof. destruct o as [[| | |]|]; simpl; apply _. Defined.

(** [w] is a substring of [s]. *)
Definition substring (w s : pystr) : Prop := ∃ pre post, s = pre ++ w ++ post.

(** A frame as [pd.read_csv] gives it: without columns it has no rows,
    and an element of the summary column is a missing value or a text that
    is not empty (an empty field is read as a missing value). *)
Definition csv_text (o : option cell) : Prop :=
  match o with
  | None | Some NaN => True
  | Some (Str s) => s ≠ []
  | Some _ => False
  end.

Definition csv_frame (df : DataFrame) : Prop :=
  (columns df = [] → rows df = [])
  ∧ Forall (λ r, csv_text (r !! "ideia_resumo")) (rows df).

#[global] Instance csv_text_dec o : Decision (csv_text o).
Proof. destruct o as [[| | |]|]; simpl; apply _. Defined.

#[global] Instance csv_frame_dec df : Decision (csv_frame df).
Proof. unfold csv_frame. apply _. Defined.

(** The summary of the row is present, is not empty and contains neither
    sentinel. *)
Definition good_summary (r : row) : Prop :=
  ∃ s, r !! "ideia_resumo" = Some (Str s) ∧ s ≠ []
       ∧ ¬ substring (py "Sem ideia") s ∧ ¬ substring (py "indefinido") s.

(** *** Views *)

Definition text_columns : list string :=
  ["ideia_resumo"; "apps_semelhantes"; "RN_camera"; "RN_maps";
   "RN_notificacoes"; "RN_autenticacao"; "RN_pagamentos"; "Complexidade";
   "Alertas_etico_legais"].

Definition view_columns : list string :=
  text_columns ++ ["apps_semelhantes_lista"; "alertas_lista"].

(** The sequence derived from a raw text: its pieces between the [;],
    trimmed; no piece for the empty text. *)
Definition items (raw : pystr) : list pystr :=
  if decide (raw = []) then [] else map strip (split 59 raw).

Definition derived (raw lst : option cell) : Prop :=
  match raw, lst with
  | Some (Str s), Some (Lst l) => l = items s
  | _, _ => False
  end.

#[global] Instance derived_dec raw lst : Decision (derived raw lst).
Proof. destruct raw as [[| | |]|], lst as [[| | |]|]; simpl; apply _. Defined.

(** A record of the normalized schema: the columns of the file hold text,
    the two sequences are derived from their raw texts, and there is no
    feature count. *)
Definition normalized_row (r : row) : Prop :=
  Forall (λ c, is_text (r !! c)) text_columns
  ∧ derived (r !! "apps_semelhantes") (r !! "apps_semelhantes_lista")
  ∧ derived (r !! "Alertas_etico_legais") (r !! "alertas_lista")
  ∧ r !! "num_features" = None.

(** A view: a frame with the normalized schema. *)
Definition normalized_view (df : DataFrame) : Prop :=
  Forall (λ c, c ∈ columns df) view_columns
  ∧ ("num_features" ∉ columns df)
  ∧ Forall normalized_row (rows df).

#[global] Instance normalized_row_dec r : Decision (normalized_row r).
Proof. unfold normalized_row. apply _. Defined.

#[global] Instance normalized_view_dec df : Decision (normalized_view df).
Proof. unfold normalized_view. apply _. Defined.

(** The derived sequences of a record. *)
Definition alerts (r : row) : list pystr :=
  match r !! "alertas_lista" with
  | Some (Lst l) => l
  | _ => []
  end.

Definition similar_apps (r : row) : list pystr :=
  match r !! "apps_semelhantes_lista" with
  | Some (Lst l) => l
  | _ => []
  end.

(** The feature flag [c] of the record is affirmative. *)
Definition affirmative (r : row) (c : string) : Prop :=
  r !! c = Some (Str (py "Sim")).

#[global] Instance affirmative_dec r c : Decision (affirmative r c).
Proof. unfold affirmative. apply _. Defined.

(** The number of affirmative feature flags of a record. *)
Definition feature_count (r : row) : nat :=
  length (filter (affirmative r)
            ["RN_camera"; "RN_maps"; "RN_notificacoes"; "RN_autenticacao";
             "RN_pagamentos"]).

(** *** The aggregation queries *)

(** The label of a feature and the name under which its use is counted. *)
Definition feature_names : list (string * string) :=
  [("Camera", "RN_camera"); ("Maps", "RN_maps");
   ("Notificacoes", "RN_notificacoes"); ("Autenticacao", "RN_autenticacao");
   ("Pagamentos", "RN_pagamentos")].

(** The number of records of the view with the feature affirmative. *)
Definition feature_use (df : DataFrame) (c : string) : nat :=
  length (filter (λ r, affirmative r c) (rows df)).

(** The point of a record in the comparison of complexity and features:
    its summary cut to 50 characters and an ellipsis when it is longer,
    its complexity, its feature count, whether it has alerts. *)
Definition point_of (r : row) : DataProcessor.point := {|
  DataProcessor.ideia :=
    match r !! "ideia_resumo" with
    | Some (Str s) =>
        Str (if decide (50 < length s)%nat then take 50 s ++ py "..." else s)
    | _ => NaN
    end;
  DataProcessor.complexidade := cell_at r "Complexidade";
  DataProcessor.recursos_necessarios := feature_count r;
  DataProcessor.tem_alertas := bool_decide (0 < length (alerts r))%nat
|}.

(** *** The criteria of the primary filters *)

Section Criteria.
Context `{Unicode}.
Import FilterManager.





End Criteria.

(** *** The criteria of the advanced filters *)

(** The count of affirmative feature flags lies in the closed range. *)
Definition meets_feature_range (A : FilterManager.AdvancedFilters)
    (r : row) : Prop :=
  (FilterManager.min_features A ≤ Z.of_nat (feature_count r))%Z
  ∧ (Z.of_nat (feature_count r) ≤ FilterManager.max_features A)%Z.

Definition meets_similar (A : FilterManager.AdvancedFilters) (r : row) : Prop :=
  (FilterManager.has_similar_apps A = py "Com apps semelhantes" →
   (0 < length (similar_apps r))%nat)
  ∧ (FilterManager.has_similar_apps A = py "Sem apps semelhantes" →
     similar_apps r = []).

#[global] Instance meets_feature_range_dec A r
  : Decision (meets_feature_range A r).
Proof. unfold meets_feature_range. apply _. Defined.

#[global] Instance meets_similar_dec A r : Decision (meets_similar A r).
Proof. unfold meets_similar. apply _. Defined.

(** The criteria that specify nothing. *)
Definition no_filter : FilterManager.Filters := {|
  FilterManager.complexidade := py "Todos";
  FilterManager.recursos := [];
  FilterManager.com_alertas := py "Todos";
  FilterManager.busca_texto := []
|}.

(** Only the alert presence is specified. *)
Definition alert_filter (choice : pystr) : FilterManager.Filters := {|
  FilterManager.complexidade := py "Todos";
  FilterManager.recursos := [];
  FilterManager.com_alertas := choice;
  FilterManager.busca_texto := []
|}.

(** Only the search text is specified. *)
Definition search_filter (text : pystr) : FilterManager.Filters := {|
  FilterManager.complexidade := py "Todos";
  FilterManager.recursos := [];
  FilterManager.com_alertas := py "Todos";
  FilterManager.busca_texto := text
|}.

(** The summaries of a view, in row order. *)
Definition summaries (df : DataFrame) : list pystr :=
  omap (λ r, match r !! "ideia_resumo" with
             | Some (Str s) => Some s
             | _ => None
             end) (rows df).

(** The ten category labels, in the order of the dictionary. *)
Definition category_names : list pystr := map fst Categories.categories.

(** The dictionary whose bucket for the label [c] is [f c]. *)
Definition buckets (f : pystr → list pystr) : list (pystr * list pystr) :=
  map (λ c, (c, f c)) category_names.

Section WithUnicode.
Context `{Unicode}.

(** A keyword of the list occurs in the lower-cased summary. *)
Definition has_keyword (s : pystr) (keywords : list pystr) : Prop :=
  ∃ w, w ∈ keywords ∧ substring w (str_lower s).

(** [c] is the first category, in the order of the keyword table, one of
    whose keywords occurs in the lower-cased summary; Utilities when there
    is none. *)
Definition first_match (s c : pystr) : Prop :=
  (∃ i kws, Categories.category_keywords !! i = Some (c, kws)
     ∧ has_keyword s kws
     ∧ ∀ j c' kws', (j < i)%nat →
         Categories.category_keywords !! j = Some (c', kws') →
         ¬ has_keyword s kws')
  ∨ (c = py "Utilitários"
     ∧ ∀ c' kws', (c', kws') ∈ Categories.category_keywords →
         ¬ has_keyword s kws').

(** [w] occurs in [s] when case is ignored. *)
Definition icontains (w s : pystr) : Prop :=
  ∃ pre m post, s = pre ++ m ++ post
                ∧ Forall2 (λ c x, char_ieq c x = true) w m.

(** The same as a function. *)
Definition category_of (s : pystr) : pystr :=
  match List.find (λ ck, existsb (λ w, str_in w (str_lower s)) ck.2)
          Categories.category_keywords with
  | Some ck => ck.1
  | None => py "Utilitários"
  end.

End WithUnicode.
End Spec.

(** ** Sample data *)

Module Examples.

Definition csv_columns : list string :=
  ["id"; "ideia_resumo"; "apps_semelhantes"; "RN_camera"; "RN_maps";
   "RN_notificacoes"; "RN_autenticacao"; "RN_pagamentos"; "Complexidade";
   "Alertas_etico_legais"].

(** A text field as [read_csv] reads it: an empty field is missing. *)
Definition field (s : string) : cell :=
  if decide (s = "") then NaN else Str (py s).

Definition record (id : Z) (resumo apps camera maps notificacoes
    autenticacao pagamentos complexidade alertas : string) : row :=
  list_to_map [
    ("id", Int id); ("ideia_resumo", field resumo);
    ("apps_semelhantes", field apps); ("RN_camera", field camera);
    ("RN_maps", field maps); ("RN_notificacoes", field notificacoes);
    ("RN_autenticacao", field autenticacao);
    ("RN_pagamentos", field pagamentos);
    ("Complexidade", field complexidade);
    ("Alertas_etico_legais", field alertas)
  ].

Definition csv (l : list row) : DataFrame :=
  {| columns := csv_columns; rows := l |}.

(** A survey file: ideas, two placeholders and a blank line. *)
Definition survey_csv : DataFrame := csv [
  record 1 "quero um app de caronas para facilitar transporte" "Uber; 99"
         "Não" "Sim" "Sim" "Sim" "Sim" "Alta"
         "Coleta de localização; LGPD (dados pessoais/sensíveis)";
  record 2 "Rede social para Estudo em grupo" "" "Sim" "Não" "Sim" "Sim"
         "Não" "Média" "LGPD (dados pessoais/sensíveis)";
  record 3 "Sem ideia" "" "Não" "Não" "Não" "Não" "Não" "Baixa" "";
  record 4 "Lanterna simples" "" "Não" "Não" "Não" "Não" "Não" "Baixa" "";
  record 5 "projeto indefinido por enquanto" "" "Não" "Não" "Não" "Não"
         "Não" "" "";
  record 6 "" "Uber" "Sim" "Sim" "Sim" "Sim" "Sim" "Alta" "";
  record 7 "Jogo de ritmo com fases" "Guitar Hero;Just Dance" "Sim" "Não"
         "Sim" "Não" "Sim" "Média-Alta" ""
].

(** The file of scenario 1: one record, without an idea. *)
Definition sem_ideia_csv : DataFrame := csv [
  record 1 "Sem ideia" "" "Não" "Não" "Não" "Não" "Não" "Baixa" ""
].

(** Scenario 3: two records, the first with an alert. *)
Definition alerts_csv : DataFrame := csv [
  record 1 "Diário de humor" "" "Não" "Não" "Sim" "Sim" "Não" "Média"
         "LGPD (dados pessoais/sensíveis)";
  record 2 "Lista de compras" "" "Não" "Não" "Não" "Não" "Não" "Baixa" ""
].

(** Scenario 5: six records that need 0 to 5 features. *)
Definition counts_csv : DataFrame := csv [
  record 0 "ideia zero" "" "Não" "Não" "Não" "Não" "Não" "Baixa" "";
  record 1 "ideia um" "" "Sim" "Não" "Não" "Não" "Não" "Baixa" "";
  record 2 "ideia dois" "" "Sim" "Sim" "Não" "Não" "Não" "Média" "";
  record 3 "ideia três" "" "Sim" "Sim" "Sim" "Não" "Não" "Média" "";
  record 4 "ideia quatro" "" "Sim" "Sim" "Sim" "Sim" "Não" "Alta" "";
  record 5 "ideia cinco" "" "Sim" "Sim" "Sim" "Sim" "Sim" "Alta" ""
].

(** The files of the machine. *)
Definition disk (path : string) : result DataFrame :=
  if decide (path = "ideias_apps_viabilidade.csv") then Ok survey_csv
  else if decide (path = "sem_ideia.csv") then Ok sem_ideia_csv
  else if decide (path = "alertas.csv") then Ok alerts_csv
  else if decide (path = "recursos.csv") then Ok counts_csv
  else Raise FileNotFoundError.

Definition load (path : string) : DataFrame :=
  @DataProcessor._load_data latin1 disk path.

Definition survey : DataFrame :=
  Eval vm_compute in load "ideias_apps_viabilidade.csv".
Definition alerts_view : DataFrame := Eval vm_compute in load "alertas.csv".
Definition counts_view : DataFrame := Eval vm_compute in load "recursos.csv".

(** Ideas that need notifications and authentication, with alerts, and
    whose summary names an app or a network. *)
Definition demo_filters : FilterManager.Filters := {|
  FilterManager.complexidade := py "Todos";
  FilterManager.recursos := ["RN_notificacoes"; "RN_autenticacao"];
  FilterManager.com_alertas := py "Apenas com alertas";
  FilterManager.busca_texto := py "APP|rede"
|}.

(** The result of [apply_filters], or the exception, on sample data. *)
Definition filtered (view : DataFrame) (P : FilterManager.Filters)
    : result DataFrame :=
  @FilterManager.apply_filters latin1 view P.

(** The range of scenario 5. *)
Definition two_to_three : FilterManager.AdvancedFilters := {|
  FilterManager.min_features := 2;
  FilterManager.max_features := 3;
  FilterManager.has_similar_apps := py "Todos"
|}.

(** The advanced filters as the sliders start: the full range, and every
    record whatever its similar apps. *)
Definition full_range : FilterManager.AdvancedFilters := {|
  FilterManager.min_features := 0;
  FilterManager.max_features := 5;
  FilterManager.has_similar_apps := py "Todos"
|}.

(** The [id] of each row. *)
Definition ids (df : DataFrame) : list cell :=
  map (λ r, cell_at r "id") (rows df).

End Examples.

(** ** What loading does to the records of a file *)

Module Loaded.

(** The value that [fillna('')] leaves in place of a value. *)
Definition filled (x : cell) : cell :=
  match x with
  | NaN => Str []
  | _ => x
  end.

(** An element of a text column as [read_csv] gives it: a missing value
    or a text. *)
Definition csv_cell (o : option cell) : Prop :=
  match o with
  | Some NaN | Some (Str _) => True
  | _ => False
  end.

#[global] Instance csv_cell_dec o : Decision (csv_cell o).
Proof. destruct o as [[| | |]|]; simpl; apply _. Defined.

(** A row of a file with the columns of the survey. *)
Definition survey_row (r : row) : Prop :=
  Forall (λ c, csv_cell (r !! c)) Spec.text_columns
  ∧ r !! "num_features" = None.

(** A frame read from a file with the columns of the survey. *)
Definition survey_frame (df : DataFrame) : Prop :=
  Forall (λ c, c ∈ columns df) Spec.text_columns
  ∧ ("num_features" ∉ columns df)
  ∧ Forall survey_row (rows df).

#[global] Instance survey_row_dec r : Decision (survey_row r).
Proof. unfold survey_row. apply _. Defined.

#[global] Instance survey_frame_dec df : Decision (survey_frame df).
Proof. unfold survey_frame. apply _. Defined.


(** A code point that [strip] removes is neither first nor last. *)
Definition trimmed (s : pystr) : Prop :=
  (∀ c, head s = Some c → isspace c = false)
  ∧ (∀ c, last s = Some c → isspace c = false).

(** The record of the file can be used: it has a summary, without the
    sentinels 'Sem ideia' and 'indefinido'. *)
Definition usable (r : row) : Prop :=
  match r !! "ideia_resumo" with
  | Some (Str s) =>
      str_in (py "Sem ideia") s = false ∧ str_in (py "indefinido") s = false
  | _ => False
  end.

#[global] Instance usable_dec r : Decision (usable r).
Proof.
  unfold usable. destruct (r !! "ideia_resumo") as [[| | |]|]; apply _.
Defined.


End Loaded.

(** ** The choices of the sidebar, one at a time *)

Module Choice.


(** The labels that [apply_advanced_filters] looks up. *)
Definition needs (A : FilterManager.AdvancedFilters) (cols : list string)
    : Prop :=
  Forall (λ c, c ∈ cols) FilterManager.rn_features
  ∧ (FilterManager.has_similar_apps A = py "Com apps semelhantes"
     ∨ FilterManager.has_similar_apps A = py "Sem apps semelhantes" →
     "apps_semelhantes" ∈ cols).

#[global] Instance needs_dec A cols : Decision (needs A cols).
Proof. unfold needs. apply _. Defined.

(** The rows that [apply_advanced_filters] keeps, told on the cells of
    the row. *)
Definition passes (A : FilterManager.AdvancedFilters) (r : row) : Prop :=
  FilterManager.in_range (FilterManager.min_features A)
    (FilterManager.max_features A) (Int (FilterManager.num_features r))
  ∧ (FilterManager.has_similar_apps A = py "Com apps semelhantes" →
     FilterManager.has_len true (cell_at r "apps_semelhantes"))
  ∧ (FilterManager.has_similar_apps A = py "Sem apps semelhantes" →
     FilterManager.has_len false (cell_at r "apps_semelhantes")).

#[global] Instance passes_dec A r : Decision (passes A r).
Proof. unfold passes. apply _. Defined.

End Choice.

(** ** FilterManager.create_sidebar_filters *)

Module Sidebar.

(** What the user does with the widgets of Streamlit, by the label of the
    widget: [selectbox label options] is the option selected,
    [checkbox label] tells whether the box is ticked, [text_input label]
    is the text typed. *)
Record Widgets : Type := {
  selectbox : pystr → list pystr → pystr;
  checkbox : pystr → bool;
  text_input : pystr → pystr
}.

(** A select box gives one of its options. *)
Definition picks (ui : Widgets) : Prop :=
  ∀ label options, options ≠ [] → selectbox ui label options ∈ options.

(** [col.unique()]: the values in the order of their first occurrence;
    a list cannot be hashed. *)
Definition unique (col : list cell) : result (list cell) :=
  if existsb is_list col then Raise TypeError
  else Ok (foldl (λ seen x, if decide (x ∈ seen) then seen else seen ++ [x])
                 [] col).

(** [a <= b] on strings: the order of the code points, a prefix first. *)
Fixpoint str_leb (a b : pystr) : bool :=
  match a, b with
  | [], _ => true
  | _ :: _, [] => false
  | x :: a', y :: b' =>
      if x <? y then true else if x =? y then str_leb a' b' else false
  end.

Definition str_le (a b : pystr) : Prop := str_leb a b = true.

#[global] Instance str_le_dec a b : Decision (str_le a b).
Proof. unfold str_le. apply _. Defined.

(** [sorted(l)] for a list of strings.  A list that holds a value that is
    not a string is outside the model. *)
Definition sorted (l : list cell) : result (list pystr) :=
  match mapM (λ x, match x with Str s => Some s | _ => None end) l with
  | Some ss => Ok (merge_sort str_le ss)
  | None => Raise NotModelled
  end.

(** [d[k]] *)
Definition dict_get {K V : Type} `{EqDecision K} (d : list (K * V)) (k : K)
    : result V :=
  match list_find (λ kv, kv.1 = k) d with
  | Some (_, kv) => Ok kv.2
  | None => Raise KeyError
  end.

Definition rn_features : list string :=
  ["RN_camera"; "RN_maps"; "RN_notificacoes"; "RN_autenticacao";
   "RN_pagamentos"].

Definition feature_names : list (string * pystr) :=
  [("RN_camera", py "📷 Câmera");
   ("RN_maps", py "🗺️ Mapas");
   ("RN_notificacoes", py "🔔 Notificações");
   ("RN_autenticacao", py "🔐 Autenticação");
   ("RN_pagamentos", py "💳 Pagamentos")].

(** [feature_names[feature]] *)
Definition label_of (feature : string) : result pystr :=
  dict_get feature_names feature.

(** The box of the feature is ticked. *)
Definition ticked (ui : Widgets) (feature : string) : Prop :=
  match label_of feature with
  | Ok label => checkbox ui label = true
  | Raise _ => False
  end.

#[global] Instance ticked_dec ui feature : Decision (ticked ui feature).
Proof.
  unfold ticked. destruct (label_of feature); apply _.
Defined.

(** The body of [for feature in rn_features]. *)
Definition tick (ui : Widgets) (recursos : list string) (feature : string)
    : result (list string) :=
  label ← label_of feature;
  Ok (if checkbox ui label then recursos ++ [feature] else recursos).

(** [create_sidebar_filters], on the frame held in [self.df]; the headers
    and the help texts are not modelled. *)
Definition create_sidebar_filters (ui : Widgets) (df : DataFrame)
    : result FilterManager.Filters :=
  col ← df_col df "Complexidade";
  levels ← unique col;
  levels ← sorted levels;
  let complexity_options := py "Todos" :: levels in
  let complexidade :=
    selectbox ui (py "Nível de Complexidade:") complexity_options in
  recursos ← foldM (tick ui) rn_features [];
  let com_alertas :=
    selectbox ui (py "Alertas Éticos/Legais:")
      [py "Todos"; py "Apenas com alertas"; py "Apenas sem alertas"] in
  let busca_texto := text_input ui (py "🔍 Buscar por palavra-chave:") in
  Ok {| FilterManager.complexidade := complexidade;
        FilterManager.recursos := recursos;
        FilterManager.com_alertas := com_alertas;
        FilterManager.busca_texto := busca_texto |}.

(** The user who leaves every widget as it comes up: the first option of
    a select box, no box ticked, no text. *)
Definition untouched : Widgets := {|
  selectbox := λ _ options, default [] (head options);
  checkbox := λ _, false;
  text_input := λ _, []
|}.

(** The user who selects the last complexity level and ticks the box of
    the camera. *)
Definition last_level_camera : Widgets := {|
  selectbox := λ label options,
    if decide (label = py "Nível de Complexidade:")
    then default [] (last options) else default [] (head options);
  checkbox := λ label, bool_decide (label = py "📷 Câmera");
  text_input := λ _, []
|}.

(** The filters that this user gets on the survey. *)
Definition survey_choice : FilterManager.Filters :=
  Eval vm_compute in
    match create_sidebar_filters last_level_camera Examples.survey with
    | Ok F => F
    | Raise _ => Spec.no_filter
    end.

End Sidebar.

(** ** Counting *)

Module Counts.

(** How often [x] occurs in [l]. *)
Definition occurrences {A : Type} `{EqDecision A} (x : A) (l : list A) : nat :=
  length (filter (λ y, y = x) l).

(** The count that a table holds for [x]: that of the first entry with
    key [x], 0 without one. *)
Fixpoint held {A : Type} `{EqDecision A} (t : list (A * nat)) (x : A) : nat :=
  match t with
  | [] => 0%nat
  | (y, n) :: t' => if decide (y = x) then n else held t' x
  end.

(** The sum of the counts of a table. *)
Definition total {A : Type} (t : list (A * nat)) : nat := sum_list (t.*2).

End Counts.

(** ** AppVisualizationManager: the data of the figures

    What Plotly draws is not modelled; a figure is the data that the
    function hands to Plotly, or the annotation it shows instead. *)

Module Viz.

Inductive figure (A : Type) : Type :=
  | Annotation (text : pystr)
  | Chart (data : A).
Arguments Annotation {A} text.
Arguments Chart {A} data.

(** [AccessibleColors.CHART_COLORS] *)
Definition CHART_COLORS : list string :=
  ["#0B3D91"; "#004B50"; "#7A003C"; "#4B0082"; "#2F4F4F"; "#006400";
   "#800000"; "#2E8B57"; "#8B4513"; "#1B4D3E"].

(** The four lists of [create_categories_treemap]. *)
Record tiles : Type := {
  labels : list pystr;
  parents : list pystr;
  values : list nat;
  colors : list string
}.

(** [l[n % len(l)]]; [None] stands for the [ZeroDivisionError] of [%] and
    the [IndexError] of the subscript. *)
Definition cycle {A : Type} (l : list A) (n : nat) : option A :=
  if decide (length l = 0%nat) then None else l !! (n mod length l)%nat.

(** The body of [for category, apps in categories_data.items()]. *)
Definition add_tile (t : tiles) (item : pystr * list pystr) : option tiles :=
  if decide (item.2 ≠ []) then
    let labels' := labels t ++ [item.1] in
    color ← cycle CHART_COLORS (length labels');
    Some {| labels := labels';
            parents := parents t ++ [[]];
            values := values t ++ [length item.2];
            colors := colors t ++ [color] |}
  else Some t.

(** [create_categories_treemap]: the lists given to [go.Treemap]. *)
Definition create_categories_treemap (categories_data : list (pystr * list pystr))
    : option (figure tiles) :=
  t ← foldl (λ acc item, t ← acc; add_tile t item)
        (Some {| labels := []; parents := []; values := []; colors := [] |})
        categories_data;
  if decide (labels t = [])
  then Some (Annotation (py "Nenhuma categoria com dados disponível"))
  else Some (Chart {| labels := labels t;
                      parents := parents t;
                      values := values t;
                      colors := take (length (labels t)) (colors t) |}).

(** [sorted(l, key=key, reverse=True)]: the larger keys first, and the
    items of equal key in the order they had (the sort is stable). *)
Fixpoint insert_desc {A : Type} (key : A → nat) (x : A) (l : list A)
    : list A :=
  match l with
  | [] => [x]
  | y :: l' =>
      if decide (key x < key y)%nat then y :: insert_desc key x l'
      else x :: l
  end.

Definition sorted_desc {A : Type} (key : A → nat) (l : list A) : list A :=
  foldr (insert_desc key) [] l.

(** [range(0, n, step)] for a positive step. *)
Definition range_step (n step : nat) : list nat :=
  (λ k, k * step)%nat <$> seq 0 ((n + step - 1) / step)%nat.

(** [((cat, len(items)) for cat, items in categories.items() if items)] *)
Definition sizes (categories : list (pystr * list pystr))
    : list (pystr * nat) :=
  omap (λ item, if decide (item.2 ≠ []) then Some (item.1, length item.2)
                else None) categories.

Section WithUnicode.
Context `{Unicode}.

(** [display_category_summary_cards]: the rows of metric cards, each card
    a category and its count, or the message shown instead. *)
Definition display_category_summary_cards (df : DataFrame)
    : result (figure (list (list (pystr * nat)))) :=
  categories ← Categories.get_categories_analysis df;
  let sorted_items := sorted_desc snd (sizes categories) in
  if decide (sorted_items = [])
  then Ok (Annotation (py "Sem categorias identificadas nos dados atuais."))
  else
    let top := take 6 sorted_items in
    let rows := (λ i, take 3 (drop i top)) <$> range_step (length top) 3 in
    Ok (Chart rows).

End WithUnicode.

(** *** display_metrics_cards *)

Definition resource_cols : list string :=
  ["RN_camera"; "RN_maps"; "RN_notificacoes"; "RN_autenticacao";
   "RN_pagamentos"].

(** [lambda row: sum(1 for x in row if x == 'Sim')] on the columns
    [resource_cols] of a row. *)
Definition count_sim (r : row) : nat :=
  length (filter (λ c, cell_is (py "Sim") (cell_at r c)) resource_cols).

(** [df[cols]] raises [KeyError] when a label is not a column. *)
Definition check_columns (df : DataFrame) (cols : list string) : result () :=
  foldM (λ _ c, _ ← df_col df c; Ok ()) cols ().

(** [lambda x: len(x) > 0 if x else False] *)
Definition has_alert (x : cell) : result bool :=
  if truthy x then n ← py_len x; Ok (bool_decide (0 < n)%nat) else Ok false.

(** [col.isin(values)] of one element, for a list of strings. *)
Definition isin (values : list pystr) (x : cell) : Prop :=
  match x with
  | Str s => s ∈ values
  | _ => False
  end.

#[global] Instance isin_dec values x : Decision (isin values x).
Proof. unfold isin. destruct x; apply _. Defined.

(** The mean of a Series of numbers, kept as their sum and their number:
    pandas divides the two in floating point and gives NaN for a Series
    without elements.  The formatting of the number is not modelled. *)
Record mean : Type := { total : nat; size : nat }.

(** The values of the four cards. *)
Record metrics : Type := {
  total_ideas : nat;
  avg_features : mean;
  high_complexity : nat;
  ethical_alerts : nat
}.

Definition display_metrics_cards (df : DataFrame) : result metrics :=
  let df := DataProcessor.get_dataframe df in
  let total_ideas := length (rows df) in
  _ ← check_columns df resource_cols;
  let counts := map count_sim (rows df) in
  let avg_features := {| total := sum_list counts; size := length counts |} in
  col ← df_col df "Complexidade";
  let high_complexity :=
    length (filter (isin [py "Alta"; py "Média-Alta"]) col) in
  col ← df_col df "Alertas_etico_legais";
  flags ← foldM (λ flags x, b ← has_alert x; Ok (flags ++ [b])) col [];
  let ethical_alerts := length (filter (λ b, b = true) flags) in
  Ok {| total_ideas := total_ideas;
        avg_features := avg_features;
        high_complexity := high_complexity;
        ethical_alerts := ethical_alerts |}.


End Viz.

(** * Properties *)

(** Membership in a list that is written out. *)
Ltac in_list :=
  unfold Spec.view_columns, Spec.text_columns, DataProcessor.features,
    FilterManager.rn_features;
  cbn [app];
  solve [repeat first [apply list_elem_of_here | apply list_elem_of_further]].

(** The same for each element that the hypothesis [H] lists. *)
Ltac in_list_from H :=
  unfold Spec.view_columns, Spec.text_columns, DataProcessor.features,
    FilterManager.rn_features in H;
  repeat (apply elem_of_cons in H as [->|H]; [in_list|]);
  by apply elem_of_nil in H.

(** ** Strings *)

Lemma startswith_spec (s w : pystr) :
  startswith s w = true ↔ ∃ post, s = w ++ post.
Proof.
  revert s. induction w as [|a w IH]; intros s; simpl.
  - split; [intros _; by exists s | done].
  - destruct s as [|b s]; simpl.
    + split; [done | intros [post Hp]; discriminate].
    + rewrite andb_true_iff, IH, N.eqb_eq. split.
      * intros [-> [post ->]]. by exists post.
      * intros [post Hp]. injection Hp as -> ->. eauto.
Qed.

Lemma str_in_spec (w s : pystr) : str_in w s = true ↔ Spec.substring w s.
Proof.
  unfold Spec.substring. induction s as [|b s IH]; simpl.
  - rewrite orb_false_r, startswith_spec. split.
    + intros [post Hp]. by exists [], post.
    + intros (pre & post & Hp). destruct pre; [by exists post|discriminate].
  - rewrite orb_true_iff, startswith_spec, IH. split.
    + intros [[post Hp] | (pre & post & Hp)].
      * by exists [], post.
      * exists (b :: pre), post. by rewrite Hp.
    + intros (pre & post & Hp). destruct pre as [|b' pre]; simpl in Hp.
      * left. by exists post.
      * right. injection Hp as -> ->. by exists pre, post.
Qed.

(** ** Lists, loops and dictionaries *)

Lemma find_Some_first {A} (p : A → bool) (l : list A) (x : A) :
  List.find p l = Some x ↔
  ∃ i, l !! i = Some x ∧ p x = true
       ∧ ∀ j y, (j < i)%nat → l !! j = Some y → p y = false.
Proof.
  induction l as [|a l IH]; simpl.
  - split; [done | by intros (i & Hi & _)].
  - destruct (p a) eqn:Hpa.
    + split.
      * intros [= ->]. exists 0%nat. split_and!; [done | done |]. intros; lia.
      * intros ([|i] & Hi & Hx & Hlt).
        -- by injection Hi as ->.
        -- specialize (Hlt 0%nat a). simpl in Hlt.
           rewrite Hlt in Hpa; [done | lia | done].
    + rewrite IH. split.
      * intros (i & Hi & Hx & Hlt). exists (S i). split_and!; [done | done |].
        intros [|j] y Hj Hy; simpl in Hy.
        -- by injection Hy as <-.
        -- apply (Hlt j); [lia | done].
      * intros ([|i] & Hi & Hx & Hlt); simpl in Hi.
        -- injection Hi as ->. congruence.
        -- exists i. split_and!; [done | done |].
           intros j y Hj Hy. apply (Hlt (S j)); [lia | done].
Qed.

Lemma find_None_all {A} (p : A → bool) (l : list A) :
  List.find p l = None ↔ ∀ x, x ∈ l → p x = false.
Proof.
  induction l as [|a l IH]; simpl.
  - split; [intros _ x Hx; by apply not_elem_of_nil in Hx | done].
  - destruct (p a) eqn:Hpa.
    + split; [done |]. intros Hall.
      rewrite Hall in Hpa; [done | apply list_elem_of_here].
    + rewrite IH. split.
      * intros Hall x [-> | Hx]%elem_of_cons; auto.
      * intros Hall x Hx. apply Hall. by apply list_elem_of_further.
Qed.

Lemma existsb_elem_of {A} (p : A → bool) (l : list A) :
  existsb p l = true ↔ ∃ x, x ∈ l ∧ p x = true.
Proof.
  rewrite existsb_exists. by setoid_rewrite list_elem_of_In.
Qed.

(** Appending to the bucket of a key that the dictionary has touches that
    bucket only. *)
Lemma dict_append_buckets {K V : Type} `{EqDecision K}
    (f : K → list V) (ks : list K) (k : K) (v : V) :
  NoDup ks → k ∈ ks →
  dict_append (map (λ c, (c, f c)) ks) k v
  = Ok (map (λ c, (c, if decide (c = k) then f c ++ [v] else f c)) ks).
Proof.
  induction ks as [|c ks IH]; intros Hnd Hin; simpl.
  - by apply not_elem_of_nil in Hin.
  - apply NoDup_cons in Hnd as [Hc Hnd]. destruct (decide (c = k)) as [->|Hne].
    + do 2 f_equal. apply map_ext_in. intros c' Hc'%list_elem_of_In.
      destruct (decide (c' = k)) as [->|]; [done | done].
    + apply elem_of_cons in Hin as [->|Hin]; [done|].
      by rewrite IH.
Qed.

(** Buckets keyed by the values of [f] split a list up. *)
Lemma concat_buckets_Permutation {A K : Type} `{EqDecision K}
    (f : A → K) (ks : list K) (l : list A) :
  NoDup ks → Forall (λ x, f x ∈ ks) l →
  concat (map (λ k, filter (λ x, f x = k) l) ks) ≡ₚ l.
Proof.
  revert l. induction ks as [|k ks IH]; intros l Hnd Hl; simpl.
  - destruct l as [|x l]; [done|].
    apply Forall_cons in Hl as [Hx _]. by apply not_elem_of_nil in Hx.
  - apply NoDup_cons in Hnd as [Hk Hnd].
    etrans; [|apply (filter_app_complement (λ x, f x = k) l)].
    apply Permutation_app_head.
    rewrite <- (IH (filter (λ x, f x ≠ k) l)); [| done |].
    + apply Permutation_refl'. f_equal. apply map_ext_in.
      intros k' Hk'%list_elem_of_In. rewrite list_filter_filter.
      apply list_filter_iff. intros x. split; [|tauto].
      intros <-. split; [done|]. intros Heq. by rewrite Heq in Hk'.
    + apply Forall_forall. intros x [Hx Hxl]%list_elem_of_filter.
      rewrite Forall_forall in Hl. specialize (Hl x Hxl).
      apply elem_of_cons in Hl as [?|?]; done.
Qed.

(** ** Category assignment *)

Section CategoryAssignment.
Context `{Unicode}.
Import Categories Spec.

Lemma category_names_NoDup : NoDup category_names.
Proof. apply (bool_decide_unpack _). by vm_compute. Qed.

Lemma categories_buckets : categories = buckets (λ _, []).
Proof. reflexivity. Qed.

Lemma keyword_categories_named c kws :
  (c, kws) ∈ category_keywords → c ∈ category_names.
Proof.
  intros Hin.
  assert (Hsub : Forall (λ ck, ck.1 ∈ category_names) category_keywords).
  { apply (bool_decide_unpack _). by vm_compute. }
  rewrite Forall_forall in Hsub. apply (Hsub _ Hin).
Qed.

Lemma category_of_named s : category_of s ∈ category_names.
Proof.
  unfold category_of. destruct (List.find _ _) as [[c kws]|] eqn:Hf.
  - apply find_some in Hf as [Hin%list_elem_of_In _].
    by apply keyword_categories_named with kws.
  - apply (bool_decide_unpack _). by vm_compute.
Qed.

Lemma has_keyword_existsb s kws :
  existsb (λ w, str_in w (str_lower s)) kws = true ↔ has_keyword s kws.
Proof.
  rewrite existsb_elem_of. unfold has_keyword.
  by setoid_rewrite str_in_spec.
Qed.

Lemma has_keyword_existsb_false s kws :
  existsb (λ w, str_in w (str_lower s)) kws = false ↔ ¬ has_keyword s kws.
Proof. rewrite <- has_keyword_existsb. by destruct (existsb _ _). Qed.

(** The function [category_of] computes the first match. *)
Lemma category_of_first_match s : first_match s (category_of s).
Proof.
  unfold category_of, first_match.
  destruct (List.find _ _) as [[c kws]|] eqn:Hf.
  - left. apply find_Some_first in Hf as (i & Hi & Hp & Hlt).
    exists i, kws. split_and!; [done | by apply has_keyword_existsb |].
    intros j c' kws' Hj Hl. apply has_keyword_existsb_false.
    apply (Hlt j (c', kws') Hj Hl).
  - right. split; [done|]. intros c' kws' Hin.
    apply has_keyword_existsb_false.
    rewrite find_None_all in Hf. apply (Hf _ Hin).
Qed.

Lemma first_match_category_of s c : first_match s c → c = category_of s.
Proof.
  unfold category_of. intros [(i & kws & Hi & Hk & Hlt) | [-> Hno]].
  - assert (Hf : List.find (λ ck, existsb (λ w, str_in w (str_lower s)) ck.2)
                   category_keywords = Some (c, kws)).
    { apply find_Some_first. exists i.
      split_and!; [done | by apply has_keyword_existsb |].
      intros j [c' kws'] Hj Hl. apply has_keyword_existsb_false. eauto. }
    by rewrite Hf.
  - assert (Hf : List.find (λ ck, existsb (λ w, str_in w (str_lower s)) ck.2)
                   category_keywords = None).
    { apply find_None_all. intros [c' kws'] Hin.
      apply has_keyword_existsb_false. eauto. }
    by rewrite Hf.
Qed.

(** The inner loop stops at the first item with a keyword in [ideia]. *)
Lemma scan_categories_find items ideia resumo cats :
  scan_categories items ideia resumo cats =
  match List.find (λ ck, existsb (λ w, str_in w ideia) ck.2) items with
  | Some ck => cats' ← dict_append cats ck.1 resumo; Ok (cats', true)
  | None => Ok (cats, false)
  end.
Proof.
  induction items as [|[c kws] items IH]; simpl; [done|].
  by destruct (existsb _ kws).
Qed.

Lemma categorize_row_Str cats (r : row) (s : pystr) :
  r !! "ideia_resumo" = Some (Str s) →
  categorize_row cats r
  = '(cats', categorized) ←
      scan_categories category_keywords (str_lower s) s cats;
    if categorized : bool then Ok cats'
    else dict_append cats' (py "Utilitários") s.
Proof. intros Hr. unfold categorize_row, row_get. by rewrite Hr. Qed.

(** One turn of the outer loop files the summary under its category. *)
Lemma categorize_row_buckets (f : pystr → list pystr) (r : row) (s : pystr) :
  r !! "ideia_resumo" = Some (Str s) →
  categorize_row (buckets f) r
  = Ok (buckets (λ c, if decide (c = category_of s) then f c ++ [s] else f c)).
Proof.
  intros Hr. rewrite (categorize_row_Str _ r s Hr), scan_categories_find.
  pose proof (category_of_named s) as Hnamed. unfold category_of in *.
  destruct (List.find _ _) as [[c kws]|]; unfold buckets.
  - cbn [fst] in *.
    by rewrite (dict_append_buckets f _ c s category_names_NoDup Hnamed).
  - cbn [mbind result_bind].
    by rewrite (dict_append_buckets f _ _ s category_names_NoDup Hnamed).
Qed.

Lemma summaries_cons r l s cols :
  r !! "ideia_resumo" = Some (Str s) →
  summaries {| columns := cols; rows := r :: l |}
  = s :: summaries {| columns := cols; rows := l |}.
Proof. intros Hr. unfold summaries. simpl. by rewrite Hr. Qed.

Lemma is_text_Str (o : option cell) : is_text o → ∃ s, o = Some (Str s).
Proof. destruct o as [[|s| |]|]; try done. by exists s. Qed.

Lemma categorize_rows_buckets (l : list row) (seen : list pystr) cols :
  Forall (λ r, is_text (r !! "ideia_resumo")) l →
  foldM categorize_row l
    (buckets (λ c, filter (λ s, category_of s = c) seen))
  = Ok (buckets (λ c, filter (λ s, category_of s = c)
                        (seen ++ summaries {| columns := cols; rows := l |}))).
Proof.
  revert seen. induction l as [|r l IH]; intros seen Hl; simpl.
  - unfold summaries. simpl. by rewrite app_nil_r.
  - apply Forall_cons in Hl as [[s Hs]%is_text_Str Hl].
    rewrite (categorize_row_buckets _ r s Hs). simpl.
    rewrite (summaries_cons r l s cols Hs).
    replace (seen ++ s :: summaries {| columns := cols; rows := l |})
      with ((seen ++ [s]) ++ summaries {| columns := cols; rows := l |})
      by (by rewrite <- app_assoc).
    rewrite <- (IH (seen ++ [s]) Hl). f_equal. unfold buckets.
    apply map_ext. intros c. f_equal. rewrite filter_app.
    destruct (decide (c = category_of s)) as [->|Hne].
    + by rewrite filter_cons_True.
    + rewrite filter_cons_False by congruence. simpl. by rewrite app_nil_r.
Qed.

End CategoryAssignment.

(** C1. On a view whose summaries are text, [get_categories_analysis]
    returns the ten buckets in the order of the dictionary; the keyword
    table is visited in the fixed priority order Redes Sociais, Educação,
    Jogos, E-commerce, Saúde/Bem-estar, Entretenimento, Produtividade,
    Transporte/Localização, Finanças; the bucket of a category holds, in
    row order, the summaries whose first matching category it is
    (Utilitários when no keyword occurs in the lower-cased summary); every
    summary of the view is in exactly one bucket, and the buckets together
    are the summaries of the view. *)
Theorem get_categories_analysis_partition `{Unicode} (df : DataFrame) :
  Forall (λ r, Spec.is_text (r !! "ideia_resumo")) (rows df) →
  ∃ cats,
    Categories.get_categories_analysis df = Ok cats
    ∧ map fst Categories.category_keywords
      = map py ["Redes Sociais"; "Educação"; "Jogos"; "E-commerce";
                "Saúde/Bem-estar"; "Entretenimento"; "Produtividade";
                "Transporte/Localização"; "Finanças"]
    ∧ (∀ s c, Spec.first_match s c ↔ c = Spec.category_of s)
    ∧ cats = Spec.buckets (λ c,
               filter (λ s, Spec.category_of s = c) (Spec.summaries df))
    ∧ (∀ s, s ∈ Spec.summaries df →
         ∃ c, (∃ b, (c, b) ∈ cats ∧ s ∈ b)
              ∧ ∀ c', (∃ b, (c', b) ∈ cats ∧ s ∈ b) → c' = c)
    ∧ concat (map snd cats) ≡ₚ Spec.summaries df.
Proof.
  intros Hrows. eexists. split_and!.
  - unfold Categories.get_categories_analysis. rewrite categories_buckets.
    destruct df as [cols l].
    apply (categorize_rows_buckets l [] cols Hrows).
  - reflexivity.
  - intros s c. split; [apply first_match_category_of|].
    intros ->. apply category_of_first_match.
  - reflexivity.
  - intros s Hs. exists (Spec.category_of s). split.
    + eexists. split.
      * unfold Spec.buckets. apply list_elem_of_fmap. eexists. split; [done|].
        apply category_of_named.
      * simpl. by apply list_elem_of_filter.
    + intros c (b & Hcb & Hsb). unfold Spec.buckets in Hcb.
      apply list_elem_of_fmap in Hcb as (c' & [= -> ->] & _).
      by apply list_elem_of_filter in Hsb as [-> _].
  - unfold Spec.buckets. rewrite map_map. cbn [snd].
    apply concat_buckets_Permutation; [apply category_names_NoDup|].
    apply Forall_forall. intros s _. apply category_of_named.
Qed.

Lemma get_categories_analysis_partition_witness :
  ∃ cats,
    @Categories.get_categories_analysis latin1 Examples.survey = Ok cats
    ∧ map fst Categories.category_keywords
      = map py ["Redes Sociais"; "Educação"; "Jogos"; "E-commerce";
                "Saúde/Bem-estar"; "Entretenimento"; "Produtividade";
                "Transporte/Localização"; "Finanças"]
    ∧ (∀ s c, @Spec.first_match latin1 s c ↔ c = @Spec.category_of latin1 s)
    ∧ cats = Spec.buckets (λ c,
               filter (λ s, @Spec.category_of latin1 s = c)
                      (Spec.summaries Examples.survey))
    ∧ (∀ s, s ∈ Spec.summaries Examples.survey →
         ∃ c, (∃ b, (c, b) ∈ cats ∧ s ∈ b)
              ∧ ∀ c', (∃ b, (c', b) ∈ cats ∧ s ∈ b) → c' = c)
    ∧ concat (map snd cats) ≡ₚ Spec.summaries Examples.survey.
Proof.
  apply (@get_categories_analysis_partition latin1 Examples.survey).
  apply (bool_decide_unpack _). by vm_compute.
Defined.

(** The buckets of the survey.  The ride-sharing idea of scenario 4 goes
    to Transporte/Localização; the idea that names both a social network
    and studying goes to Redes Sociais, the earlier of its two
    categories. *)
Example survey_categories :
  @Categories.get_categories_analysis latin1 Examples.survey
  = Ok [(py "Redes Sociais", [py "Rede social para Estudo em grupo"]);
        (py "Educação", []);
        (py "Jogos", [py "Jogo de ritmo com fases"]);
        (py "E-commerce", []);
        (py "Saúde/Bem-estar", []);
        (py "Entretenimento", []);
        (py "Produtividade", []);
        (py "Transporte/Localização",
         [py "quero um app de caronas para facilitar transporte"]);
        (py "Finanças", []);
        (py "Utilitários", [py "Lanterna simples"])].
Proof. by vm_compute. Qed.

(** ** Regular expressions: the matcher finds what the pattern denotes *)

Section Regex.
Context `{Unicode}.
Import Re.

Lemma nullable_spec ic r : nullable r = true ↔ Matches ic r [].
Proof.
  split.
  - induction r; simpl; try done; intros Hn.
    + constructor.
    + apply andb_true_iff in Hn as [H1 H2].
      apply (Matches_Cat ic r1 r2 [] []); auto.
    + apply orb_true_iff in Hn as [H1 | H2];
        [apply Matches_Alt_l | apply Matches_Alt_r]; auto.
    + constructor.
  - intros Hm. remember [] as s eqn:Hs.
    induction Hm; simpl; try done.
    + destruct (app_eq_nil _ _ Hs) as [H1 H2].
      by rewrite (IHHm1 H1), (IHHm2 H2).
    + by rewrite IHHm.
    + rewrite IHHm; [apply orb_true_r | done].
Qed.

(** A non-empty match of a starred pattern begins with a non-empty match
    of the pattern. *)
Lemma Matches_Star_cons ic r x s :
  Matches ic (Star r) (x :: s) →
  ∃ s1 s2, s = s1 ++ s2 ∧ Matches ic r (x :: s1) ∧ Matches ic (Star r) s2.
Proof.
  intros Hm. remember (Star r) as r' eqn:Hr. remember (x :: s) as t eqn:Ht.
  revert x s Ht. induction Hm; try done; intros x s Ht.
  injection Hr as ->. destruct s1 as [|y s1]; simpl in Ht.
  - subst s2. by apply IHHm2.
  - injection Ht as -> <-. by exists s1, s2.
Qed.

Lemma Matches_Cat_inv ic r1 r2 s :
  Matches ic (Cat r1 r2) s →
  ∃ s1 s2, s = s1 ++ s2 ∧ Matches ic r1 s1 ∧ Matches ic r2 s2.
Proof. inversion 1; subst. eauto. Qed.

Lemma deriv_spec ic r x s :
  Matches ic (deriv ic x r) s ↔ Matches ic r (x :: s).
Proof.
  revert s. induction r; intros s; simpl.
  - split; inversion 1.
  - split; inversion 1.
  - destruct (char_match ic c x) eqn:Hc.
    + split.
      * inversion 1; subst. by constructor.
      * inversion 1; subst. constructor.
    + split; inversion 1; subst. congruence.
  - destruct (N.eqb_spec x 10) as [->|Hne].
    + split; inversion 1; subst. done.
    + split.
      * inversion 1; subst. by constructor.
      * inversion 1; subst. constructor.
  - assert (Hcat : Matches ic (Cat (deriv ic x r1) r2) s
                   → Matches ic (Cat r1 r2) (x :: s)).
    { inversion 1; subst.
      apply (Matches_Cat ic r1 r2 (x :: s1) s2); [by apply IHr1 | done]. }
    assert (Hinv : Matches ic (Cat r1 r2) (x :: s) →
                   Matches ic (Cat (deriv ic x r1) r2) s
                   ∨ (Matches ic r1 [] ∧ Matches ic r2 (x :: s))).
    { intros (s1 & s2 & Heq & H1 & H2)%Matches_Cat_inv.
      destruct s1 as [|y s1]; simpl in Heq.
      - right. by subst.
      - injection Heq as -> ->. left. constructor; [by apply IHr1 | done]. }
    destruct (nullable r1) eqn:Hn.
    + split.
      * inversion 1; subst; [by apply Hcat|].
        apply (Matches_Cat ic r1 r2 [] (x :: s));
          [by apply nullable_spec | by apply IHr2].
      * intros [Hl | [_ Hr]]%Hinv;
          [by apply Matches_Alt_l | apply Matches_Alt_r; by apply IHr2].
    + split; [apply Hcat|].
      intros [Hl | [Hr _]]%Hinv; [done|].
      apply nullable_spec in Hr. congruence.
  - split.
    + inversion 1; subst;
        [apply Matches_Alt_l; by apply IHr1 | apply Matches_Alt_r; by apply IHr2].
    + inversion 1; subst;
        [apply Matches_Alt_l; by apply IHr1 | apply Matches_Alt_r; by apply IHr2].
  - split.
    + inversion 1; subst.
      apply (Matches_Star_app ic r (x :: s1) s2); [by apply IHr | done].
    + intros (s1 & s2 & -> & H1 & H2)%Matches_Star_cons.
      constructor; [by apply IHr | done].
Qed.

Lemma match_here_spec ic r s :
  match_here ic r s = true ↔ ∃ m post, s = m ++ post ∧ Matches ic r m.
Proof.
  revert r. induction s as [|x s IH]; intros r; simpl.
  - rewrite orb_false_r, nullable_spec. split.
    + intros Hm. by exists [], [].
    + intros (m & post & Heq & Hm). symmetry in Heq.
      by apply app_eq_nil in Heq as [-> _].
  - rewrite orb_true_iff, nullable_spec, IH. split.
    + intros [Hm | (m & post & -> & Hm)].
      * by exists [], (x :: s).
      * exists (x :: m), post. split; [done | by apply deriv_spec].
    + intros (m & post & Heq & Hm). destruct m as [|y m]; simpl in Heq.
      * by left.
      * injection Heq as -> ->. right. exists m, post.
        split; [done | by apply deriv_spec].
Qed.

(** [search] finds a match exactly when a part of the string matches. *)
Lemma search_spec ic r s :
  search ic r s = true ↔ ∃ pre m post, s = pre ++ m ++ post ∧ Matches ic r m.
Proof.
  induction s as [|x s IH]; cbn [search].
  - rewrite orb_false_r, match_here_spec. split.
    + intros (m & post & Heq & Hm). by exists [], m, post.
    + intros (pre & m & post & Heq & Hm). destruct pre; [|done].
      by exists m, post.
  - rewrite orb_true_iff, match_here_spec, IH. split.
    + intros [(m & post & Heq & Hm) | (pre & m & post & -> & Hm)].
      * by exists [], m, post.
      * by exists (x :: pre), m, post.
    + intros (pre & m & post & Heq & Hm). destruct pre as [|y pre].
      * left. by exists m, post.
      * injection Heq as -> ->. right. by exists pre, m, post.
Qed.

End Regex.

(** ** Patterns without special characters *)

Section PlainPatterns.
Context `{Unicode}.
Import Re.

Lemma Matches_lits ic w m :
  Matches ic (lits w) m ↔ Forall2 (λ c x, char_match ic c x = true) w m.
Proof.
  revert m. induction w as [|c w IH]; intros m; simpl.
  - split.
    + inversion 1. constructor.
    + inversion 1. constructor.
  - split.
    + intros (s1 & s2 & -> & H1 & H2)%Matches_Cat_inv.
      inversion H1; subst. constructor; [done | by apply IH].
    + inversion 1 as [|? x ? m' Hc Hw]; subst.
      apply (Matches_Cat ic (Lit c) (lits w) [x] m');
        [by constructor | by apply IH].
Qed.

Lemma classify_plain c : special c = false → classify c = TLit.
Proof.
  intros Hc. unfold classify.
  destruct (N.eqb_spec c 40) as [->|_]; [done|].
  destruct (N.eqb_spec c 41) as [->|_]; [done|].
  destruct (N.eqb_spec c 124) as [->|_]; [done|].
  destruct (is_repeat c) eqn:Hr.
  { unfold is_repeat in Hr. apply bool_decide_eq_true in Hr.
    unfold special in Hc. apply bool_decide_eq_false in Hc.
    destruct Hc. vm_compute in Hr |- *.
    repeat (apply elem_of_cons in Hr as [->|Hr];
            [repeat first [apply list_elem_of_here | apply list_elem_of_further]|]).
    by apply elem_of_nil in Hr. }
  destruct (N.eqb_spec c 92) as [->|_]; [done|].
  destruct (N.eqb_spec c 46) as [->|_]; [done|].
  by rewrite Hc.
Qed.

Lemma parse_plain p cur stack :
  Forall (λ c, special c = false) p →
  parse p cur stack = parse [] (cur.1, reverse (map Lit p) ++ cur.2) stack.
Proof.
  revert cur. induction p as [|c p IH]; intros [alts items] Hp.
  - done.
  - apply Forall_cons in Hp as [Hc Hp]. cbn [parse].
    rewrite (classify_plain c Hc), (IH _ Hp). cbn [push fst snd map].
    by rewrite reverse_cons, <- app_assoc.
Qed.

Lemma seq_of_reverse l : seq_of (reverse l) = foldr (λ x acc, Cat x acc) Eps l.
Proof.
  unfold seq_of. induction l as [|x l IH]; [done|].
  rewrite reverse_cons, fold_left_app. simpl. by rewrite IH.
Qed.

(** A pattern without special characters reads its own characters. *)
Lemma compile_plain p :
  Forall (λ c, special c = false) p → compile p = Ok (lits p).
Proof.
  intros Hp. unfold compile. rewrite (parse_plain p _ _ Hp).
  cbn [parse close alt_of fst snd fold_left]. rewrite app_nil_r.
  rewrite seq_of_reverse. f_equal. unfold lits.
  induction p as [|c p IH]; [done|]. simpl. f_equal. apply IH.
  by apply Forall_cons in Hp as [_ Hp].
Qed.

(** Searching for it, case ignored, finds the strings that contain it. *)
Lemma search_plain_ignorecase p s :
  search true (lits p) s = true ↔ Spec.icontains p s.
Proof.
  rewrite search_spec. unfold Spec.icontains.
  by setoid_rewrite Matches_lits.
Qed.

(** Searching for it, case respected, finds the strings in which it
    occurs. *)
Lemma search_plain_case p s :
  search false (lits p) s = true ↔ Spec.substring p s.
Proof.
  rewrite search_spec. unfold Spec.substring. setoid_rewrite Matches_lits.
  assert (Heq : ∀ m, Forall2 (λ c x, char_match false c x = true) p m ↔ m = p).
  { intros m. split.
    - induction 1 as [|c x w m' Hc _ IH]; [done|].
      apply N.eqb_eq in Hc. by subst.
    - intros ->. induction p; constructor; [apply N.eqb_refl | done]. }
  split.
  - intros (pre & m & post & -> & ->%Heq). by exists pre, post.
  - intros (pre & post & ->). exists pre, p, post. split; [done | by apply Heq].
Qed.

End PlainPatterns.

(** ** The loader *)

Section Loader.
Context `{Unicode}.
Import DataProcessor.

Lemma undefined_pattern :
  Re.compile (py "Sem ideia|indefinido")
  = Ok (Re.Alt (Re.lits (py "Sem ideia")) (Re.lits (py "indefinido"))).
Proof. by vm_compute. Qed.

Lemma search_Alt ic r1 r2 s :
  Re.search ic (Re.Alt r1 r2) s = true
  ↔ Re.search ic r1 s = true ∨ Re.search ic r2 s = true.
Proof.
  rewrite !search_spec. split.
  - intros (pre & m & post & Hs & Hm).
    inversion Hm; subst; [left | right]; by exists pre, m, post.
  - intros [(pre & m & post & Hs & Hm) | (pre & m & post & Hs & Hm)];
      exists pre, m, post; (split; [done|]);
      [by apply Re.Matches_Alt_l | by apply Re.Matches_Alt_r].
Qed.

(** The test of line 49 finds the summaries that contain a sentinel. *)
Lemma undefined_spec undefined (x : cell) :
  Re.str_contains false (py "Sem ideia|indefinido") = Ok undefined →
  undefined x = true
  ↔ ∃ s, x = Str s ∧ (Spec.substring (py "Sem ideia") s
                       ∨ Spec.substring (py "indefinido") s).
Proof.
  unfold Re.str_contains. rewrite undefined_pattern.
  cbn [mbind result_bind]. intros Heq.
  apply (f_equal (λ o, match o with Ok f => f x | Raise _ => false end)) in Heq.
  cbv beta match in Heq. rewrite <- Heq. clear Heq.
  destruct x as [|s|n|l]; try (split; [done | by intros (s' & [=] & _)]).
  rewrite search_Alt, !search_plain_case. split.
  - intros Hs. by exists s.
  - by intros (s' & [= <-] & Hs).
Qed.

Lemma apply_rows_Forall2 src c f l l' :
  apply_rows src c f l = Ok l' →
  Forall2 (λ r r', ∃ v, r' = <[c := v]> r) l l'.
Proof.
  revert l'. induction l as [|r l IH]; intros l'; simpl.
  - intros [= <-]. constructor.
  - destruct (f (cell_at r src)) as [v|]; [|done]. simpl.
    destruct (apply_rows src c f l) as [l''|]; [|done]. simpl.
    intros [= <-]. constructor; [by exists v | by apply IH].
Qed.

Lemma assign_apply_rows c src f df R :
  assign_apply c src f df = Ok R →
  Forall2 (λ r r', ∃ v, r' = <[c := v]> r) (rows df) (rows R).
Proof.
  unfold assign_apply. destruct (df_col df src); [|done]. simpl.
  destruct (apply_rows src c f (rows df)) as [l|] eqn:Hl; [|done]. simpl.
  intros [= <-]. by apply apply_rows_Forall2 in Hl.
Qed.

(** A property of the summary of each row outlives a new column. *)
Lemma assign_apply_summaries (Q : option cell → Prop) c src f df R :
  c ≠ "ideia_resumo" →
  assign_apply c src f df = Ok R →
  Forall (λ r, Q (r !! "ideia_resumo")) (rows df) →
  Forall (λ r, Q (r !! "ideia_resumo")) (rows R).
Proof.
  intros Hc HR%assign_apply_rows Hdf.
  induction HR as [|r r' l l' [v ->] _ IH]; [done|].
  apply Forall_cons in Hdf as [Hr Hl].
  constructor; [by rewrite lookup_insert_ne | by apply IH].
Qed.

Lemma clean_data_summaries df R :
  Spec.csv_frame df → _clean_data df = Ok R →
  Forall (λ r', Spec.good_summary r'
                ∧ ∃ r, r ∈ rows df
                       ∧ r !! "ideia_resumo" = r' !! "ideia_resumo") (rows R).
Proof.
  intros [Hcols Hcells]. unfold _clean_data.
  destruct (df_empty df) eqn:Hempty.
  { intros [= <-]. unfold df_empty in Hempty.
    destruct (columns df); [by rewrite Hcols|].
    by destruct (rows df). }
  unfold dropna. destruct (df_col df "ideia_resumo") as [col|] eqn:Hcol; [|done].
  cbn [mbind result_bind]. unfold df_col at 1. cbn [df_where columns].
  unfold df_col in Hcol. destruct (decide _); [|done]. cbn [mbind result_bind].
  destruct (Re.str_contains false _) as [undefined|] eqn:Hu; [|done].
  cbn [mbind result_bind].
  destruct (assign_apply "apps_semelhantes_lista" _ _ _) as [d|] eqn:Hd; [|done].
  cbn [mbind result_bind]. intros HR.
  set (Q := λ o : option cell,
              (∃ s, o = Some (Str s) ∧ s ≠ []
                    ∧ ¬ Spec.substring (py "Sem ideia") s
                    ∧ ¬ Spec.substring (py "indefinido") s)
              ∧ ∃ r, r ∈ rows df ∧ r !! "ideia_resumo" = o).
  eapply (assign_apply_summaries Q); [|exact HR|]; [discriminate|].
  eapply (assign_apply_summaries Q); [|exact Hd|]; [discriminate|].
  unfold Q. clear Q.
  cbn [fillna rows df_where]. apply Forall_fmap, Forall_forall.
  intros r [Hund [Hnan Hr]%list_elem_of_filter]%list_elem_of_filter.
  rewrite Forall_forall in Hcells. specialize (Hcells r Hr).
  unfold cell_at in *. cbn [compose]. rewrite lookup_fmap.
  destruct (r !! "ideia_resumo") as [[|s|n|l]|] eqn:Hx; try done.
  simpl in Hcells. split; [|by exists r].
  exists s. split_and!; [done | done | |].
  - intros Hsub. assert (undefined (Str s) = true) as Ht; [|simpl in *; congruence].
    apply (undefined_spec _ _ Hu). eauto.
  - intros Hsub. assert (undefined (Str s) = true) as Ht; [|simpl in *; congruence].
    apply (undefined_spec _ _ Hu). eauto.
Qed.

Lemma load_data_cases read_csv csv_path :
  _load_data read_csv csv_path = empty_frame
  ∨ ∃ df, read_csv csv_path = Ok df
          ∧ _clean_data df = Ok (_load_data read_csv csv_path).
Proof.
  unfold _load_data. destruct (decide (csv_path = "")); [by left|].
  destruct (read_csv csv_path) as [df|]; [|by left]. cbn [mbind result_bind].
  destruct (_clean_data df) as [R|] eqn:HR; [|by left].
  right. by exists df.
Qed.

End Loader.

(** C3. Whatever [read_csv] gives for the path, every record of the
    Dataset that [_load_data] leaves has a summary that is present and not
    empty and that contains neither 'Sem ideia' nor 'indefinido' (as
    written, case respected); and when the file holds the single record
    with summary 'Sem ideia', the Dataset is empty. *)
Theorem load_data_summaries `{Unicode}
    (read_csv : string → result DataFrame) (csv_path : string) :
  (∀ p df, read_csv p = Ok df → Spec.csv_frame df) →
  Forall Spec.good_summary
         (rows (DataProcessor._load_data read_csv csv_path))
  ∧ (∀ df r, read_csv csv_path = Ok df → rows df = [r] →
       r !! "ideia_resumo" = Some (Str (py "Sem ideia")) →
       rows (DataProcessor._load_data read_csv csv_path) = []).
Proof.
  intros Hcsv.
  destruct (load_data_cases read_csv csv_path) as [-> | (df & Hdf & HR)].
  { split; [by constructor | done]. }
  pose proof (clean_data_summaries df _ (Hcsv _ _ Hdf) HR) as Hgood.
  split.
  - eapply Forall_impl; [exact Hgood|]. by intros r' [? _].
  - intros df' r Hdf' Hrows Hr. rewrite Hdf in Hdf'. injection Hdf' as <-.
    destruct (rows (DataProcessor._load_data read_csv csv_path))
      as [|r' l]; [done|].
    apply Forall_cons in Hgood as [[(s & Hs & _ & Hsem & _) (r0 & Hin & Heq)] _].
    rewrite Hrows in Hin. apply list_elem_of_singleton in Hin as ->.
    rewrite Hr in Heq. rewrite <- Heq in Hs. injection Hs as <-.
    destruct Hsem. by exists [], [].
Qed.

Lemma load_data_summaries_witness :
  Forall Spec.good_summary (rows Examples.survey)
  ∧ (∀ df r, Examples.disk "ideias_apps_viabilidade.csv" = Ok df →
       rows df = [r] →
       r !! "ideia_resumo" = Some (Str (py "Sem ideia")) →
       rows Examples.survey = []).
Proof.
  apply (@load_data_summaries latin1 Examples.disk
           "ideias_apps_viabilidade.csv").
  intros p df. unfold Examples.disk.
  repeat case_decide; intros [= <-]; apply (bool_decide_unpack _); by vm_compute.
Defined.

(** Scenario 1: the Dataset of a file whose only record has the summary
    'Sem ideia' is empty. *)
Example load_sem_ideia : rows (Examples.load "sem_ideia.csv") = [].
Proof. by vm_compute. Qed.

(** The survey keeps the four records with an idea. *)
Example load_survey :
  Spec.summaries Examples.survey
  = map py ["quero um app de caronas para facilitar transporte";
            "Rede social para Estudo em grupo"; "Lanterna simples";
            "Jogo de ritmo com fases"].
Proof. by vm_compute. Qed.

(** ** Frames *)

Lemma df_eta df : {| columns := columns df; rows := rows df |} = df.
Proof. by destruct df. Qed.

Lemma filter_ext_in {A} (P Q : A → Prop)
    `{!∀ x, Decision (P x), !∀ x, Decision (Q x)} (l : list A) :
  (∀ x, x ∈ l → (P x ↔ Q x)) → filter P l = filter Q l.
Proof.
  induction l as [|x l IH]; intros Hl; [done|].
  rewrite !filter_cons, IH.
  - destruct (decide (P x)) as [HP|HP], (decide (Q x)) as [HQ|HQ]; try done;
      destruct (Hl x (list_elem_of_here _ _)); tauto.
  - intros y Hy. apply Hl. by apply list_elem_of_further.
Qed.

Lemma filter_all {A} (P : A → Prop) `{!∀ x, Decision (P x)} (l : list A) :
  (∀ x, x ∈ l → P x) → filter P l = l.
Proof.
  induction l as [|x l IH]; intros Hl; [done|].
  rewrite filter_cons_True, IH; [done | | apply Hl, list_elem_of_here].
  intros y Hy. apply Hl. by apply list_elem_of_further.
Qed.

Lemma filter_map {A B} (g : A → B) (P : B → Prop)
    `{!∀ x, Decision (P x)} (l : list A) :
  filter P (map g l) = map g (filter (λ x, P (g x)) l).
Proof.
  induction l as [|x l IH]; [done|]. simpl.
  rewrite !filter_cons, IH. by destruct (decide (P (g x))).
Qed.

Lemma df_where_ext (P Q : row → Prop)
    `{!∀ r, Decision (P r), !∀ r, Decision (Q r)} df :
  (∀ r, r ∈ rows df → (P r ↔ Q r)) → df_where P df = df_where Q df.
Proof. intros HPQ. unfold df_where. f_equal. by apply filter_ext_in. Qed.

Lemma df_where_all (P : row → Prop) `{!∀ r, Decision (P r)} df :
  (∀ r, r ∈ rows df → P r) → df_where P df = df.
Proof.
  intros HP. unfold df_where. rewrite filter_all by done. apply df_eta.
Qed.

Lemma df_where_where (P Q : row → Prop)
    `{!∀ r, Decision (P r), !∀ r, Decision (Q r)} df :
  df_where P (df_where Q df) = df_where (λ r, P r ∧ Q r) df.
Proof. unfold df_where. simpl. f_equal. apply list_filter_filter. Qed.

Lemma df_col_Ok df c :
  c ∈ columns df → df_col df c = Ok (map (λ r, cell_at r c) (rows df)).
Proof. intros Hc. unfold df_col. by rewrite decide_True. Qed.

Lemma df_col_KeyError df c : c ∉ columns df → df_col df c = Raise KeyError.
Proof. intros Hc. unfold df_col. by rewrite decide_False. Qed.

Lemma cell_at_Str (r : row) c v : cell_at r c = Str v ↔ r !! c = Some (Str v).
Proof.
  unfold cell_at. destruct (r !! c) as [x|]; simpl; [|done].
  split; [by intros -> | by intros [= ->]].
Qed.

(** ** The primary filters, step by step *)

Section Steps.
Import FilterManager.

Lemma df_where_eq_Ok c v df :
  c ∈ columns df →
  df_where_eq c v df = Ok (df_where (λ r, cell_is v (cell_at r c)) df).
Proof. intros Hc. unfold df_where_eq. by rewrite df_col_Ok. Qed.

Lemma df_where_eq_KeyError c v df :
  c ∉ columns df → df_where_eq c v df = Raise KeyError.
Proof. intros Hc. unfold df_where_eq. by rewrite df_col_KeyError. Qed.

(** A step that is taken under a condition [A]. *)
Lemma step_where_eq (A : Prop) `{!Decision A} c v df :
  (A → c ∈ columns df) →
  (if decide A then df_where_eq c v df else Ok df)
  = Ok (df_where (λ r, A → cell_is v (cell_at r c)) df).
Proof.
  intros Hc. destruct (decide A) as [HA|HA].
  - rewrite df_where_eq_Ok by auto. f_equal.
    apply df_where_ext. intros r _. tauto.
  - f_equal. symmetry. apply df_where_all. intros r _ ?. done.
Qed.

Lemma step_where_eq_KeyError (A : Prop) `{!Decision A} c v df :
  ¬ (A → c ∈ columns df) →
  (if decide A then df_where_eq c v df else Ok df) = Raise KeyError.
Proof.
  intros Hc. destruct (decide A) as [HA|HA]; [|tauto].
  rewrite df_where_eq_KeyError; [done | tauto].
Qed.

Lemma loop_where_eq cs v df :
  Forall (λ c, c ∈ columns df) cs →
  foldM (λ d c, df_where_eq c v d) cs df
  = Ok (df_where (λ r, Forall (λ c, cell_is v (cell_at r c)) cs) df).
Proof.
  revert df. induction cs as [|c cs IH]; intros df Hcs; cbn [foldM].
  - f_equal. symmetry. apply df_where_all. intros r _. constructor.
  - apply Forall_cons in Hcs as [Hc Hcs].
    rewrite df_where_eq_Ok by done. cbn [mbind result_bind].
    rewrite IH by done.
    rewrite df_where_where. f_equal. apply df_where_ext.
    intros r _. rewrite Forall_cons. tauto.
Qed.

Lemma loop_where_eq_KeyError cs v df :
  ¬ Forall (λ c, c ∈ columns df) cs →
  foldM (λ d c, df_where_eq c v d) cs df = Raise KeyError.
Proof.
  revert df. induction cs as [|c cs IH]; intros df Hcs; cbn [foldM].
  - destruct Hcs. constructor.
  - destruct (decide (c ∈ columns df)) as [Hc|Hc].
    + rewrite df_where_eq_Ok by done. cbn [mbind result_bind].
      apply IH. cbn [df_where columns].
      intros Hall. apply Hcs. by constructor.
    + by rewrite df_where_eq_KeyError.
Qed.

Lemma step_recursos cs v df :
  Forall (λ c, c ∈ columns df) cs →
  (if decide (cs ≠ []) then foldM (λ d c, df_where_eq c v d) cs df else Ok df)
  = Ok (df_where (λ r, Forall (λ c, cell_is v (cell_at r c)) cs) df).
Proof.
  intros Hcs. destruct (decide (cs ≠ [])) as [Hne|Hnil].
  - by apply loop_where_eq.
  - rewrite <- (loop_where_eq cs v df Hcs).
    destruct cs; [done | by destruct Hnil].
Qed.

Lemma step_recursos_KeyError cs v df :
  ¬ Forall (λ c, c ∈ columns df) cs →
  (if decide (cs ≠ []) then foldM (λ d c, df_where_eq c v d) cs df else Ok df)
  = Raise KeyError.
Proof.
  intros Hcs. destruct (decide (cs ≠ [])) as [Hne|Hnil].
  - by apply loop_where_eq_KeyError.
  - destruct Hcs. destruct cs; [constructor | by destruct Hnil].
Qed.

Lemma step_alertas (a w1 w2 : pystr) c df :
  (a = w1 ∨ a = w2 → c ∈ columns df) →
  (if decide (a = w1) then df_where_len c true df
   else if decide (a = w2) then df_where_len c false df
   else Ok df)
  = Ok (df_where (λ r, (a = w1 → has_len true (cell_at r c))
                       ∧ (a ≠ w1 → a = w2 → has_len false (cell_at r c))) df).
Proof.
  intros Hc. unfold df_where_len.
  destruct (decide (a = w1)) as [H1|H1]; [|destruct (decide (a = w2)) as [H2|H2]].
  - rewrite df_col_Ok by auto. simpl. f_equal. apply df_where_ext.
    intros r _. tauto.
  - rewrite df_col_Ok by auto. simpl. f_equal. apply df_where_ext.
    intros r _. tauto.
  - f_equal. symmetry. apply df_where_all. intros r _. tauto.
Qed.

Lemma step_alertas_KeyError (a w1 w2 : pystr) c df :
  ¬ (a = w1 ∨ a = w2 → c ∈ columns df) →
  (if decide (a = w1) then df_where_len c true df
   else if decide (a = w2) then df_where_len c false df
   else Ok df)
  = Raise KeyError.
Proof.
  intros Hc. unfold df_where_len.
  destruct (decide (a = w1)) as [H1|H1]; [|destruct (decide (a = w2)) as [H2|H2]].
  - rewrite df_col_KeyError; [done | tauto].
  - rewrite df_col_KeyError; [done | tauto].
  - tauto.
Qed.

End Steps.

Section PrimaryFilters.
Context `{Unicode}.
Import FilterManager.

Lemma step_busca f df :
  (busca_texto f ≠ [] → "ideia_resumo" ∈ columns df) →
  (if decide (busca_texto f ≠ [])
   then _ ← df_col df "ideia_resumo";
        found ← Re.str_contains true (busca_texto f);
        Ok (df_where (λ r, found (cell_at r "ideia_resumo") = true) df)
   else Ok df)
  = found ← search_test f;
    Ok (df_where (λ r, busca_texto f ≠ [] →
                       found (cell_at r "ideia_resumo") = true) df).
Proof.
  intros Hc. unfold search_test. destruct (decide (busca_texto f ≠ [])) as [Hb|Hb].
  - rewrite df_col_Ok by auto. cbn [mbind result_bind].
    destruct (Re.str_contains true (busca_texto f)) as [found|e]; [|done].
    cbn [mbind result_bind]. f_equal. apply df_where_ext. intros r _. tauto.
  - cbn [mbind result_bind]. f_equal. symmetry. apply df_where_all.
    intros r _ ?. done.
Qed.

Lemma step_busca_KeyError f df :
  ¬ (busca_texto f ≠ [] → "ideia_resumo" ∈ columns df) →
  (if decide (busca_texto f ≠ [])
   then _ ← df_col df "ideia_resumo";
        found ← Re.str_contains true (busca_texto f);
        Ok (df_where (λ r, found (cell_at r "ideia_resumo") = true) df)
   else Ok df)
  = Raise KeyError.
Proof.
  intros Hc. destruct (decide (busca_texto f ≠ [])) as [Hb|Hb]; [|tauto].
  rewrite df_col_KeyError; [done | tauto].
Qed.

(** With the labels it looks up in place, [apply_filters] compiles the
    search text and keeps the rows that pass the four tests. *)
Lemma apply_filters_eq df f :
  columns_ok f (columns df) →
  apply_filters df f
  = found ← search_test f; Ok (df_where (keeps f found) df).
Proof.
  intros (H1 & H2 & H3 & H4). unfold apply_filters. cbv zeta.
  rewrite step_where_eq by done. cbn [mbind result_bind].
  rewrite step_recursos by done. cbn [mbind result_bind].
  rewrite step_alertas by done. cbn [mbind result_bind].
  rewrite step_busca by done.
  destruct (search_test f) as [found|e]; [|done]. cbn [mbind result_bind].
  f_equal. rewrite !df_where_where. apply df_where_ext.
  intros r _. unfold keeps. split.
  - intros (((H4' & H3a & H3b) & H2') & H1'). by split_and!.
  - intros (H1' & H2' & H3a & H3b & H4'). by split_and!.
Qed.

(** Without one of them it raises [KeyError]. *)
Lemma apply_filters_KeyError df f :
  ¬ columns_ok f (columns df) → apply_filters df f = Raise KeyError.
Proof.
  intros Hcols. unfold apply_filters. cbv zeta.
  destruct (decide (complexidade f ≠ py "Todos" → "Complexidade" ∈ columns df))
    as [H1|H1]; [|by rewrite step_where_eq_KeyError].
  rewrite step_where_eq by done. cbn [mbind result_bind].
  destruct (decide (Forall (λ c, c ∈ columns df) (recursos f)))
    as [H2|H2]; [|by rewrite step_recursos_KeyError].
  rewrite step_recursos by done. cbn [mbind result_bind].
  destruct (decide (com_alertas f = py "Apenas com alertas"
                    ∨ com_alertas f = py "Apenas sem alertas" →
                    "Alertas_etico_legais" ∈ columns df))
    as [H3|H3]; [|by rewrite step_alertas_KeyError].
  rewrite step_alertas by done. cbn [mbind result_bind].
  rewrite step_busca_KeyError; [done|].
  intros H4. apply Hcols. by split_and!.
Qed.

End PrimaryFilters.

(** ** The primary filters on views *)

Section Views.
Context `{Unicode}.
Import FilterManager.

Lemma split_not_nil sep s : split sep s ≠ [].
Proof.
  destruct s as [|c s]; simpl; [done|].
  destruct (c =? sep); [done|]. by destruct (split sep s).
Qed.

Lemma items_nil s : Spec.items s = [] ↔ s = [].
Proof.
  unfold Spec.items. destruct (decide (s = [])) as [->|Hs]; [done|].
  split; [|done]. intros Hnil%fmap_nil_inv. by apply split_not_nil in Hnil.
Qed.

Lemma normalized_row_text r c :
  Spec.normalized_row r → c ∈ Spec.text_columns → ∃ s, r !! c = Some (Str s).
Proof.
  intros (Htext & _) Hc. rewrite Forall_forall in Htext.
  apply is_text_Str. by apply Htext.
Qed.


Lemma normalized_view_columns_ok V P :
  Spec.normalized_view V →
  columns_ok P (columns V) ↔ Forall (λ c, c ∈ columns V) (recursos P).
Proof.
  intros (Hcols & _ & _). rewrite Forall_forall in Hcols.
  unfold columns_ok. split; [tauto|]. intros Hrec.
  split_and!; [| done | |]; intros _; apply Hcols; in_list.
Qed.




End Views.



(** A second pass over a result changes nothing. *)
Lemma apply_filters_twice `{Unicode} V P R :
  FilterManager.apply_filters V P = Ok R →
  FilterManager.apply_filters R P = Ok R.
Proof.
  intros HR.
  destruct (decide (FilterManager.columns_ok P (columns V))) as [Hcols|Hcols];
    [|by rewrite apply_filters_KeyError in HR].
  rewrite (apply_filters_eq V P Hcols) in HR.
  destruct (FilterManager.search_test P) as [found|] eqn:Hfound; [|done].
  injection HR as <-.
  rewrite (apply_filters_eq (df_where _ V) P Hcols), Hfound.
  cbn [mbind result_bind]. f_equal. rewrite df_where_where.
  apply df_where_ext. intros r _. tauto.
Qed.



(** The two ideas of the survey that pass [demo_filters]. *)
Example survey_filtered :
  Spec.summaries <$> Examples.filtered Examples.survey Examples.demo_filters
  = Ok (map py ["quero um app de caronas para facilitar transporte";
                "Rede social para Estudo em grupo"]).
Proof. by vm_compute. Qed.


(** Scenario 3: of the two records with the raw alerts
    'LGPD (dados pessoais/sensíveis)' and '', 'Apenas com alertas' keeps
    the first and 'Apenas sem alertas' the second. *)
Example alerts_view_filtered :
  Spec.alerts <$> rows Examples.alerts_view
  = [[py "LGPD (dados pessoais/sensíveis)"]; []]
  ∧ Spec.summaries <$> Examples.filtered Examples.alerts_view
                         (Spec.alert_filter (py "Apenas com alertas"))
    = Ok [py "Diário de humor"]
  ∧ Spec.summaries <$> Examples.filtered Examples.alerts_view
                         (Spec.alert_filter (py "Apenas sem alertas"))
    = Ok [py "Lista de compras"].
Proof. by vm_compute. Qed.

(** Filtering the survey twice with [demo_filters]. *)
Example survey_filtered_twice :
  (R ← Examples.filtered Examples.survey Examples.demo_filters;
   Examples.filtered R Examples.demo_filters)
  = Examples.filtered Examples.survey Examples.demo_filters.
Proof. by vm_compute. Qed.

(** ** The text search *)

(** An empty search text keeps every record. *)
Lemma search_text_empty `{Unicode} (V : DataFrame) :
  Spec.normalized_view V →
  FilterManager.apply_filters V (Spec.search_filter []) = Ok V.
Proof.
  intros HV. rewrite apply_filters_eq
    by (apply (normalized_view_columns_ok V _ HV); constructor).
  unfold FilterManager.search_test. cbn [Spec.search_filter
    FilterManager.busca_texto]. rewrite decide_False by (by intros []).
  cbn [mbind result_bind]. f_equal. apply df_where_all. intros r _.
  unfold FilterManager.keeps. cbn [Spec.search_filter
    FilterManager.busca_texto FilterManager.recursos
    FilterManager.com_alertas FilterManager.complexidade].
  split_and!; first [by intros [] | by constructor | idtac].
  all: intros Heq; by vm_compute in Heq.
Qed.

(** A search text without special characters keeps exactly the records
    whose summary contains it, case ignored. *)
Lemma search_text_plain `{Unicode} (V : DataFrame) (s : pystr) :
  Spec.normalized_view V → s ≠ [] → Forall (λ c, Re.special c = false) s →
  ∃ R, FilterManager.apply_filters V (Spec.search_filter s) = Ok R
       ∧ columns R = columns V
       ∧ rows R `sublist_of` rows V
       ∧ ∀ r, r ∈ rows R ↔
              r ∈ rows V
              ∧ ∃ t, r !! "ideia_resumo" = Some (Str t) ∧ Spec.icontains s t.
Proof.
  intros HV Hs Hplain. rewrite apply_filters_eq
    by (apply (normalized_view_columns_ok V _ HV); constructor).
  unfold FilterManager.search_test, Re.str_contains. cbn [Spec.search_filter
    FilterManager.busca_texto]. rewrite decide_True by done.
  rewrite (compile_plain s Hplain). cbn [mbind result_bind].
  eexists. split; [done|]. cbn [df_where columns rows].
  split_and!; [done | apply sublist_filter |].
  intros r. rewrite list_elem_of_filter.
  destruct HV as (_ & _ & Hrows). rewrite Forall_forall in Hrows.
  split.
  - intros [Hkeeps Hr]. split; [done|].
    destruct Hkeeps as (_ & _ & _ & _ & Hfound). specialize (Hfound Hs).
    destruct (normalized_row_text r "ideia_resumo" (Hrows r Hr)) as [t Ht].
    { in_list. }
    exists t. split; [done|]. unfold cell_at in Hfound. rewrite Ht in Hfound.
    by apply search_plain_ignorecase.
  - intros [Hr (t & Ht & Hin)]. split; [|done].
    unfold FilterManager.keeps. cbn [Spec.search_filter
      FilterManager.busca_texto FilterManager.recursos
      FilterManager.com_alertas FilterManager.complexidade].
    split_and!; try done; try (by constructor).
    intros _. unfold cell_at. rewrite Ht. by apply search_plain_ignorecase.
Qed.

(** C4 (where the code departs from it). The search text is compiled as a
    regular expression.  On the survey, the text [.] keeps every record
    though no summary contains a dot, and the texts [(] and [+] make
    [apply_filters] raise [re.error]. *)
Theorem search_text_is_a_pattern :
  Examples.filtered Examples.survey (Spec.search_filter (py "."))
  = Ok Examples.survey
  ∧ rows Examples.survey ≠ []
  ∧ Forall (λ s, ¬ @Spec.icontains latin1 (py ".") s)
           (Spec.summaries Examples.survey)
  ∧ Examples.filtered Examples.survey (Spec.search_filter (py "("))
    = Raise ReError
  ∧ Examples.filtered Examples.survey (Spec.search_filter (py "+"))
    = Raise ReError.
Proof.
  split; [by vm_compute|]. split; [done|]. split.
  - assert (Hnone : Forall (λ s, @Re.search latin1 true (Re.lits (py ".")) s
                                 = false) (Spec.summaries Examples.survey)).
    { apply (bool_decide_unpack _). by vm_compute. }
    eapply Forall_impl; [exact Hnone|]. intros s Hs Hin.
    apply (@search_plain_ignorecase latin1) in Hin. congruence.
  - split; by vm_compute.
Qed.

(** ** The advanced filters on views *)

Section AdvancedFilters.
Import FilterManager.

Lemma columns_checked cs df :
  Forall (λ c, c ∈ columns df) cs →
  foldM (λ _ c, _ ← df_col df c; Ok ()) cs () = Ok ().
Proof.
  induction cs as [|c cs IH]; intros Hcs; cbn [foldM]; [done|].
  apply Forall_cons in Hcs as [Hc Hcs]. rewrite df_col_Ok by done.
  cbn [mbind result_bind]. by apply IH.
Qed.

Lemma add_label_new c cols : c ∉ cols → add_label c cols = cols ++ [c].
Proof. intros Hc. unfold add_label. by rewrite decide_False. Qed.

Lemma drop_new_label c (cols : list string) :
  c ∉ cols → filter (λ c', c' ≠ c) (cols ++ [c]) = cols.
Proof.
  intros Hc. rewrite filter_app, filter_all.
  - rewrite filter_cons_False by (by intros []). by rewrite app_nil_r.
  - intros c' Hc' ->. done.
Qed.

(** The model's count is the number of affirmative flags. *)
Lemma num_features_count r : num_features r = Z.of_nat (Spec.feature_count r).
Proof.
  unfold num_features, Spec.feature_count, rn_features. do 2 f_equal.
  apply filter_ext_in. intros c _. apply cell_at_Str.
Qed.

Lemma feature_count_le r : (Spec.feature_count r ≤ 5)%nat.
Proof. unfold Spec.feature_count. etrans; [apply length_filter | done]. Qed.

Lemma normalized_row_similar r positive :
  Spec.normalized_row r →
  has_len positive (cell_at r "apps_semelhantes")
  ↔ if positive then (0 < length (Spec.similar_apps r))%nat
    else Spec.similar_apps r = [].
Proof.
  intros (_ & Hd & _ & _).
  unfold Spec.derived, Spec.similar_apps, cell_at, has_len in *.
  destruct (r !! "apps_semelhantes") as [[|s| |]|]; try done.
  destruct (r !! "apps_semelhantes_lista") as [[| | |l]|]; try done. subst l.
  simpl. pose proof (items_nil s) as Hnil. destruct positive.
  - assert (Hpos : ∀ l : list N, (0 < length l)%nat ↔ l ≠ []).
    { intros [|? ?]; simpl; split; first [done | lia]. }
    assert (Hpos' : ∀ l : list pystr, (0 < length l)%nat ↔ l ≠ []).
    { intros [|? ?]; simpl; split; first [done | lia]. }
    rewrite Hpos, Hpos', Hnil. done.
  - rewrite Hnil. by destruct s.
Qed.

(** On a view, [apply_advanced_filters] returns the view without the
    records outside the range or against the choice on similar apps. *)
Lemma apply_advanced_filters_view V A :
  Spec.normalized_view V →
  apply_advanced_filters V A
  = Ok {| columns := columns V;
          rows := filter (λ r, Spec.meets_feature_range A r
                               ∧ Spec.meets_similar A r) (rows V) |}.
Proof.
  intros (Hcols & Hnum & Hrows).
  rewrite Forall_forall in Hcols. rewrite Forall_forall in Hrows.
  unfold apply_advanced_filters. cbv zeta.
  rewrite columns_checked.
  2:{ apply Forall_forall. intros c Hc. apply Hcols. in_list_from Hc. }
  cbn [mbind result_bind]. rewrite (add_label_new _ _ Hnum).
  rewrite (step_alertas _ _ _ "apps_semelhantes").
  2:{ intros _. cbn [df_where columns]. apply elem_of_app. left.
      apply Hcols. in_list. }
  cbn [mbind result_bind]. unfold df_drop. cbn [df_where columns rows].
  rewrite decide_True by (apply elem_of_app; right; apply list_elem_of_here).
  f_equal.
  rewrite (drop_new_label _ _ Hnum). f_equal.
  rewrite list_filter_filter, filter_map, map_map.
  rewrite (map_ext_in _ id).
  2:{ intros r [_ Hr%Hrows]%list_elem_of_In%list_elem_of_filter. simpl.
      apply delete_insert_id. by destruct Hr as (_ & _ & _ & ?). }
  rewrite map_id. apply filter_ext_in. intros r Hr%Hrows.
  unfold cell_at. rewrite lookup_insert_eq, lookup_insert_ne by done.
  fold (cell_at r "apps_semelhantes"). cbn [default in_range].
  rewrite (normalized_row_similar r true Hr),
          (normalized_row_similar r false Hr), num_features_count.
  unfold Spec.meets_feature_range, Spec.meets_similar.
  assert (Hne : py "Sem apps semelhantes" ≠ py "Com apps semelhantes").
  { intros Heq. by vm_compute in Heq. }
  split.
  - intros ([Hcom Hsem] & Hlo & Hhi).
    refine (conj (conj Hlo Hhi) (conj Hcom _)).
    intros Heq. apply Hsem; [|exact Heq]. rewrite Heq. exact Hne.
  - intros ([Hlo Hhi] & [Hcom Hsem]).
    refine (conj (conj Hcom _) (conj Hlo Hhi)).
    intros _ Heq. exact (Hsem Heq).
Qed.

End AdvancedFilters.



(** Scenario 5: of six records with 0 to 5 affirmative features, the
    range (2, 3) keeps the records with 2 and with 3. *)
Example counts_view_filtered :
  Spec.feature_count <$> rows Examples.counts_view
  = [0; 1; 2; 3; 4; 5]%nat
  ∧ Examples.ids <$> FilterManager.apply_advanced_filters
                       Examples.counts_view Examples.two_to_three
    = Ok [Int 2; Int 3].
Proof. by vm_compute. Qed.



(** The columns of the survey before and after the advanced filters. *)
Example survey_columns :
  columns Examples.survey
  = Examples.csv_columns ++ ["apps_semelhantes_lista"; "alertas_lista"]
  ∧ columns <$> FilterManager.apply_advanced_filters Examples.survey
                  Examples.two_to_three
    = Ok (columns Examples.survey).
Proof. by vm_compute. Qed.

(** C10. On a view, [apply_advanced_filters] with the full range 0 to 5
    and 'Todos' for the similar apps returns the view itself: the same
    rows in the same order under the same columns. *)
Theorem advanced_filters_identity (V : DataFrame) :
  Spec.normalized_view V →
  FilterManager.apply_advanced_filters V
    {| FilterManager.min_features := 0;
       FilterManager.max_features := 5;
       FilterManager.has_similar_apps := py "Todos" |}
  = Ok V.
Proof.
  intros HV. rewrite (apply_advanced_filters_view V _ HV). f_equal.
  rewrite filter_all; [apply df_eta|]. intros r _.
  unfold Spec.meets_feature_range, Spec.meets_similar.
  cbn [FilterManager.min_features FilterManager.max_features
       FilterManager.has_similar_apps].
  pose proof (feature_count_le r). split_and!; first [lia | done].
Qed.

Lemma advanced_filters_identity_witness :
  FilterManager.apply_advanced_filters Examples.survey Examples.full_range
  = Ok Examples.survey.
Proof.
  apply (advanced_filters_identity Examples.survey).
  apply (bool_decide_unpack _). by vm_compute.
Defined.

(** ** The aggregation queries *)

Section Queries.
Import DataProcessor.

Lemma normalized_view_column V c :
  Spec.normalized_view V → c ∈ Spec.view_columns → c ∈ columns V.
Proof. intros (Hcols & _) Hc. rewrite Forall_forall in Hcols. auto. Qed.

Lemma cell_at_text r c :
  Spec.normalized_row r → c ∈ Spec.text_columns → ∃ s, cell_at r c = Str s.
Proof.
  intros Hr Hc. destruct (normalized_row_text r c Hr Hc) as [s Hs].
  exists s. unfold cell_at. by rewrite Hs.
Qed.

Lemma text_column_hashable (l : list row) c :
  Forall Spec.normalized_row l → c ∈ Spec.text_columns →
  existsb is_list (map (λ r, cell_at r c) l) = false.
Proof.
  intros Hl Hc. induction Hl as [|r l Hr _ IH]; [done|]. simpl.
  destruct (cell_at_text r c Hr Hc) as [s ->]. done.
Qed.

Lemma get_complexity_distribution_view V :
  Spec.normalized_view V →
  get_complexity_distribution V
  = Ok (counts_desc (filter (λ x, x ≠ NaN)
                       (map (λ r, cell_at r "Complexidade") (rows V)))).
Proof.
  intros HV. unfold get_complexity_distribution.
  rewrite df_col_Ok.
  2:{ apply (normalized_view_column V _ HV). in_list. }
  cbn [mbind result_bind]. unfold value_counts.
  rewrite text_column_hashable; [done | by destruct HV as (_ & _ & ?) |].
  in_list.
Qed.

Lemma count_is_affirmative (df : DataFrame) c :
  count_is (py "Sim") (map (λ r, cell_at r c) (rows df))
  = Spec.feature_use df c.
Proof.
  unfold count_is, Spec.feature_use. rewrite filter_map, length_map.
  f_equal. apply filter_ext_in. intros r _. apply cell_at_Str.
Qed.

Lemma get_rn_features_usage_view V :
  Forall (λ c, c ∈ columns V) features →
  get_rn_features_usage V
  = Ok (map (λ nc, (nc.1, Spec.feature_use V nc.2)) Spec.feature_names).
Proof.
  intros Hcols. unfold get_rn_features_usage, features in *.
  repeat (apply Forall_cons in Hcols as [?%df_col_Ok Hcols]).
  cbn [foldM]. repeat match goal with
    | Hc : df_col V _ = Ok _ |- _ =>
        rewrite Hc; cbn [mbind result_bind]; clear Hc
    end.
  rewrite !count_is_affirmative. reflexivity.
Qed.

Lemma extend_lists (l : list row) c (all : list pystr)
    (seq : row → list pystr) :
  Forall (λ r, r !! c = Some (Lst (seq r))) l →
  foldM extend (map (λ r, cell_at r c) l) all
  = Ok (all ++ concat (map seq l)).
Proof.
  revert all. induction l as [|r l IH]; intros all Hl; cbn [foldM map concat].
  - by rewrite app_nil_r.
  - apply Forall_cons in Hl as [Hr Hl].
    replace (cell_at r c) with (Lst (seq r)) by (unfold cell_at; by rewrite Hr).
    cbn [extend mbind result_bind]. rewrite IH by done.
    by rewrite app_assoc.
Qed.

Lemma normalized_row_lists r :
  Spec.normalized_row r →
  r !! "apps_semelhantes_lista" = Some (Lst (Spec.similar_apps r))
  ∧ r !! "alertas_lista" = Some (Lst (Spec.alerts r)).
Proof.
  intros (_ & Ha & Hb & _). unfold Spec.derived, Spec.similar_apps, Spec.alerts in *.
  destruct (r !! "apps_semelhantes") as [[| | |]|]; try done.
  destruct (r !! "Alertas_etico_legais") as [[| | |]|]; try done.
  destruct (r !! "apps_semelhantes_lista") as [[| | |]|]; try done.
  by destruct (r !! "alertas_lista") as [[| | |]|].
Qed.

Lemma get_apps_semelhantes_count_view V :
  Spec.normalized_view V →
  get_apps_semelhantes_count V
  = Ok (take 10 (counts_desc (concat (map Spec.similar_apps (rows V))))).
Proof.
  intros HV. unfold get_apps_semelhantes_count.
  rewrite df_col_Ok.
  2:{ apply (normalized_view_column V _ HV). in_list. }
  cbn [mbind result_bind]. destruct HV as (_ & _ & Hrows).
  rewrite (extend_lists _ _ _ Spec.similar_apps); [done|].
  eapply Forall_impl; [exact Hrows|]. by intros r [? _]%normalized_row_lists.
Qed.

Lemma get_ethical_alerts_count_view V :
  Spec.normalized_view V →
  get_ethical_alerts_count V
  = Ok (counts_desc (concat (map Spec.alerts (rows V)))).
Proof.
  intros HV. unfold get_ethical_alerts_count.
  rewrite df_col_Ok.
  2:{ apply (normalized_view_column V _ HV). in_list. }
  cbn [mbind result_bind]. destruct HV as (_ & _ & Hrows).
  rewrite (extend_lists _ _ _ Spec.alerts).
  2:{ eapply Forall_impl; [exact Hrows|].
      by intros r [_ ?]%normalized_row_lists. }
  cbn [mbind result_bind app]. case_bool_decide as Hnil; [|done].
  by rewrite Hnil.
Qed.

Lemma feature_count_loop r (fs : list string) (n : nat) :
  Forall (λ c, Spec.is_text (r !! c)) fs →
  foldM (λ n feature,
           x ← row_get r feature;
           Ok (if decide (cell_is (py "Sim") x) then S n else n)) fs n
  = Ok (n + length (filter (Spec.affirmative r) fs))%nat.
Proof.
  revert n. induction fs as [|c fs IH]; intros n Hfs; cbn [foldM].
  - f_equal. simpl. lia.
  - apply Forall_cons in Hfs as [[s Hs]%is_text_Str Hfs].
    replace (row_get r c) with (Ok (Str s) : result cell)
      by (unfold row_get; by rewrite Hs).
    cbn [mbind result_bind].
    rewrite IH by done. f_equal. rewrite filter_cons.
    destruct (decide (cell_is (py "Sim") (Str s))) as [Heq|Hne],
             (decide (Spec.affirmative r c)) as [Ha|Ha]; simpl; try lia.
    + destruct Ha. unfold Spec.affirmative. by rewrite Hs, Heq.
    + destruct Hne. unfold Spec.affirmative in Ha. rewrite Hs in Ha.
      by injection Ha as ->.
Qed.

Lemma feature_count_row r :
  Spec.normalized_row r → feature_count r = Ok (Spec.feature_count r).
Proof.
  intros (Htext & _). unfold feature_count. rewrite feature_count_loop.
  - done.
  - rewrite Forall_forall in Htext. apply Forall_forall. intros c Hc.
    apply Htext. in_list_from Hc.
Qed.

Lemma point_row (points : list point) r :
  Spec.normalized_row r →
  add_point points r = Ok (points ++ [Spec.point_of r]).
Proof.
  intros Hr. unfold add_point.
  rewrite (feature_count_row r Hr). cbn [mbind result_bind].
  destruct (normalized_row_text r "ideia_resumo" Hr) as [s Hs].
  { in_list. }
  destruct (normalized_row_text r "Complexidade" Hr) as [cx Hcx].
  { in_list. }
  destruct (normalized_row_lists r Hr) as [_ Ha].
  unfold row_get, Spec.point_of, cell_at, Spec.alerts in *.
  rewrite Hs, Hcx, Ha. cbn [mbind result_bind shorten py_len default].
  by destruct (decide (50 < length s)%nat).
Qed.

Lemma get_complexity_vs_features_view V :
  Spec.normalized_view V →
  get_complexity_vs_features V = Ok (map Spec.point_of (rows V)).
Proof.
  intros (_ & _ & Hrows). unfold get_complexity_vs_features.
  change (map Spec.point_of (rows V)) with ([] ++ map Spec.point_of (rows V)).
  generalize (@nil point) as acc.
  induction Hrows as [|r l Hr _ IH]; intros acc; cbn [foldM map].
  - by rewrite app_nil_r.
  - rewrite (point_row acc r Hr). cbn [mbind result_bind]. rewrite IH.
    by rewrite <- app_assoc.
Qed.

End Queries.

(** C5 (as stated, it fails). After a load that failed, or with an empty
    path, the Dataset is [pd.DataFrame()], a frame without columns, and
    four of the six queries raise [KeyError] on it. *)
Lemma queries_raise_after_failed_load :
  Examples.disk "ausente.csv" = Raise FileNotFoundError
  ∧ Examples.load "ausente.csv" = empty_frame
  ∧ Examples.load "" = empty_frame
  ∧ DataProcessor.get_complexity_distribution (Examples.load "ausente.csv")
    = Raise KeyError
  ∧ DataProcessor.get_rn_features_usage (Examples.load "ausente.csv")
    = Raise KeyError
  ∧ DataProcessor.get_apps_semelhantes_count (Examples.load "ausente.csv")
    = Raise KeyError
  ∧ DataProcessor.get_ethical_alerts_count (Examples.load "ausente.csv")
    = Raise KeyError.
Proof. by vm_compute. Qed.

(** C5 (amended). On a view, a frame with the columns of the normalized
    schema, each of the six queries returns, and on a view without rows
    what it returns is empty, or all zero for the feature usage.  On the
    frame without columns that a failed load leaves, the comparison of
    complexity and features and the category assignment return empty
    results. *)
Theorem queries_on_views `{Unicode} (V : DataFrame) :
  Spec.normalized_view V →
  (∃ d, DataProcessor.get_complexity_distribution V = Ok d
        ∧ (rows V = [] → d = []))
  ∧ (∃ u, DataProcessor.get_rn_features_usage V = Ok u
          ∧ u = map (λ nc, (nc.1, Spec.feature_use V nc.2)) Spec.feature_names
          ∧ (rows V = [] → Forall (λ kv, kv.2 = 0%nat) u))
  ∧ (∃ a, DataProcessor.get_apps_semelhantes_count V = Ok a
          ∧ (rows V = [] → a = []))
  ∧ (∃ a, DataProcessor.get_ethical_alerts_count V = Ok a
          ∧ (rows V = [] → a = []))
  ∧ (∃ p, DataProcessor.get_complexity_vs_features V = Ok p
          ∧ p = map Spec.point_of (rows V))
  ∧ (∃ c, Categories.get_categories_analysis V = Ok c
          ∧ map fst c = Spec.category_names
          ∧ (rows V = [] → Forall (λ kv, kv.2 = []) c))
  ∧ DataProcessor.get_complexity_vs_features empty_frame = Ok []
  ∧ Categories.get_categories_analysis empty_frame = Ok Categories.categories.
Proof.
  intros HV. split_and!.
  - rewrite (get_complexity_distribution_view V HV). eexists. split; [done|].
    by intros ->.
  - rewrite get_rn_features_usage_view.
    2:{ apply Forall_forall. intros c Hc.
        apply (normalized_view_column V c HV). in_list_from Hc. }
    eexists. split_and!; [done | done |].
    intros Hnil. unfold Spec.feature_use. rewrite Hnil.
    by repeat constructor.
  - rewrite (get_apps_semelhantes_count_view V HV). eexists. split; [done|].
    by intros ->.
  - rewrite (get_ethical_alerts_count_view V HV). eexists. split; [done|].
    by intros ->.
  - rewrite (get_complexity_vs_features_view V HV). by eexists.
  - unfold Categories.get_categories_analysis. rewrite categories_buckets.
    destruct V as [cols l]. rewrite (categorize_rows_buckets l [] cols).
    2:{ destruct HV as (_ & _ & Hrows). eapply Forall_impl; [exact Hrows|].
        intros r (Htext & _). rewrite Forall_forall in Htext. apply Htext.
        in_list. }
    eexists. split_and!; [done | |].
    + unfold Spec.buckets. rewrite map_map. apply map_id.
    + cbn [rows]. intros ->. unfold Spec.buckets.
      apply Forall_fmap, Forall_forall. by intros c _.
  - done.
  - done.
Qed.

Lemma queries_on_views_witness :
  (∃ d, DataProcessor.get_complexity_distribution Examples.survey = Ok d
        ∧ (rows Examples.survey = [] → d = []))
  ∧ (∃ u, DataProcessor.get_rn_features_usage Examples.survey = Ok u
          ∧ u = map (λ nc, (nc.1, Spec.feature_use Examples.survey nc.2))
                    Spec.feature_names
          ∧ (rows Examples.survey = [] → Forall (λ kv, kv.2 = 0%nat) u))
  ∧ (∃ a, DataProcessor.get_apps_semelhantes_count Examples.survey = Ok a
          ∧ (rows Examples.survey = [] → a = []))
  ∧ (∃ a, DataProcessor.get_ethical_alerts_count Examples.survey = Ok a
          ∧ (rows Examples.survey = [] → a = []))
  ∧ (∃ p, DataProcessor.get_complexity_vs_features Examples.survey = Ok p
          ∧ p = map Spec.point_of (rows Examples.survey))
  ∧ (∃ c, @Categories.get_categories_analysis latin1 Examples.survey = Ok c
          ∧ map fst c = Spec.category_names
          ∧ (rows Examples.survey = [] → Forall (λ kv, kv.2 = []) c))
  ∧ DataProcessor.get_complexity_vs_features empty_frame = Ok []
  ∧ @Categories.get_categories_analysis latin1 empty_frame
    = Ok Categories.categories.
Proof.
  apply (@queries_on_views latin1 Examples.survey).
  apply (bool_decide_unpack _). by vm_compute.
Defined.

(** * Further properties of the code *)

(** A label is not in a list that is written out. *)
Ltac not_in_list H :=
  unfold Spec.view_columns, Spec.text_columns, DataProcessor.features,
    FilterManager.rn_features in H;
  repeat (apply elem_of_cons in H as [H|H]; [discriminate H|]);
  by apply elem_of_nil in H.

(** ** [split] and [strip] *)

Lemma split_no_sep sep s : Forall (λ p, sep ∉ p) (split sep s).
Proof.
  induction s as [|c s IH]; simpl.
  - constructor; [apply not_elem_of_nil | constructor].
  - destruct (N.eqb_spec c sep) as [->|Hne].
    + constructor; [apply not_elem_of_nil | done].
    + destruct (split sep s) as [|p ps] eqn:Hsp; [by apply split_not_nil in Hsp|].
      apply Forall_cons in IH as [Hp Hps]. constructor; [|done].
      intros [->|?]%elem_of_cons; done.
Qed.

Lemma split_length sep s :
  length (split sep s) = S (length (filter (λ c, c = sep) s)).
Proof.
  unfold pystr in *. induction s as [|c s IH]; cbn [split]; [done|].
  rewrite filter_cons. destruct (N.eqb_spec c sep) as [->|Hne].
  - rewrite decide_True by done. cbn [length]. by rewrite IH.
  - rewrite decide_False by done.
    destruct (split sep s) as [|p ps]; cbn [length] in *; [done | done].
Qed.

Lemma lstrip_head s c : head (lstrip s) = Some c → isspace c = false.
Proof.
  induction s as [|x s IH]; simpl; [done|].
  destruct (isspace x) eqn:Hx; [done|]. simpl. by intros [= <-].
Qed.

Lemma lstrip_suffix s : lstrip s `suffix_of` s.
Proof.
  induction s as [|x s IH]; simpl; [done|].
  destruct (isspace x); [by apply suffix_cons_r | done].
Qed.

Lemma strip_trimmed s : Loaded.trimmed (strip s).
Proof.
  unfold strip, Loaded.trimmed.
  set (t := lstrip s). set (u := lstrip (reverse t)).
  assert (Hlast : ∀ c, last (reverse u) = Some c → isspace c = false).
  { intros c. rewrite last_reverse. apply lstrip_head. }
  split; [|done]. intros c Hc.
  destruct (lstrip_suffix (reverse t)) as [k Hk]. fold u in Hk.
  apply (f_equal reverse) in Hk. rewrite reverse_involutive, reverse_app in Hk.
  destruct (reverse u) as [|y v] eqn:Hu; [done|]. simpl in Hc.
  injection Hc as ->. apply (lstrip_head s). fold t. by rewrite Hk.
Qed.

Lemma lstrip_elem_of x s : x ∈ lstrip s → x ∈ s.
Proof.
  destruct (lstrip_suffix s) as [k Hk]. intros Hx.
  assert (Hin : x ∈ k ++ lstrip s) by (apply elem_of_app; by right).
  by rewrite <- Hk in Hin.
Qed.

Lemma strip_elem_of x s : x ∈ strip s → x ∈ s.
Proof.
  unfold strip. rewrite elem_of_reverse. intros Hx.
  apply lstrip_elem_of, elem_of_reverse, lstrip_elem_of in Hx. exact Hx.
Qed.

(** X1. The lambda of lines 55-57 and 60-62 ([split_items]): the list
    derived from a text is empty exactly for the empty text; otherwise it
    has one item more than the text has [;]; no item contains a [;] and no
    item starts or ends with white space.  A missing value makes it raise
    [AttributeError]. *)
Theorem split_items_pieces :
  (∀ s : list N, ∃ l,
     DataProcessor.split_items (Str s) = Ok (Lst l)
     ∧ (l = [] ↔ s = [])
     ∧ (s ≠ [] → length l = S (length (filter (λ c, c = 59) s)))
     ∧ Forall (λ a, (59 ∉ a) ∧ Loaded.trimmed a) l)
  ∧ DataProcessor.split_items NaN = Raise AttributeError.
Proof.
  split; [|done]. intros s. unfold DataProcessor.split_items, truthy.
  destruct (decide (s = [])) as [->|Hs].
  - exists []. by split_and!.
  - rewrite bool_decide_eq_false_2 by done. cbn [negb as_str mbind result_bind].
    eexists. split_and!; [done | | |].
    + split; [|done]. intros Hnil%fmap_nil_inv. by apply split_not_nil in Hnil.
    + intros _. rewrite length_map. apply split_length.
    + apply Forall_fmap. eapply Forall_impl; [apply (split_no_sep 59 s)|].
      intros p Hp. split; [|apply strip_trimmed].
      intros Hin%strip_elem_of. done.
Qed.

(** ** The loaded Dataset *)

Section Loaded.
Context `{Unicode}.
Import DataProcessor.








End Loaded.






Lemma apply_rows_values src c f l l' :
  apply_rows src c f l = Ok l' →
  Forall2 (λ r r', ∃ v, f (cell_at r src) = Ok v ∧ r' = <[c := v]> r) l l'.
Proof.
  revert l'. induction l as [|r l IH]; intros l'; cbn [apply_rows].
  - intros [= <-]. constructor.
  - destruct (f (cell_at r src)) as [v|] eqn:Hv; [|done].
    cbn [mbind result_bind].
    destruct (apply_rows src c f l) as [l''|]; [|done].
    cbn [mbind result_bind]. intros [= <-].
    constructor; [by exists v | by apply IH].
Qed.

Lemma split_items_Lst x v :
  DataProcessor.split_items x = Ok v → ∃ l, v = Lst l.
Proof.
  unfold DataProcessor.split_items. destruct (truthy x).
  - destruct x; try done. cbn. intros [= <-]. by eexists.
  - intros [= <-]. by eexists.
Qed.

Lemma assign_split_items c src df R :
  assign_apply c src DataProcessor.split_items df = Ok R →
  Forall2 (λ r r', ∃ l, r' = <[c := Lst l]> r) (rows df) (rows R).
Proof.
  unfold assign_apply. destruct (df_col df src); [|done].
  cbn [mbind result_bind].
  destruct (apply_rows src c _ (rows df)) as [l|] eqn:Hl; [|done].
  cbn [mbind result_bind]. intros [= <-]. cbn [rows].
  apply apply_rows_values in Hl. eapply Forall2_impl; [exact Hl|].
  intros r r' (v & [l0 ->]%split_items_Lst & ->). by exists l0.
Qed.

(** X3. Whatever the frame that [read_csv] gives (without columns it has
    no rows), the records that [_load_data] leaves are records of the
    file, in the order of the file, each with its missing values replaced
    by the empty text and with the two derived lists added; no value of the
    loaded Dataset is missing. *)
Theorem load_data_records `{Unicode}
    (read_csv : string → result DataFrame) (csv_path : string)
    (df : DataFrame) :
  read_csv csv_path = Ok df → (columns df = [] → rows df = []) →
  ∃ kept,
    kept `sublist_of` rows df
    ∧ Forall2 (λ r r', ∃ l1 l2,
                 r' = <["alertas_lista" := Lst l2]>
                        (<["apps_semelhantes_lista" := Lst l1]>
                           (Loaded.filled <$> r)))
              kept (rows (DataProcessor._load_data read_csv csv_path))
    ∧ Forall (λ r', ∀ c, r' !! c ≠ Some NaN)
             (rows (DataProcessor._load_data read_csv csv_path)).
Proof.
  intros Hread Hcols.
  assert (Hshape : ∃ kept, kept `sublist_of` rows df
            ∧ Forall2 (λ r r', ∃ l1 l2,
                 r' = <["alertas_lista" := Lst l2]>
                        (<["apps_semelhantes_lista" := Lst l1]>
                           (Loaded.filled <$> r)))
              kept (rows (DataProcessor._load_data read_csv csv_path))).
  { destruct (load_data_cases read_csv csv_path) as [-> | (df' & Hdf' & HR)].
    { exists []. split; [apply sublist_nil_l | constructor]. }
    rewrite Hread in Hdf'. injection Hdf' as <-.
    revert HR. generalize (DataProcessor._load_data read_csv csv_path) as R.
    intros R. unfold DataProcessor._clean_data.
    destruct (df_empty df) eqn:Hempty.
    { intros [= <-]. exists []. split; [apply sublist_nil_l|].
      unfold df_empty in Hempty.
      destruct (columns df); [rewrite Hcols by done; constructor|].
      destruct (rows df); [constructor | done]. }
    unfold dropna. destruct (df_col df "ideia_resumo"); [|done].
    cbn [mbind result_bind]. destruct (df_col _ "ideia_resumo"); [|done].
    cbn [mbind result_bind].
    destruct (Re.str_contains false _) as [undefined|]; [|done].
    cbn [mbind result_bind]. rewrite df_where_where.
    destruct (assign_apply "apps_semelhantes_lista" _ _ _) as [d|] eqn:Hd;
      [|done].
    cbn [mbind result_bind]. intros HR.
    apply assign_split_items in Hd, HR. cbn [fillna rows df_where] in Hd.
    exists (filter (λ r, undefined (cell_at r "ideia_resumo") = false
                         ∧ cell_at r "ideia_resumo" ≠ NaN) (rows df)).
    split; [apply sublist_filter|].
    apply Forall2_fmap_l in Hd.
    revert HR. generalize (rows R). revert Hd. generalize (rows d).
    intros l4 Hd. induction Hd as [|r r4 l l4 [l1 ->] _ IH]; intros l5 HR.
    - inversion HR. constructor.
    - inversion HR as [|? r5 ? l5' [l2 ->] HR']; subst.
      constructor; [by exists l1, l2 | by apply IH]. }
  destruct Hshape as (kept & Hsub & Hshape). exists kept.
  split_and!; [done | done |].
  induction Hshape as [|r r' l l' (l1 & l2 & ->) _ IH];
    constructor; [|apply IH; by etrans; [apply sublist_cons|]].
  intros c. destruct (decide (c = "alertas_lista")) as [->|Hc1];
    [by rewrite lookup_insert_eq|].
  rewrite lookup_insert_ne by done.
  destruct (decide (c = "apps_semelhantes_lista")) as [->|Hc2];
    [by rewrite lookup_insert_eq|].
  rewrite lookup_insert_ne, lookup_fmap by done.
  by destruct (r !! c) as [[| | |]|].
Qed.

Lemma load_data_records_witness :
  ∃ kept,
    kept `sublist_of` rows Examples.survey_csv
    ∧ Forall2 (λ r r', ∃ l1 l2,
                 r' = <["alertas_lista" := Lst l2]>
                        (<["apps_semelhantes_lista" := Lst l1]>
                           (Loaded.filled <$> r)))
              kept (rows Examples.survey)
    ∧ Forall (λ r', ∀ c, r' !! c ≠ Some NaN) (rows Examples.survey).
Proof.
  apply (@load_data_records latin1 Examples.disk "ideias_apps_viabilidade.csv"
           Examples.survey_csv).
  - done.
  - discriminate.
Defined.

(** X4. A file with a header and no record: [_clean_data] returns at
    once, so the frame that [_load_data] leaves is the frame read, without
    the derived columns; it is empty ([df.empty], on which [main] stops),
    and the two queries that read the derived columns would raise
    [KeyError] on it. *)
Theorem load_data_header_only `{Unicode}
    (read_csv : string → result DataFrame) (csv_path : string)
    (cols : list string) :
  csv_path ≠ "" →
  read_csv csv_path = Ok {| columns := cols; rows := [] |} →
  DataProcessor._load_data read_csv csv_path = {| columns := cols; rows := [] |}
  ∧ df_empty (DataProcessor._load_data read_csv csv_path) = true
  ∧ ("apps_semelhantes_lista" ∉ cols →
     DataProcessor.get_apps_semelhantes_count
       (DataProcessor._load_data read_csv csv_path) = Raise KeyError)
  ∧ ("alertas_lista" ∉ cols →
     DataProcessor.get_ethical_alerts_count
       (DataProcessor._load_data read_csv csv_path) = Raise KeyError).
Proof.
  intros Hpath Hread.
  assert (Hload : DataProcessor._load_data read_csv csv_path
                  = {| columns := cols; rows := [] |}).
  { unfold DataProcessor._load_data. rewrite decide_False by done.
    rewrite Hread. cbn [mbind result_bind]. unfold DataProcessor._clean_data.
    replace (df_empty {| columns := cols; rows := [] |}) with true
      by (by destruct cols). done. }
  rewrite Hload. split_and!.
  - done.
  - by destruct cols.
  - intros Hc. unfold DataProcessor.get_apps_semelhantes_count.
    by rewrite df_col_KeyError.
  - intros Hc. unfold DataProcessor.get_ethical_alerts_count.
    by rewrite df_col_KeyError.
Qed.

Lemma load_data_header_only_witness :
  @DataProcessor._load_data latin1
    (λ _, Ok {| columns := Examples.csv_columns; rows := [] |}) "vazio.csv"
  = {| columns := Examples.csv_columns; rows := [] |}
  ∧ df_empty (@DataProcessor._load_data latin1
      (λ _, Ok {| columns := Examples.csv_columns; rows := [] |}) "vazio.csv")
    = true
  ∧ ("apps_semelhantes_lista" ∉ Examples.csv_columns →
     DataProcessor.get_apps_semelhantes_count
       (@DataProcessor._load_data latin1
          (λ _, Ok {| columns := Examples.csv_columns; rows := [] |})
          "vazio.csv") = Raise KeyError)
  ∧ ("alertas_lista" ∉ Examples.csv_columns →
     DataProcessor.get_ethical_alerts_count
       (@DataProcessor._load_data latin1
          (λ _, Ok {| columns := Examples.csv_columns; rows := [] |})
          "vazio.csv") = Raise KeyError).
Proof.
  apply (@load_data_header_only latin1
           (λ _, Ok {| columns := Examples.csv_columns; rows := [] |})
           "vazio.csv" Examples.csv_columns); done.
Defined.

(** ** The primary filters, further *)

(** X5. On a view, a search text that is not empty and has none of the
    special characters [. ^ $ * + ? { } [ ] \ | ( )] keeps exactly the
    records whose summary contains the text, case ignored, in the order of
    the view; the empty text keeps every record. *)
Theorem search_text_substring `{Unicode} (V : DataFrame) (s : pystr) :
  Spec.normalized_view V → Forall (λ c, Re.special c = false) s →
  ∃ R, FilterManager.apply_filters V (Spec.search_filter s) = Ok R
       ∧ columns R = columns V
       ∧ rows R `sublist_of` rows V
       ∧ (s = [] → R = V)
       ∧ (s ≠ [] → ∀ r, r ∈ rows R ↔
            r ∈ rows V
            ∧ ∃ t, r !! "ideia_resumo" = Some (Str t) ∧ Spec.icontains s t).
Proof.
  intros HV Hs. destruct (decide (s = [])) as [->|Hne].
  - exists V. rewrite (search_text_empty V HV). by split_and!.
  - destruct (search_text_plain V s HV Hne Hs) as (R & HR & Hc & Hsub & Hrows).
    exists R. by split_and!.
Qed.

Lemma search_text_substring_witness :
  ∃ R, Examples.filtered Examples.survey (Spec.search_filter (py "ESTUDO"))
       = Ok R
       ∧ columns R = columns Examples.survey
       ∧ rows R `sublist_of` rows Examples.survey
       ∧ (py "ESTUDO" = [] → R = Examples.survey)
       ∧ (py "ESTUDO" ≠ [] → ∀ r, r ∈ rows R ↔
            r ∈ rows Examples.survey
            ∧ ∃ t, r !! "ideia_resumo" = Some (Str t)
                   ∧ @Spec.icontains latin1 (py "ESTUDO") t).
Proof.
  apply (@search_text_substring latin1 Examples.survey (py "ESTUDO")).
  - apply (bool_decide_unpack _). by vm_compute.
  - apply (bool_decide_unpack _). by vm_compute.
Defined.

(** Searching the survey for 'ESTUDO' finds the idea that says 'Estudo'. *)
Example survey_search :
  Spec.summaries <$> Examples.filtered Examples.survey
                       (Spec.search_filter (py "ESTUDO"))
  = Ok [py "Rede social para Estudo em grupo"].
Proof. by vm_compute. Qed.


Section FiltersOnViews.
Context `{Unicode}.
Import FilterManager.




End FiltersOnViews.






Section AlertChoice.
Context `{Unicode}.
Import FilterManager.


End AlertChoice.



(** ** The advanced filters on any frame *)

Section AdvancedOnFrames.
Import FilterManager.


Lemma num_features_insert r v :
  num_features (<["num_features" := v]> r) = num_features r.
Proof.
  unfold num_features, rn_features. do 2 f_equal. apply filter_ext_in.
  intros c Hc. unfold cell_at. rewrite lookup_insert_ne; [done|].
  intros <-. not_in_list Hc.
Qed.


End AdvancedOnFrames.


(** The frame without columns has no feature column to count. *)
Example advanced_filters_empty_frame :
  FilterManager.apply_advanced_filters empty_frame Examples.full_range
  = Raise KeyError.
Proof. by vm_compute. Qed.

(** ** The filters of the sidebar *)

Section SidebarFilters.
Import FilterManager Sidebar.

Lemma unique_loop_elem_of (col seen : list cell) x :
  x ∈ foldl (λ seen x, if decide (x ∈ seen) then seen else seen ++ [x])
            seen col
  ↔ x ∈ seen ∨ x ∈ col.
Proof.
  revert seen. induction col as [|y col IH]; intros seen; cbn [foldl].
  - rewrite elem_of_nil. tauto.
  - rewrite IH, elem_of_cons. destruct (decide (y ∈ seen)) as [Hy|Hy].
    + split; [tauto|]. intros [?|[->|?]]; tauto.
    + rewrite elem_of_app, list_elem_of_singleton. tauto.
Qed.

Lemma unique_elem_of col l x : unique col = Ok l → x ∈ l ↔ x ∈ col.
Proof.
  unfold unique. destruct (existsb is_list col); [done|]. intros [= <-].
  rewrite unique_loop_elem_of, elem_of_nil. tauto.
Qed.

Lemma unique_texts col :
  Forall (λ x, ∃ s, x = Str s) col → ∃ l, unique col = Ok l.
Proof.
  intros Hcol. unfold unique.
  replace (existsb is_list col) with false; [by eexists|].
  symmetry. apply not_true_is_false. intros (x & Hx%list_elem_of_In & Hl)%existsb_exists.
  rewrite Forall_forall in Hcol. destruct (Hcol x Hx) as [s ->]. done.
Qed.

Lemma sorted_texts (l : list cell) :
  Forall (λ x, ∃ s, x = Str s) l →
  ∃ ss, sorted l = Ok ss ∧ ∀ s, s ∈ ss ↔ Str s ∈ l.
Proof.
  intros Hl. unfold sorted.
  assert (Hm : ∃ ss, mapM (λ x, match x with Str s => Some s | _ => None end) l
                     = Some ss ∧ l = Str <$> ss).
  { induction Hl as [|x l [s ->] _ (ss & IH & ->)]; [by exists []|].
    exists (s :: ss). cbn. by rewrite IH. }
  destruct Hm as (ss & -> & ->). eexists. split; [done|]. intros s.
  rewrite merge_sort_Permutation. rewrite list_elem_of_fmap. split.
  - intros Hs. by exists s.
  - by intros (s' & [= ->] & Hs).
Qed.

Lemma tick_loop ui (fs acc : list string) :
  Forall (λ f, ∃ label, label_of f = Ok label) fs →
  foldM (tick ui) fs acc = Ok (acc ++ filter (ticked ui) fs).
Proof.
  intros Hfs. revert acc.
  induction Hfs as [|f fs [label Hf] _ IH]; intros acc; cbn [foldM].
  - by rewrite app_nil_r.
  - assert (Ht : tick ui acc f
                 = Ok (if checkbox ui label then acc ++ [f] else acc))
      by (unfold tick; by rewrite Hf).
    rewrite Ht. clear Ht. cbn [mbind result_bind]. rewrite IH.
    rewrite filter_cons.
    destruct (decide (ticked ui f)) as [Ht|Ht]; unfold ticked in Ht;
      rewrite Hf in Ht.
    + rewrite Ht. by rewrite <- app_assoc.
    + apply not_true_is_false in Ht. by rewrite Ht.
Qed.

Lemma rn_features_labels :
  Forall (λ f, ∃ label, label_of f = Ok label) rn_features.
Proof. repeat constructor; eexists; vm_compute; reflexivity. Qed.

Lemma view_complexities V :
  Spec.normalized_view V →
  Forall (λ x, ∃ s, x = Str s) (map (λ r, cell_at r "Complexidade") (rows V)).
Proof.
  intros (_ & _ & Hrows). apply Forall_fmap. eapply Forall_impl; [exact Hrows|].
  intros r Hr. destruct (normalized_row_text r "Complexidade" Hr) as [s Hs].
  { in_list. }
  exists s. cbn. by apply cell_at_Str.
Qed.

Lemma create_sidebar_filters_view ui V :
  Spec.normalized_view V →
  ∃ levels,
    (∀ s, s ∈ levels ↔ ∃ r, r ∈ rows V ∧ r !! "Complexidade" = Some (Str s))
    ∧ create_sidebar_filters ui V
      = Ok {| complexidade := selectbox ui (py "Nível de Complexidade:")
                                (py "Todos" :: levels);
              recursos := filter (ticked ui) rn_features;
              com_alertas :=
                selectbox ui (py "Alertas Éticos/Legais:")
                  [py "Todos"; py "Apenas com alertas";
                   py "Apenas sem alertas"];
              busca_texto := text_input ui (py "🔍 Buscar por palavra-chave:")
           |}.
Proof.
  intros HV. pose proof (view_complexities V HV) as Hcol.
  destruct (unique_texts _ Hcol) as [l Hl].
  assert (Hl' : Forall (λ x, ∃ s, x = Str s) l).
  { rewrite Forall_forall in Hcol. apply Forall_forall. intros x Hx.
    apply Hcol. by apply (unique_elem_of _ l x Hl). }
  destruct (sorted_texts l Hl') as (levels & Hs & Hlevels).
  exists levels. split.
  - intros s. rewrite Hlevels, (unique_elem_of _ l _ Hl), list_elem_of_fmap.
    split.
    + intros (r & Heq & Hr). exists r. split; [done|]. by apply cell_at_Str.
    + intros (r & Hr & Heq). exists r. split; [|done]. symmetry.
      by apply cell_at_Str.
  - unfold create_sidebar_filters. rewrite df_col_Ok.
    2:{ destruct HV as (Hcols & _). rewrite Forall_forall in Hcols.
        apply Hcols. in_list. }
    cbn [mbind result_bind]. rewrite Hl. cbn [mbind result_bind].
    rewrite Hs. cbn [mbind result_bind]. cbv zeta.
    rewrite (tick_loop ui _ [] rn_features_labels). cbn [mbind result_bind].
    done.
Qed.

End SidebarFilters.

Lemma picks_untouched : Sidebar.picks Sidebar.untouched.
Proof.
  intros label [|o options] Hne; [done|]. cbn. apply list_elem_of_here.
Qed.


(** X10. On a view, [create_sidebar_filters] returns; the required
    features it gives are the ticked ones among the five feature columns,
    in their order, so all of them are columns of the view; and when each
    select box gives one of its options, the complexity chosen is 'Todos'
    or the complexity of a record of the view, and the choice on alerts is
    one of the three options. *)
Theorem sidebar_filters_view (ui : Sidebar.Widgets) (V : DataFrame) :
  Spec.normalized_view V →
  ∃ F, Sidebar.create_sidebar_filters ui V = Ok F
       ∧ FilterManager.recursos F `sublist_of` FilterManager.rn_features
       ∧ FilterManager.recursos F
         = filter (Sidebar.ticked ui) FilterManager.rn_features
       ∧ Forall (λ c, c ∈ columns V) (FilterManager.recursos F)
       ∧ (Sidebar.picks ui →
          (FilterManager.complexidade F = py "Todos"
           ∨ ∃ r, r ∈ rows V
                  ∧ r !! "Complexidade"
                    = Some (Str (FilterManager.complexidade F)))
          ∧ FilterManager.com_alertas F
            ∈ [py "Todos"; py "Apenas com alertas";
               py "Apenas sem alertas"]).
Proof.
  intros HV.
  destruct (create_sidebar_filters_view ui V HV) as (levels & Hlevels & ->).
  eexists. split; [done|].
  cbn [FilterManager.recursos FilterManager.complexidade
       FilterManager.com_alertas].
  split_and!.
  - apply sublist_filter.
  - done.
  - apply Forall_forall. intros c [_ Hc]%list_elem_of_filter.
    destruct HV as (Hcols & _). rewrite Forall_forall in Hcols.
    apply Hcols. in_list_from Hc.
  - intros Hpicks. split.
    + pose proof (Hpicks (py "Nível de Complexidade:") (py "Todos" :: levels))
        as Hin.
      apply elem_of_cons in Hin as [Hin|Hin]; [by left | | done].
      right. by apply Hlevels.
    + by apply Hpicks.
Qed.

Lemma sidebar_filters_view_witness :
  ∃ F, Sidebar.create_sidebar_filters Sidebar.last_level_camera
         Examples.survey = Ok F
       ∧ FilterManager.recursos F `sublist_of` FilterManager.rn_features
       ∧ FilterManager.recursos F
         = filter (Sidebar.ticked Sidebar.last_level_camera)
                  FilterManager.rn_features
       ∧ Forall (λ c, c ∈ columns Examples.survey) (FilterManager.recursos F)
       ∧ (Sidebar.picks Sidebar.last_level_camera →
          (FilterManager.complexidade F = py "Todos"
           ∨ ∃ r, r ∈ rows Examples.survey
                  ∧ r !! "Complexidade"
                    = Some (Str (FilterManager.complexidade F)))
          ∧ FilterManager.com_alertas F
            ∈ [py "Todos"; py "Apenas com alertas";
               py "Apenas sem alertas"]).
Proof.
  apply (sidebar_filters_view Sidebar.last_level_camera Examples.survey).
  apply (bool_decide_unpack _). by vm_compute.
Defined.



(** The options on offer for the survey, and what the user who leaves
    the widgets alone gets. *)
Example survey_sidebar :
  Sidebar.create_sidebar_filters Sidebar.untouched Examples.survey
  = Ok Spec.no_filter
  ∧ FilterManager.recursos Sidebar.survey_choice = ["RN_camera"].
Proof. by vm_compute. Qed.

(** ** Counting the values of a column *)

Section Counting.
Context {A : Type} `{EqDecision A}.
Implicit Types (t : list (A * nat)) (l : list A).

Lemma keys_bump x t :
  (bump x t).*1 = if decide (x ∈ t.*1) then t.*1 else t.*1 ++ [x].
Proof.
  induction t as [|[y n] t IH]; cbn [bump fmap list_fmap fst].
  - by rewrite decide_False by apply not_elem_of_nil.
  - destruct (decide (y = x)) as [->|Hy].
    + by rewrite decide_True by apply list_elem_of_here.
    + cbn [fmap list_fmap fst]. fold (fmap (M:=list) (@fst A nat)).
      rewrite IH. destruct (decide (x ∈ t.*1)) as [Hx|Hx].
      * by rewrite decide_True by (by apply list_elem_of_further).
      * rewrite decide_False; [done|].
        intros [?|?]%elem_of_cons; simplify_eq; done.
Qed.

Lemma held_bump x t y :
  Counts.held (bump x t) y
  = if decide (y = x) then S (Counts.held t x) else Counts.held t y.
Proof.
  induction t as [|[z n] t IH]; cbn [bump Counts.held].
  - repeat case_decide; congruence.
  - destruct (decide (z = x)) as [->|Hz]; cbn [Counts.held].
    + repeat case_decide; congruence.
    + rewrite IH. repeat case_decide; congruence.
Qed.

Lemma total_bump x t : Counts.total (bump x t) = S (Counts.total t).
Proof.
  unfold Counts.total. induction t as [|[y n] t IH]; cbn [bump]; [done|].
  destruct (decide (y = x)); [done|]. cbn. cbn in IH. rewrite IH. lia.
Qed.

Lemma elem_of_held t x n :
  NoDup (t.*1) → (x, n) ∈ t ↔ x ∈ t.*1 ∧ Counts.held t x = n.
Proof.
  induction t as [|[y m] t IH]; intros Hnd.
  - cbn. rewrite !elem_of_nil. tauto.
  - cbn in Hnd. apply NoDup_cons in Hnd as [Hy Hnd].
    cbn [fmap list_fmap fst Counts.held].
    fold (fmap (M:=list) (@fst A nat)).
    rewrite !elem_of_cons, (IH Hnd). destruct (decide (y = x)) as [->|Hne].
    + split.
      * intros [[= <-]|[Hx _]]; [auto|done].
      * intros [_ <-]. by left.
    + split.
      * intros [[= <- <-]|[Hx Hh]]; [done|auto].
      * intros [[<-|Hx] Hh]; [done|auto].
Qed.

Lemma tally_loop l t :
  let t' := fold_left (λ t x, bump x t) l t in
  (NoDup (t.*1) → NoDup (t'.*1))
  ∧ (∀ x, x ∈ t'.*1 ↔ x ∈ t.*1 ∨ x ∈ l)
  ∧ (∀ x, Counts.held t' x = (Counts.held t x + Counts.occurrences x l)%nat)
  ∧ Counts.total t' = (Counts.total t + length l)%nat.
Proof.
  revert t. induction l as [|y l IH]; intros t; cbn [fold_left].
  - cbn zeta. split_and!; [done | | |].
    + intros x. rewrite elem_of_nil. tauto.
    + intros x. unfold Counts.occurrences. cbn. lia.
    + cbn. lia.
  - destruct (IH (bump y t)) as (IH1 & IH2 & IH3 & IH4). cbn zeta.
    split_and!.
    + intros Hnd. apply IH1. rewrite keys_bump.
      destruct (decide (y ∈ t.*1)); [done|].
      apply NoDup_app. split_and!; [done | | apply NoDup_singleton].
      intros x Hx ->%list_elem_of_singleton. done.
    + intros x. rewrite IH2, keys_bump, elem_of_cons.
      destruct (decide (y ∈ t.*1)) as [Hy|Hy].
      * split; [tauto|]. intros [?|[->|?]]; tauto.
      * rewrite elem_of_app, list_elem_of_singleton. tauto.
    + intros x. rewrite IH3, held_bump. unfold Counts.occurrences.
      rewrite filter_cons. destruct (decide (x = y)) as [->|Hne].
      * rewrite decide_True by done. cbn. lia.
      * rewrite decide_False by done. done.
    + rewrite IH4, total_bump. cbn. lia.
Qed.

Lemma occurrences_pos x l : x ∈ l ↔ (0 < Counts.occurrences x l)%nat.
Proof.
  unfold Counts.occurrences. induction l as [|y l IH].
  - cbn. rewrite elem_of_nil. lia.
  - rewrite filter_cons, elem_of_cons. destruct (decide (y = x)) as [->|Hne].
    + cbn. split; [lia | auto].
    + rewrite <- IH. split; [intros [->|?]; done | auto].
Qed.

Lemma total_Permutation t t' : t ≡ₚ t' → Counts.total t = Counts.total t'.
Proof.
  unfold Counts.total.
  induction 1 as [|[x n] t1 t2 _ IH|[x n] [y m] t1|t1 t2 t3 _ IH1 _ IH2];
    cbn in *; lia.
Qed.

#[local] Instance more_often_trans : Transitive (@more_often A).
Proof. intros a b c. unfold more_often. lia. Qed.

#[local] Instance more_often_total : Total (@more_often A).
Proof. intros a b. unfold more_often. lia. Qed.

(** The table that [value_counts] gives: one entry for each value that
    occurs, with its number of occurrences, the larger counts first. *)
Lemma counts_desc_spec l :
  NoDup ((counts_desc l).*1)
  ∧ (∀ x n, (x, n) ∈ counts_desc l
            ↔ x ∈ l ∧ n = Counts.occurrences x l)
  ∧ Counts.total (counts_desc l) = length l
  ∧ StronglySorted more_often (counts_desc l).
Proof.
  pose proof (merge_sort_Permutation more_often (tally l)) as Hperm.
  fold (counts_desc l) in Hperm.
  destruct (tally_loop l []) as (H1 & H2 & H3 & H4). cbn zeta in *.
  fold (tally l) in H1, H2, H3, H4.
  assert (Hnd : NoDup ((tally l).*1)) by (apply H1; constructor).
  split_and!.
  - by rewrite Hperm.
  - intros x n. rewrite Hperm, (elem_of_held _ _ _ Hnd), H2, H3.
    cbn. rewrite elem_of_nil. split; [intros [[[]|?] <-]; done|].
    intros [? ->]. auto.
  - rewrite (total_Permutation _ _ Hperm), H4. done.
  - apply (StronglySorted_merge_sort _).
Qed.

End Counting.

(** ** The aggregation queries, further *)

Lemma occurrences_column (l : list row) c s :
  Counts.occurrences (Str s) (map (λ r, cell_at r c) l)
  = length (filter (λ r, r !! c = Some (Str s)) l).
Proof.
  unfold Counts.occurrences. rewrite filter_map, length_map. f_equal.
  apply filter_ext_in. intros r _. apply cell_at_Str.
Qed.

(** X12. On a view, the complexity distribution has one entry for each
    complexity level that a record has, with the number of records of
    that level, never 0; the counts add up to the number of records; and
    the larger counts come first. *)
Theorem complexity_distribution_counts (V : DataFrame) :
  Spec.normalized_view V →
  ∃ d, DataProcessor.get_complexity_distribution V = Ok d
       ∧ NoDup (d.*1)
       ∧ (∀ x n, (x, n) ∈ d ↔
            ∃ s, x = Str s ∧ (0 < n)%nat
                 ∧ n = length (filter (λ r, r !! "Complexidade"
                                            = Some (Str s)) (rows V)))
       ∧ Counts.total d = length (rows V)
       ∧ StronglySorted more_often d.
Proof.
  intros HV. rewrite (get_complexity_distribution_view V HV).
  pose proof (view_complexities V HV) as Hcol.
  rewrite (filter_all (λ x, x ≠ NaN)).
  2:{ rewrite Forall_forall in Hcol. intros x [s ->]%Hcol. done. }
  destruct (counts_desc_spec (map (λ r, cell_at r "Complexidade") (rows V)))
    as (Hnd & Hin & Htot & Hsort).
  eexists. split; [done|]. split_and!; [done | | | done].
  - intros x n. rewrite Hin. split.
    + intros [Hx ->]. rewrite Forall_forall in Hcol.
      destruct (Hcol x Hx) as [s ->]. exists s. split; [done|].
      split; [by apply occurrences_pos | apply occurrences_column].
    + intros (s & -> & Hpos & ->). rewrite <- occurrences_column in Hpos |- *.
      split; [by apply occurrences_pos | done].
  - by rewrite Htot, length_map.
Qed.

Lemma complexity_distribution_counts_witness :
  ∃ d, DataProcessor.get_complexity_distribution Examples.survey = Ok d
       ∧ NoDup (d.*1)
       ∧ (∀ x n, (x, n) ∈ d ↔
            ∃ s, x = Str s ∧ (0 < n)%nat
                 ∧ n = length (filter (λ r, r !! "Complexidade"
                                            = Some (Str s))
                                      (rows Examples.survey)))
       ∧ Counts.total d = length (rows Examples.survey)
       ∧ StronglySorted more_often d.
Proof.
  apply (complexity_distribution_counts Examples.survey).
  apply (bool_decide_unpack _). by vm_compute.
Defined.

Lemma elem_of_concat {A : Type} (x : A) (ls : list (list A)) :
  x ∈ concat ls ↔ ∃ l, x ∈ l ∧ l ∈ ls.
Proof.
  induction ls as [|k ls IH]; cbn [concat].
  - rewrite elem_of_nil. split; [done|]. by intros (l & _ & ?%elem_of_nil).
  - rewrite elem_of_app, IH. split.
    + intros [Hx|(l & Hx & Hl)].
      * exists k. split; [done | apply list_elem_of_here].
      * exists l. split; [done | by apply list_elem_of_further].
    + intros (l & Hx & [->|Hl]%elem_of_cons); [by left|].
      right. by exists l.
Qed.

Lemma concat_all_nil {A B : Type} (seq : B → list A) (l : list B) :
  Forall (λ r, seq r = []) l → concat (map seq l) = [].
Proof. induction 1 as [|r l Hr _ IH]; [done|]. cbn. by rewrite Hr, IH. Qed.

Lemma occurrences_concat {A : Type} `{EqDecision A} (x : A) (ls : list (list A)) :
  Counts.occurrences x (concat ls)
  = sum_list (Counts.occurrences x <$> ls).
Proof.
  unfold Counts.occurrences. induction ls as [|l ls IH]; [done|].
  cbn [concat fmap list_fmap sum_list sum_list_with].
  rewrite filter_app, length_app. cbn in IH. by rewrite IH.
Qed.

Lemma occurrences_NoDup {A : Type} `{EqDecision A} (x : A) (l : list A) :
  NoDup l → Counts.occurrences x l = if decide (x ∈ l) then 1%nat else 0%nat.
Proof.
  unfold Counts.occurrences. induction 1 as [|y l Hy _ IH]; [done|].
  rewrite filter_cons. destruct (decide (y = x)) as [->|Hne]; cbn [length];
    rewrite IH.
  - rewrite decide_False by done.
    by rewrite decide_True by apply list_elem_of_here.
  - destruct (decide (x ∈ l)) as [Hx|Hx].
    + by rewrite decide_True by (by apply list_elem_of_further).
    + rewrite decide_False; [done|].
      intros [?|?]%elem_of_cons; simplify_eq; done.
Qed.

Lemma occurrences_records {A : Type} `{EqDecision A} (x : A)
    (seq : row → list A) (l : list row) :
  Forall (λ r, NoDup (seq r)) l →
  Counts.occurrences x (concat (map seq l))
  = length (filter (λ r, x ∈ seq r) l).
Proof.
  induction 1 as [|r l Hr _ IH]; [done|].
  unfold Counts.occurrences in *. cbn [map concat].
  rewrite filter_app, length_app, IH, filter_cons.
  fold (Counts.occurrences x (seq r)). rewrite (occurrences_NoDup x _ Hr).
  by destruct (decide (x ∈ seq r)).
Qed.

(** X13. On a view, the count of ethical alerts has one entry for each
    alert that a record lists, with the number of times it is listed in
    all the records, the larger counts first; the counts add up to the
    number of alerts listed; the result is empty exactly when no record
    lists an alert; and when no record lists an alert twice, the count of
    an alert is the number of records that list it. *)
Theorem ethical_alerts_counts (V : DataFrame) :
  Spec.normalized_view V →
  ∃ d, DataProcessor.get_ethical_alerts_count V = Ok d
       ∧ NoDup (d.*1)
       ∧ (∀ a n, (a, n) ∈ d ↔
            (0 < n)%nat
            ∧ n = Counts.occurrences a (concat (Spec.alerts <$> rows V)))
       ∧ Counts.total d = sum_list (length ∘ Spec.alerts <$> rows V)
       ∧ StronglySorted more_often d
       ∧ (d = [] ↔ Forall (λ r, Spec.alerts r = []) (rows V))
       ∧ (Forall (λ r, NoDup (Spec.alerts r)) (rows V) →
          ∀ a n, (a, n) ∈ d →
                 n = length (filter (λ r, a ∈ Spec.alerts r) (rows V))).
Proof.
  intros HV. rewrite (get_ethical_alerts_count_view V HV).
  destruct (counts_desc_spec (concat (map Spec.alerts (rows V))))
    as (Hnd & Hin & Htot & Hsort).
  eexists. split; [done|]. split_and!; [done | | | done | |].
  - intros a n. rewrite Hin, occurrences_pos. split.
    + by intros [Hpos ->].
    + by intros [Hpos ->].
  - rewrite Htot. generalize (rows V). intros l.
    induction l as [|r l IH]; [done|]. cbn. rewrite length_app. cbn in IH.
    by rewrite IH.
  - split.
    + intros Hnil. apply Forall_forall. intros r Hr.
      destruct (Spec.alerts r) as [|a l] eqn:Ha; [done|].
      assert (Hd : (a, Counts.occurrences a (concat (map Spec.alerts (rows V))))
                   ∈ counts_desc (concat (map Spec.alerts (rows V)))).
      { apply Hin. split; [|done]. apply elem_of_concat.
        exists (Spec.alerts r). split; [rewrite Ha; apply list_elem_of_here|].
        apply list_elem_of_fmap. by exists r. }
      rewrite Hnil in Hd. by apply elem_of_nil in Hd.
    + intros Hall.
      by rewrite (concat_all_nil _ _ Hall).
  - intros Hnodup a n [_ ->]%Hin. by apply occurrences_records.
Qed.

Lemma ethical_alerts_counts_witness :
  ∃ d, DataProcessor.get_ethical_alerts_count Examples.alerts_view = Ok d
       ∧ NoDup (d.*1)
       ∧ (∀ a n, (a, n) ∈ d ↔
            (0 < n)%nat
            ∧ n = Counts.occurrences a
                    (concat (Spec.alerts <$> rows Examples.alerts_view)))
       ∧ Counts.total d
         = sum_list (length ∘ Spec.alerts <$> rows Examples.alerts_view)
       ∧ StronglySorted more_often d
       ∧ (d = [] ↔ Forall (λ r, Spec.alerts r = [])
                          (rows Examples.alerts_view))
       ∧ (Forall (λ r, NoDup (Spec.alerts r)) (rows Examples.alerts_view) →
          ∀ a n, (a, n) ∈ d →
                 n = length (filter (λ r, a ∈ Spec.alerts r)
                                    (rows Examples.alerts_view))).
Proof.
  apply (ethical_alerts_counts Examples.alerts_view).
  apply (bool_decide_unpack _). by vm_compute.
Defined.

(** X14. On a view, the count of similar apps holds at most ten entries,
    each an app that a record lists with the number of times it is listed,
    the larger counts first; an app that is listed and not shown is listed
    no more often than any app shown, and then ten are shown; with ten
    distinct apps or fewer, every app listed is shown. *)
Theorem similar_apps_top_ten (V : DataFrame) :
  Spec.normalized_view V →
  ∃ top, DataProcessor.get_apps_semelhantes_count V = Ok top
         ∧ (length top ≤ 10)%nat
         ∧ NoDup (top.*1)
         ∧ StronglySorted more_often top
         ∧ (∀ a n, (a, n) ∈ top →
              (0 < n)%nat
              ∧ n = Counts.occurrences a
                      (concat (Spec.similar_apps <$> rows V)))
         ∧ (∀ a, a ∈ concat (Spec.similar_apps <$> rows V) → a ∉ top.*1 →
              length top = 10%nat
              ∧ ∀ b m, (b, m) ∈ top →
                  (Counts.occurrences a
                     (concat (Spec.similar_apps <$> rows V)) ≤ m)%nat).
Proof.
  intros HV. rewrite (get_apps_semelhantes_count_view V HV).
  set (all := concat (map Spec.similar_apps (rows V))).
  change (concat (Spec.similar_apps <$> rows V)) with all.
  destruct (counts_desc_spec all) as (Hnd & Hin & Htot & Hsort).
  pose proof (take_drop 10 (counts_desc all)) as Hsplit.
  eexists. split; [done|]. split_and!.
  - rewrite length_take. lia.
  - rewrite <- Hsplit, fmap_app in Hnd. by apply NoDup_app in Hnd as [? _].
  - rewrite <- Hsplit in Hsort. by apply StronglySorted_app in Hsort as (_ & ? & _).
  - intros a n Htop. assert (Hd : (a, n) ∈ counts_desc all).
    { rewrite <- Hsplit. apply elem_of_app. by left. }
    apply Hin in Hd as [Ha ->]. split; [by apply occurrences_pos | done].
  - intros a Ha Hout.
    assert (Hd : (a, Counts.occurrences a all) ∈ counts_desc all)
      by (by apply Hin).
    rewrite <- Hsplit in Hd. apply elem_of_app in Hd as [Hd|Hd].
    { destruct Hout. apply list_elem_of_fmap. by eexists (_, _). }
    split.
    + rewrite length_take. apply Nat.min_l.
      destruct (decide (10 ≤ length (counts_desc all))%nat) as [|Hlt]; [done|].
      rewrite drop_ge in Hd by lia. by apply elem_of_nil in Hd.
    + intros b m Hb. rewrite <- Hsplit in Hsort.
      apply (StronglySorted_app_1_elem_of _ _ _ _ _ Hsort Hb Hd).
Qed.

Lemma similar_apps_top_ten_witness :
  ∃ top, DataProcessor.get_apps_semelhantes_count Examples.survey = Ok top
         ∧ (length top ≤ 10)%nat
         ∧ NoDup (top.*1)
         ∧ StronglySorted more_often top
         ∧ (∀ a n, (a, n) ∈ top →
              (0 < n)%nat
              ∧ n = Counts.occurrences a
                      (concat (Spec.similar_apps <$> rows Examples.survey)))
         ∧ (∀ a, a ∈ concat (Spec.similar_apps <$> rows Examples.survey) →
              a ∉ top.*1 →
              length top = 10%nat
              ∧ ∀ b m, (b, m) ∈ top →
                  (Counts.occurrences a
                     (concat (Spec.similar_apps <$> rows Examples.survey))
                   ≤ m)%nat).
Proof.
  apply (similar_apps_top_ten Examples.survey).
  apply (bool_decide_unpack _). by vm_compute.
Defined.

Lemma double_count {R C : Type} (P : R → C → Prop)
    `{!∀ r c, Decision (P r c)} (l : list R) (cs : list C) :
  sum_list ((λ c, length (filter (λ r, P r c) l)) <$> cs)
  = sum_list ((λ r, length (filter (P r) cs)) <$> l).
Proof.
  induction l as [|r l IH].
  - cbn. induction cs as [|c cs IHc]; [done|]. cbn. by rewrite IHc.
  - rewrite fmap_cons. cbn [sum_list sum_list_with]. rewrite <- IH. clear IH.
    induction cs as [|c cs IHc]; [done|].
    rewrite !fmap_cons. cbn [sum_list sum_list_with].
    rewrite IHc, !filter_cons. unfold id.
    destruct (decide (P r c)); cbn [length]; lia.
Qed.

(** X15. On a view, the feature usage has the five names 'Camera', 'Maps',
    'Notificacoes', 'Autenticacao', 'Pagamentos' in this order, no count
    above the number of records, and the counts add up to the sum of the
    feature counts of the points that [get_complexity_vs_features] gives:
    the two queries count the same flags. *)
Theorem feature_usage_total (V : DataFrame) :
  Spec.normalized_view V →
  ∃ u p, DataProcessor.get_rn_features_usage V = Ok u
         ∧ DataProcessor.get_complexity_vs_features V = Ok p
         ∧ u.*1 = ["Camera"; "Maps"; "Notificacoes"; "Autenticacao";
                   "Pagamentos"]
         ∧ Forall (λ kv, (kv.2 ≤ length (rows V))%nat) u
         ∧ Counts.total u
           = sum_list (DataProcessor.recursos_necessarios <$> p)
         ∧ length p = length (rows V).
Proof.
  intros HV. rewrite get_rn_features_usage_view.
  2:{ apply Forall_forall. intros c Hc.
      apply (normalized_view_column V c HV). in_list_from Hc. }
  rewrite (get_complexity_vs_features_view V HV).
  eexists _, _. split; [done|]. split; [done|]. split_and!.
  - done.
  - apply Forall_fmap, Forall_forall. intros nc _. cbn.
    unfold Spec.feature_use. apply length_filter.
  - unfold Counts.total. rewrite <- !list_fmap_compose.
    etrans; [|etrans; [apply (double_count Spec.affirmative (rows V)
                               (Spec.feature_names.*2))|]].
    + by rewrite <- list_fmap_compose.
    + done.
  - by rewrite length_map.
Qed.

Lemma feature_usage_total_witness :
  ∃ u p, DataProcessor.get_rn_features_usage Examples.survey = Ok u
         ∧ DataProcessor.get_complexity_vs_features Examples.survey = Ok p
         ∧ u.*1 = ["Camera"; "Maps"; "Notificacoes"; "Autenticacao";
                   "Pagamentos"]
         ∧ Forall (λ kv, (kv.2 ≤ length (rows Examples.survey))%nat) u
         ∧ Counts.total u
           = sum_list (DataProcessor.recursos_necessarios <$> p)
         ∧ length p = length (rows Examples.survey).
Proof.
  apply (feature_usage_total Examples.survey).
  apply (bool_decide_unpack _). by vm_compute.
Defined.

(** ** The data of the figures *)

Section Treemap.
Import Viz.

(** The colours of the first [k] tiles after [n] tiles. *)
Lemma cycle_CHART_COLORS n :
  ∃ c, cycle CHART_COLORS n = Some c ∧ CHART_COLORS !! (n mod 10)%nat = Some c.
Proof.
  unfold cycle. change (length CHART_COLORS) with 10%nat.
  rewrite decide_False by done.
  destruct (lookup_lt_is_Some_2 CHART_COLORS (n mod 10)%nat) as [c Hc].
  { change (length CHART_COLORS) with 10%nat. apply Nat.mod_upper_bound. done. }
  by exists c.
Qed.

Lemma treemap_loop (data : list (pystr * list pystr)) (t : tiles) :
  ∃ t', foldl (λ acc item, t ← acc; add_tile t item) (Some t) data = Some t'
        ∧ labels t' = labels t ++ (sizes data).*1
        ∧ values t' = values t ++ (sizes data).*2
        ∧ parents t' = parents t ++ replicate (length (sizes data)) []
        ∧ Forall2 (λ i c, CHART_COLORS !! (S i mod 10)%nat = Some c)
            (seq (length (labels t)) (length (sizes data)))
            (drop (length (colors t)) (colors t'))
        ∧ take (length (colors t)) (colors t') = colors t.
Proof.
  revert t. induction data as [|[category apps] data IH]; intros t.
  - exists t. cbn. rewrite !app_nil_r, drop_all, firstn_all. by split_and!.
  - cbn [foldl mbind option_bind]. unfold add_tile at 2, sizes.
    cbn [fst snd omap list_omap]. fold (sizes data).
    destruct (decide (apps ≠ [])) as [Hne|He].
    + destruct (cycle_CHART_COLORS (length (labels t ++ [category])))
        as (c & -> & Hc).
      cbn [mbind option_bind].
      destruct (IH {| labels := labels t ++ [category];
                      parents := parents t ++ [[]];
                      values := values t ++ [length apps];
                      colors := colors t ++ [c] |})
        as (t' & -> & Hl & Hv & Hp & Hcol & Htake).
      cbn [labels values parents colors] in *.
      exists t'. rewrite Hl, Hv, Hp, <- !app_assoc. cbn [fmap list_fmap fst snd
        app length replicate seq].
      rewrite length_app in Hc. rewrite length_app in Htake.
      rewrite (length_app (labels t)), (length_app (colors t)) in Hcol.
      cbn [length] in Hcol, Hc, Htake.
      rewrite !Nat.add_1_r in Hcol. rewrite Nat.add_1_r in Hc.
      rewrite Nat.add_1_r in Htake.
      assert (Hsplit : colors t' = colors t ++ c :: drop (S (length (colors t)))
                                                     (colors t')).
      { rewrite <- (take_drop (S (length (colors t))) (colors t')) at 1.
        by rewrite Htake, <- app_assoc. }
      split_and!; [done | done | done | done | |].
      * rewrite Hsplit at 1. rewrite drop_app_length.
        constructor; [exact Hc | exact Hcol].
      * rewrite Hsplit. by rewrite take_app_length.
    + apply IH.
Qed.

Lemma sizes_positive data : Forall (λ n, (0 < n)%nat) ((sizes data).*2).
Proof.
  induction data as [|[c apps] data IH]; [constructor|].
  unfold sizes. cbn [omap list_omap snd fst]. fold (sizes data).
  destruct (decide (apps ≠ [])); [|done]. constructor; [|done].
  destruct apps; [done | cbn; lia].
Qed.

Lemma sizes_total data : sum_list ((sizes data).*2) = length (concat (data.*2)).
Proof.
  induction data as [|[c apps] data IH]; [done|].
  unfold sizes. cbn [omap list_omap snd fst fmap list_fmap concat].
  fold (sizes data). rewrite length_app.
  destruct (decide (apps ≠ [])) as [Hne|He].
  - cbn. cbn in IH. by rewrite IH.
  - apply dec_stable in He. subst apps. cbn. cbn in IH. by rewrite IH.
Qed.

Lemma sizes_nil data : sizes data = [] ↔ Forall (λ item, item.2 = []) data.
Proof.
  induction data as [|[c apps] data IH].
  - split; [constructor | done].
  - unfold sizes. cbn [omap list_omap snd fst]. fold (sizes data).
    destruct (decide (apps ≠ [])) as [Hne|He].
    + split; [done|]. by intros [? _]%Forall_cons.
    + apply dec_stable in He. subst apps. rewrite IH. split.
      * by constructor.
      * by intros [_ ?]%Forall_cons.
Qed.

Lemma colours_NoDup n (cs : list string) :
  (n ≤ 10)%nat →
  Forall2 (λ i c, CHART_COLORS !! (S i mod 10)%nat = Some c) (seq 0 n) cs →
  NoDup cs.
Proof.
  intros Hn Hcs.
  assert (Heq : cs = omap (λ i, CHART_COLORS !! (S i mod 10)%nat) (seq 0 n)).
  { revert Hcs. generalize (seq 0 n). intros l Hcs.
    induction Hcs as [|i c l cs Hc _ IH]; [done|]. cbn [omap list_omap].
    by rewrite Hc, <- IH. }
  rewrite Heq. clear Heq Hcs.
  do 11 (destruct n as [|n]; [apply (bool_decide_unpack _); by vm_compute|]).
  lia.
Qed.

Lemma treemap_figure (data : list (pystr * list pystr)) :
  ∃ cs,
    Forall2 (λ i c, CHART_COLORS !! (S i mod 10)%nat = Some c)
      (seq 0 (length (sizes data))) cs
    ∧ create_categories_treemap data
      = Some (if decide (sizes data = [])
              then Annotation (py "Nenhuma categoria com dados disponível")
              else Chart {| labels := (sizes data).*1;
                            parents := replicate (length (sizes data)) [];
                            values := (sizes data).*2;
                            colors := cs |}).
Proof.
  unfold create_categories_treemap.
  destruct (treemap_loop data
              {| labels := []; parents := []; values := []; colors := [] |})
    as (t & -> & Hl & Hv & Hp & Hcol & _).
  cbn [labels values parents colors app length drop] in *.
  cbn [mbind option_bind]. exists (colors t). split; [done|].
  assert (Hlen : length (colors t) = length (labels t)).
  { apply Forall2_length in Hcol. rewrite length_seq in Hcol.
    by rewrite Hl, length_fmap. }
  rewrite <- Hlen, firstn_all, Hl, Hv, Hp.
  destruct (decide ((sizes data).*1 = [])) as [Hnil|Hne].
  - apply fmap_nil_inv in Hnil. by rewrite decide_True.
  - rewrite decide_False; [done|]. intros Hnil. by rewrite Hnil in Hne.
Qed.

End Treemap.

(** X16. [create_categories_treemap] never raises: the index of the
    colour is always within the palette.  It shows the annotation exactly
    when every category is empty; otherwise the tiles are the categories
    that are not empty, in the order of the dictionary, each with the
    number of its apps, never 0, and with an empty parent; the values add up
    to the number of apps of all the categories; the tile number [i]
    (from 0) gets the colour number [i + 1] of the palette, the palette
    starting over after its tenth colour, so that up to ten tiles have
    colours that differ from one another. *)
Theorem treemap_tiles (categories_data : list (pystr * list pystr)) :
  ∃ fig, Viz.create_categories_treemap categories_data = Some fig
    ∧ match fig with
      | Viz.Annotation _ => Forall (λ item, item.2 = []) categories_data
      | Viz.Chart t =>
          ¬ Forall (λ item, item.2 = []) categories_data
          ∧ Viz.labels t = (Viz.sizes categories_data).*1
          ∧ Viz.values t = (Viz.sizes categories_data).*2
          ∧ Forall (λ n, (0 < n)%nat) (Viz.values t)
          ∧ sum_list (Viz.values t) = length (concat (categories_data.*2))
          ∧ Viz.parents t = replicate (length (Viz.labels t)) []
          ∧ Forall2 (λ i c, Viz.CHART_COLORS !! (S i mod 10)%nat = Some c)
              (seq 0 (length (Viz.labels t))) (Viz.colors t)
          ∧ ((length (Viz.labels t) ≤ 10)%nat → NoDup (Viz.colors t))
      end.
Proof.
  destruct (treemap_figure categories_data) as (cs & Hcs & ->).
  eexists. split; [done|].
  destruct (decide (Viz.sizes categories_data = [])) as [Hnil|Hne].
  - by apply sizes_nil.
  - cbn [Viz.labels Viz.values Viz.parents Viz.colors]. rewrite length_fmap.
    split_and!; try done.
    + by intros Hall%sizes_nil.
    + apply sizes_positive.
    + apply sizes_total.
    + intros Hle. by apply (colours_NoDup _ _ Hle).
Qed.

Lemma length_pos_elem {A : Type} (l : list A) :
  (0 < length l)%nat → ∃ x, x ∈ l.
Proof.
  destruct l as [|x l]; cbn; [lia|]. intros _. exists x. apply list_elem_of_here.
Qed.

Section AnalysisFigures.
Context `{Unicode}.
Import Viz.

Lemma analysis_buckets df :
  Forall (λ r, Spec.is_text (r !! "ideia_resumo")) (rows df) →
  Categories.get_categories_analysis df
  = Ok (Spec.buckets (λ c, filter (λ s, Spec.category_of s = c)
                             (Spec.summaries df))).
Proof.
  intros Hrows. unfold Categories.get_categories_analysis.
  rewrite categories_buckets. destruct df as [cols l].
  apply (categorize_rows_buckets l [] cols Hrows).
Qed.

Lemma summaries_text df :
  Forall (λ r, Spec.is_text (r !! "ideia_resumo")) (rows df) →
  Str <$> Spec.summaries df = (λ r, cell_at r "ideia_resumo") <$> rows df.
Proof.
  unfold Spec.summaries. induction 1 as [|r l [s Hs]%is_text_Str _ IH]; [done|].
  cbn [omap list_omap fmap list_fmap]. rewrite Hs. cbn [fmap list_fmap].
  f_equal; [|exact IH]. unfold cell_at. by rewrite Hs.
Qed.

Lemma summaries_length df :
  Forall (λ r, Spec.is_text (r !! "ideia_resumo")) (rows df) →
  length (Spec.summaries df) = length (rows df).
Proof.
  intros Hrows. rewrite <- (length_fmap Str), (summaries_text df Hrows).
  by rewrite length_fmap.
Qed.

(** The sizes of the buckets that are not empty. *)
Lemma sizes_buckets (f : pystr → list pystr) c n :
  (c, n) ∈ sizes (Spec.buckets f)
  ↔ c ∈ Spec.category_names ∧ (0 < n)%nat ∧ n = length (f c).
Proof.
  unfold Spec.buckets. generalize Spec.category_names. intros ks.
  induction ks as [|k ks IH].
  - cbn. rewrite !elem_of_nil. tauto.
  - unfold sizes. cbn [map omap list_omap fst snd]. fold (sizes (map (λ c, (c, f c)) ks)).
    rewrite elem_of_cons. destruct (decide (f k ≠ [])) as [Hne|He].
    + rewrite elem_of_cons, IH. split.
      * intros [[= -> ->]|(? & ? & ?)]; [|tauto].
        split_and!; [by left | | done]. destruct (f k); [done | cbn; lia].
      * intros ([->|Hc] & Hpos & ->); [by left | by right].
    + apply dec_stable in He. rewrite IH. split; [tauto|].
      intros ([->|Hc] & Hpos & ->); [|done]. rewrite He in Hpos. cbn in Hpos. lia.
Qed.

Lemma sizes_keys_sublist (cats : list (pystr * list pystr)) :
  (sizes cats).*1 `sublist_of` cats.*1.
Proof.
  induction cats as [|[c b] cats IH]; [done|].
  unfold sizes. cbn [omap list_omap fst snd fmap list_fmap]. fold (sizes cats).
  destruct (decide (b ≠ [])); [by apply sublist_skip | by apply sublist_cons].
Qed.

Lemma buckets_keys (f : pystr → list pystr) :
  (Spec.buckets f).*1 = Spec.category_names.
Proof.
  unfold Spec.buckets. rewrite <- list_fmap_compose. apply list_fmap_id.
Qed.

Lemma buckets_total df :
  length (concat ((Spec.buckets (λ c, filter (λ s, Spec.category_of s = c)
                                   (Spec.summaries df))).*2))
  = length (Spec.summaries df).
Proof.
  apply Permutation_length. unfold Spec.buckets.
  rewrite <- list_fmap_compose.
  apply (concat_buckets_Permutation Spec.category_of);
    [apply category_names_NoDup|].
  apply Forall_forall. intros s _. apply category_of_named.
Qed.

End AnalysisFigures.

(** X17. The treemap of the categories of a frame whose summaries are
    text, as the categories tab draws it: the annotation is shown exactly
    when the frame has no record; otherwise there is a tile for a category
    exactly when a record falls in it, with the number of these records;
    the values add up to the number of records of the frame; and no two
    tiles have the same colour. *)
Theorem treemap_of_analysis `{Unicode} (df : DataFrame) :
  Forall (λ r, Spec.is_text (r !! "ideia_resumo")) (rows df) →
  ∃ cats fig,
    Categories.get_categories_analysis df = Ok cats
    ∧ Viz.create_categories_treemap cats = Some fig
    ∧ match fig with
      | Viz.Annotation _ => rows df = []
      | Viz.Chart t =>
          rows df ≠ []
          ∧ sum_list (Viz.values t) = length (rows df)
          ∧ length (Viz.values t) = length (Viz.labels t)
          ∧ Viz.labels t `sublist_of` Spec.category_names
          ∧ (∀ c n, (c, n) ∈ zip (Viz.labels t) (Viz.values t) ↔
               (0 < n)%nat
               ∧ n = length (filter (λ s, Spec.category_of s = c)
                                    (Spec.summaries df)))
          ∧ NoDup (Viz.colors t)
      end.
Proof.
  intros Hrows. rewrite (analysis_buckets df Hrows).
  set (f := λ c, filter (λ s, Spec.category_of s = c) (Spec.summaries df)).
  destruct (treemap_figure (Spec.buckets f)) as (cs & Hcs & Hfig).
  eexists _, _. split; [done|]. split; [exact Hfig|].
  pose proof (sizes_total (Spec.buckets f)) as Htot.
  unfold f in Htot at 2. rewrite buckets_total, (summaries_length df Hrows) in Htot.
  pose proof (sizes_positive (Spec.buckets f)) as Hpos.
  pose proof (sizes_keys_sublist (Spec.buckets f)) as Hsub.
  rewrite buckets_keys in Hsub.
  pose proof (sizes_buckets f) as Hin.
  clear Hfig. revert Htot Hpos Hsub Hin Hcs.
  generalize (Viz.sizes (Spec.buckets f)). intros sz Htot Hpos Hsub Hin Hcs.
  destruct (decide (sz = [])) as [Hnil|Hne].
  - rewrite Hnil in Htot. cbn in Htot. by destruct (rows df).
  - cbn [Viz.labels Viz.values Viz.colors]. split_and!.
    + intros Hr. rewrite Hr in Htot.
      destruct sz as [|[c n] l]; [done|].
      apply Forall_cons in Hpos as [Hpos _]. cbn in Htot, Hpos.
      unfold id in Htot. lia.
    + exact Htot.
    + by rewrite !length_fmap.
    + exact Hsub.
    + intros c n. rewrite zip_fst_snd, Hin. split; [tauto|].
      intros [Hpos' ->]. split_and!; [|exact Hpos'|reflexivity].
      destruct (length_pos_elem _ Hpos') as [s Hs].
      apply list_elem_of_filter in Hs as [<- _]. apply category_of_named.
    + apply (colours_NoDup (length sz)); [|exact Hcs].
      apply sublist_length in Hsub. rewrite length_fmap in Hsub.
      etrans; [exact Hsub|]. unfold Spec.category_names. by rewrite length_map.
Qed.

Lemma treemap_of_analysis_witness :
  ∃ cats fig,
    @Categories.get_categories_analysis latin1 Examples.survey = Ok cats
    ∧ Viz.create_categories_treemap cats = Some fig
    ∧ match fig with
      | Viz.Annotation _ => rows Examples.survey = []
      | Viz.Chart t =>
          rows Examples.survey ≠ []
          ∧ sum_list (Viz.values t) = length (rows Examples.survey)
          ∧ length (Viz.values t) = length (Viz.labels t)
          ∧ Viz.labels t `sublist_of` Spec.category_names
          ∧ (∀ c n, (c, n) ∈ zip (Viz.labels t) (Viz.values t) ↔
               (0 < n)%nat
               ∧ n = length (filter (λ s, @Spec.category_of latin1 s = c)
                                    (Spec.summaries Examples.survey)))
          ∧ NoDup (Viz.colors t)
      end.
Proof.
  apply (@treemap_of_analysis latin1 Examples.survey).
  apply (bool_decide_unpack _). by vm_compute.
Defined.

(** ** Sorting by a key, the larger first *)

Section SortedDesc.
Context {A : Type} (key : A → nat).
Import Viz.

Lemma insert_desc_Permutation x l : insert_desc key x l ≡ₚ x :: l.
Proof.
  induction l as [|y l IH]; cbn [insert_desc]; [done|].
  destruct (decide (key x < key y)%nat); [|done].
  rewrite IH. apply Permutation_swap.
Qed.

Lemma sorted_desc_Permutation l : sorted_desc key l ≡ₚ l.
Proof.
  unfold sorted_desc. induction l as [|x l IH]; cbn [foldr]; [done|].
  by rewrite insert_desc_Permutation, IH.
Qed.

Lemma insert_desc_sorted x l :
  StronglySorted (λ a b, (key b ≤ key a)%nat) l →
  StronglySorted (λ a b, (key b ≤ key a)%nat) (insert_desc key x l).
Proof.
  induction 1 as [|y l Hl IH Hy]; cbn [insert_desc].
  - by repeat constructor.
  - destruct (decide (key x < key y)%nat) as [Hlt|Hge].
    + constructor; [done|]. rewrite Forall_forall in Hy. apply Forall_forall.
      intros z Hz. rewrite insert_desc_Permutation in Hz.
      apply elem_of_cons in Hz as [->|Hz]; [lia | auto].
    + constructor; [by constructor|]. constructor; [lia|].
      eapply Forall_impl; [exact Hy|]. cbn. intros z Hz. lia.
Qed.

Lemma sorted_desc_sorted l :
  StronglySorted (λ a b, (key b ≤ key a)%nat) (sorted_desc key l).
Proof.
  unfold sorted_desc. induction l as [|x l IH]; cbn [foldr]; [constructor|].
  by apply insert_desc_sorted.
Qed.

(** The sort is stable: the items of one key keep their order. *)
Lemma insert_desc_stable k x l :
  filter (λ y, key y = k) (insert_desc key x l)
  = filter (λ y, key y = k) (x :: l).
Proof.
  induction l as [|y l IH]; cbn [insert_desc]; [done|].
  destruct (decide (key x < key y)%nat) as [Hlt|Hge]; [|done].
  rewrite (filter_cons _ y), IH, !filter_cons.
  destruct (decide (key y = k)), (decide (key x = k)); try done. lia.
Qed.

Lemma sorted_desc_stable k l :
  filter (λ y, key y = k) (sorted_desc key l) = filter (λ y, key y = k) l.
Proof.
  unfold sorted_desc. induction l as [|x l IH]; cbn [foldr]; [done|].
  by rewrite insert_desc_stable, !filter_cons, IH.
Qed.

(** What is left out of the first [n] is no larger than what is in. *)
Lemma sorted_desc_take n l x y :
  x ∈ take n (sorted_desc key l) → y ∈ l →
  y ∉ take n (sorted_desc key l) →
  length (take n (sorted_desc key l)) = n ∧ (key y ≤ key x)%nat.
Proof.
  intros Hx Hy Hout. pose proof (sorted_desc_sorted l) as Hs.
  pose proof (take_drop n (sorted_desc key l)) as Hsplit.
  assert (Hd : y ∈ drop n (sorted_desc key l)).
  { rewrite <- (sorted_desc_Permutation l), <- Hsplit in Hy.
    apply elem_of_app in Hy as [?|?]; done. }
  split.
  - rewrite length_take. apply Nat.min_l.
    destruct (decide (n ≤ length (sorted_desc key l))%nat) as [|Hlt]; [done|].
    rewrite drop_ge in Hd by lia. by apply elem_of_nil in Hd.
  - rewrite <- Hsplit in Hs.
    apply (StronglySorted_app_1_elem_of _ _ _ _ _ Hs Hx Hd).
Qed.

End SortedDesc.

(** The rows of three that a list of at most six is cut into. *)
Lemma rows_of_three {A : Type} (top : list A) :
  (length top ≤ 6)%nat →
  let rows := (λ i, take 3 (drop i top)) <$> Viz.range_step (length top) 3 in
  concat rows = top
  ∧ (length rows ≤ 2)%nat
  ∧ Forall (λ row, (1 ≤ length row ≤ 3)%nat) rows
  ∧ (top ≠ [] → rows ≠ []).
Proof.
  intros Hlen.
  do 7 (destruct top as [|? top];
        [cbn; split_and!; [done | lia | repeat constructor; lia | done]|]).
  cbn in Hlen. lia.
Qed.

(** X18. The summary cards of a frame whose summaries are text: the
    message is shown exactly when the frame has no record; otherwise there
    are at most six cards, in at most two rows of one to three cards; a
    card shows a category in which a record falls, with the number of
    these records, and no category twice; the larger counts come first;
    and a category with records that has no card has no more records than
    any category shown, and then six cards are shown. *)
Theorem category_summary_cards `{Unicode} (df : DataFrame) :
  Forall (λ r, Spec.is_text (r !! "ideia_resumo")) (rows df) →
  ∃ fig, Viz.display_category_summary_cards df = Ok fig
    ∧ match fig with
      | Viz.Annotation _ => rows df = []
      | Viz.Chart card_rows =>
          rows df ≠ []
          ∧ (length card_rows ≤ 2)%nat
          ∧ Forall (λ row, (1 ≤ length row ≤ 3)%nat) card_rows
          ∧ (length (concat card_rows) ≤ 6)%nat
          ∧ NoDup ((concat card_rows).*1)
          ∧ StronglySorted (λ a b, (b.2 ≤ a.2)%nat) (concat card_rows)
          ∧ (∀ c n, (c, n) ∈ concat card_rows →
               (0 < n)%nat
               ∧ n = length (filter (λ s, Spec.category_of s = c)
                                    (Spec.summaries df)))
          ∧ (∀ c s, s ∈ Spec.summaries df → Spec.category_of s = c →
               c ∉ (concat card_rows).*1 →
               length (concat card_rows) = 6%nat
               ∧ ∀ b m, (b, m) ∈ concat card_rows →
                   (length (filter (λ s, Spec.category_of s = c)
                                   (Spec.summaries df)) ≤ m)%nat)
      end.
Proof.
  intros Hrows. unfold Viz.display_category_summary_cards.
  rewrite (analysis_buckets df Hrows). cbn [mbind result_bind].
  set (f := λ c, filter (λ s, Spec.category_of s = c) (Spec.summaries df)).
  pose proof (sizes_total (Spec.buckets f)) as Htot.
  unfold f in Htot at 2.
  rewrite buckets_total, (summaries_length df Hrows) in Htot.
  pose proof (sizes_keys_sublist (Spec.buckets f)) as Hsub.
  rewrite buckets_keys in Hsub.
  pose proof (sizes_buckets f) as Hin.
  revert Htot Hsub Hin. generalize (Viz.sizes (Spec.buckets f)).
  intros sz Htot Hsub Hin. cbv zeta.
  pose proof (sorted_desc_Permutation snd sz) as Hperm.
  destruct (decide (Viz.sorted_desc snd sz = [])) as [Hnil|Hne].
  - eexists. split; [done|]. cbv beta iota.
    rewrite Hnil in Hperm. apply Permutation_nil_l in Hperm. subst sz.
    cbn in Htot. by destruct (rows df).
  - eexists. split; [done|]. cbv beta iota.
    remember (take 6 (Viz.sorted_desc snd sz)) as top eqn:Etop.
    assert (Hlen : (length top ≤ 6)%nat) by (rewrite Etop, length_take; lia).
    destruct (rows_of_three top Hlen) as (Hcat & Hrows2 & Hrows3 & _).
    cbv zeta in Hcat, Hrows2, Hrows3. rewrite Hcat.
    assert (Htop : ∀ x, x ∈ top → x ∈ sz).
    { intros x Hx. rewrite <- Hperm.
      rewrite <- (take_drop 6 (Viz.sorted_desc snd sz)), <- Etop.
      apply elem_of_app. by left. }
    assert (Hnd : NoDup (sz.*1)).
    { eapply sublist_NoDup; [apply category_names_NoDup | exact Hsub]. }
    split_and!.
    + intros Hr. rewrite Hr in Htot. destruct sz as [|[c n] l].
      { apply Permutation_nil_r in Hperm. done. }
      assert (Hpos : (0 < n)%nat).
      { apply (Hin c n). apply list_elem_of_here. }
      cbn in Htot. unfold id in Htot. lia.
    + exact Hrows2.
    + exact Hrows3.
    + exact Hlen.
    + rewrite <- Hperm in Hnd.
      rewrite <- (take_drop 6 (Viz.sorted_desc snd sz)), fmap_app in Hnd.
      rewrite <- Etop in Hnd. by apply NoDup_app in Hnd as [? _].
    + pose proof (sorted_desc_sorted snd sz) as Hs.
      rewrite <- (take_drop 6 (Viz.sorted_desc snd sz)), <- Etop in Hs.
      by apply StronglySorted_app in Hs as (_ & ? & _).
    + intros c n Hc%Htop%Hin. tauto.
    + intros c s Hs Hcs Hout.
      assert (Hc : (c, length (f c)) ∈ sz).
      { apply Hin. split_and!; [| |reflexivity].
        - rewrite <- Hcs. apply category_of_named.
        - assert (Hsf : s ∈ f c) by (by apply list_elem_of_filter).
          destruct (f c); [by apply elem_of_nil in Hsf | cbn; lia]. }
      assert (Hout' : (c, length (f c)) ∉ top).
      { intros Hc'. apply Hout. apply list_elem_of_fmap.
        exists (c, length (f c)). split; [reflexivity | exact Hc']. }
      assert (Hx : ∃ x, x ∈ top).
      { rewrite Etop. destruct (Viz.sorted_desc snd sz) as [|x l]; [done|].
        exists x. cbn. apply list_elem_of_here. }
      destruct Hx as [x Hx]. rewrite Etop in Hx, Hout'. split.
      * rewrite Etop. apply (sorted_desc_take snd 6 sz x _ Hx Hc Hout').
      * intros b m Hb. rewrite Etop in Hb.
        apply (sorted_desc_take snd 6 sz (b, m) _ Hb Hc Hout').
Qed.

Lemma category_summary_cards_witness :
  ∃ fig, @Viz.display_category_summary_cards latin1 Examples.survey = Ok fig
    ∧ match fig with
      | Viz.Annotation _ => rows Examples.survey = []
      | Viz.Chart card_rows =>
          rows Examples.survey ≠ []
          ∧ (length card_rows ≤ 2)%nat
          ∧ Forall (λ row, (1 ≤ length row ≤ 3)%nat) card_rows
          ∧ (length (concat card_rows) ≤ 6)%nat
          ∧ NoDup ((concat card_rows).*1)
          ∧ StronglySorted (λ a b, (b.2 ≤ a.2)%nat) (concat card_rows)
          ∧ (∀ c n, (c, n) ∈ concat card_rows →
               (0 < n)%nat
               ∧ n = length (filter (λ s, @Spec.category_of latin1 s = c)
                                    (Spec.summaries Examples.survey)))
          ∧ (∀ c s, s ∈ Spec.summaries Examples.survey →
               @Spec.category_of latin1 s = c →
               c ∉ (concat card_rows).*1 →
               length (concat card_rows) = 6%nat
               ∧ ∀ b m, (b, m) ∈ concat card_rows →
                   (length (filter (λ s, @Spec.category_of latin1 s = c)
                                   (Spec.summaries Examples.survey)) ≤ m)%nat)
      end.
Proof.
  apply (@category_summary_cards latin1 Examples.survey).
  apply (bool_decide_unpack _). by vm_compute.
Defined.

(** ** The metric cards *)

Section MetricCards.
Context `{Unicode}.
Import Viz.







End MetricCards.



(** A frame as read from the file, before [_clean_data]: the fourth card
    raises on a record without alerts, a missing value there. *)
Example metrics_cards_raw :
  Viz.display_metrics_cards Examples.alerts_csv = Raise TypeError.
Proof. by vm_compute. Qed.
